(** * Checkpoint / restore system calls of xv6-public/sysfile.c

    A shallow embedding of [fdalloc], [create], [sys_open], [the_opener],
    [sys_isvpcb] (checkpoint) and [sys_ildpcb] (restore), written as
    computations in a state-and-outcome monad.

    The functions declared in defs.h (log.c, fs.c, file.c, vm.c, proc.c,
    syscall.c, console.c) are not part of sysfile.c.  They are reached
    through one handler, [ext], of the interface [Kernel]; every call is
    recorded, with its result, in a chronological trace.  The constants of
    param.h, fcntl.h, stat.h, file.h and mmu.h and the layout of the
    structures of proc.h are fields of the same interface. *)

From Stdlib Require Import ZArith Lia List.
From Stdlib Require Import Init.Byte.
From stdpp Require Import base list strings.

Local Open Scope Z_scope.

(** ** Calls that leave sysfile.c *)

(** Fields of [struct inode] and [struct file] read or written by sysfile.c. *)
Inductive ifield := I_dev | I_inum | I_type | I_major | I_minor | I_nlink.
Inductive ffield := F_type | F_ip | F_off | F_readable | F_writable.
(** The two link fields of the current process read by sysfile.c,
    [proc->tf] and [proc->context].  The second is reassigned at every
    context switch, which a sleeping callee causes, so both are loaded
    through the handler. *)
Inductive pfield := P_tf | P_context.

(** The fields of the current process, [*proc], that sysfile.c reads or
    assigns and that no callee used here assigns. *)
Record proc := Proc {
  sz : Z;              (* proc->sz, a uint *)
  pgdir : Z;           (* proc->pgdir *)
  pid : Z;             (* proc->pid *)
  ofile : list Z       (* proc->ofile[], one entry per descriptor, 0 = free *)
}.

(** One constructor per function of defs.h used by the embedded code, and
    per access to an object that lives in kernel memory.  Pointers and C
    integers are [Z]; the null pointer is [0].  A buffer argument that the
    callee only reads is passed by value; a buffer the callee fills is
    returned next to the C return value. *)
Inductive call : Type -> Type :=
(* log.c *)
| Begin_op : call unit
| End_op : call unit
(* fs.c *)
| Namei (path : string) : call Z
| Nameiparent (path : string) : call (Z * string)
| Ilock (ip : Z) : call unit
| Iunlock (ip : Z) : call unit
| Iunlockput (ip : Z) : call unit
| Iput (ip : Z) : call unit
| Iupdate (ip : Z) : call unit
| Dirlookup (dp : Z) (name : string) : call Z
| Ialloc (dev : Z) (type : Z) : call Z
| Dirlink (dp : Z) (name : string) (inum : Z) : call Z
| Iload (fld : ifield) (ip : Z) : call Z
| Istore (fld : ifield) (ip : Z) (v : Z) : call unit
(* file.c *)
| Filealloc : call Z
| Fileclose (f : Z) : call unit
| Fileread (f : Z) (n : Z) : call (Z * list byte)
| Filewrite (f : Z) (data : list byte) (n : Z) : call Z
| Fstore (fld : ffield) (f : Z) (v : Z) : call unit
(* syscall.c *)
| Argstr (n : Z) : call (Z * string)
| Argint (n : Z) : call (Z * Z)
(* console.c *)
| Cprintf (fmt : string) (args : list Z) : call unit
(* vm.c and raw kernel memory *)
| Ns_walkpgdir (pgdir : Z) (va : Z) (alloc : Z) : call Z
| Load32 (addr : Z) : call Z
| Kload (addr : Z) (n : Z) : call (list byte)
| Kstore (addr : Z) (data : list byte) : call unit
(* proc.c *)
| Pload (fld : pfield) : call Z
| Pimage (p : proc) : call (list byte)
| Kill (pid : Z) : call Z
| Load_the_proc (loaded_proc : list byte) (pages_f flag_f : Z) : call Z.

(** A call together with the value it returned. *)
Inductive event : Type :=
| Ev {R : Type} (c : call R) (r : R).

(** The kernel around sysfile.c. *)
Class Kernel := {
  world : Type;
  ext : forall R, call R -> world -> world * R;
  (* param.h *)
  NOFILE : Z;
  (* fcntl.h *)
  O_RDONLY : Z;
  O_WRONLY : Z;
  O_RDWR : Z;
  O_CREATE : Z;
  (* stat.h, file.h *)
  T_DIR : Z;
  T_FILE : Z;
  FD_INODE : Z;
  (* mmu.h, memlayout.h *)
  PGSIZE : Z;
  PTE_P : Z;
  PTE_ADDR : Z -> Z;
  PTE_FLAGS : Z -> Z;
  p2v : Z -> Z;
  (* proc.h, x86.h: sizes, and the offsets of the two link fields that
     sys_ildpcb reads back from a deserialized struct proc *)
  sizeof_context : Z;
  sizeof_trapframe : Z;
  sizeof_proc : Z;
  offsetof_context : nat;
  offsetof_tf : nat;
  (* content of an uninitialised local buffer of the given size *)
  uninit : Z -> list byte
}.

Arguments ext {_} {R} _ _.

(** ** Machine integers *)

Definition wrap32 (z : Z) : Z := z mod 2 ^ 32.

Definition byte_of_Z (z : Z) : byte :=
  match Byte.of_N (Z.to_N (z mod 256)) with
  | Some b => b
  | None => x00
  end.

Definition Z_of_byte (b : byte) : Z := Z.of_N (Byte.to_N b).

(** The four bytes of a [uint], little-endian as on x86. *)
Definition le32 (z : Z) : list byte :=
  [byte_of_Z z; byte_of_Z (z / 2 ^ 8); byte_of_Z (z / 2 ^ 16); byte_of_Z (z / 2 ^ 24)].

Definition le32_decode (bs : list byte) : Z :=
  fold_right (fun b acc => Z_of_byte b + 2 ^ 8 * acc) 0 (take 4 bs).

(** The 32-bit field found [off] bytes into a structure image. *)
Definition field32 (off : nat) (image : list byte) : Z :=
  le32_decode (drop off image).

(** ** State, outcomes and the monad *)

Section Embedding.
Context {K : Kernel}.

Record kstate := KState {
  kproc : proc;          (* the calling process *)
  kworld : world;        (* everything behind defs.h *)
  trace : list event     (* calls made so far, oldest first *)
}.

Definition set_ofile (tbl : list Z) (s : kstate) : kstate :=
  KState (Proc (sz (kproc s)) (pgdir (kproc s)) (pid (kproc s)) tbl)
         (kworld s) (trace s).

Inductive outcome (A : Type) : Type :=
| Ret (a : A) (s : kstate)              (* the C function returned [a] *)
| Exited (s : kstate)                   (* exit() was called in state [s] *)
| Panicked (msg : string) (s : kstate)  (* panic(msg) *)
| Undef (s : kstate)                    (* proc->ofile indexed out of bounds *)
| Diverged (s : kstate).                (* a loop ran out of fuel *)

Arguments Ret {A}.
Arguments Exited {A}.
Arguments Panicked {A}.
Arguments Undef {A}.
Arguments Diverged {A}.

Definition M (A : Type) : Type := kstate -> outcome A.

Definition ret {A} (a : A) : M A := fun s => Ret a s.

Definition bind {A B} (m : M A) (k : A -> M B) : M B := fun s =>
  match m s with
  | Ret a s' => k a s'
  | Exited s' => Exited s'
  | Panicked msg s' => Panicked msg s'
  | Undef s' => Undef s'
  | Diverged s' => Diverged s'
  end.

#[global] Instance M_ret : MRet M := @ret.
#[global] Instance M_bind : MBind M := fun A B k m => bind m k.

Definition do_call {R} (c : call R) : M R := fun s =>
  let (w, r) := ext c (kworld s) in
  Ret r (KState (kproc s) w (trace s ++ [Ev c r])).

Definition get_proc : M proc := fun s => Ret (kproc s) s.

Definition exit_ {A} : M A := fun s => Exited s.
Definition panic {A} (msg : string) : M A := fun s => Panicked msg s.
Definition diverge {A} : M A := fun s => Diverged s.

(** [proc->ofile[fd]] as an rvalue and as an lvalue.  The table is a C
    array: an index outside it is undefined behaviour. *)
Definition ofile_get (fd : Z) : M Z := fun s =>
  if fd <? 0 then Undef s
  else match ofile (kproc s) !! Z.to_nat fd with
       | Some f => Ret f s
       | None => Undef s
       end.

Definition ofile_set (fd : Z) (f : Z) : M unit := fun s =>
  if fd <? 0 then Undef s
  else match ofile (kproc s) !! Z.to_nat fd with
       | Some _ => Ret tt (set_ofile (<[Z.to_nat fd := f]> (ofile (kproc s))) s)
       | None => Undef s
       end.

(** C truth values. *)
Definition c_bool (b : bool) : Z := if b then 1 else 0.
Definition c_true (z : Z) : bool := negb (z =? 0).

(** ** fdalloc *)

(** [for (fd = 0; fd < NOFILE; fd++)]: the counter only grows, so NOFILE
    rounds of fuel are never used up. *)
Fixpoint fdalloc_loop (fuel : nat) (fd : Z) (f : Z) : M Z :=
  if fd <? NOFILE then
    match fuel with
    | O => diverge
    | S fuel' =>
        cur ← ofile_get fd;
        if cur =? 0 then
          ofile_set fd f;;
          mret fd
        else fdalloc_loop fuel' (fd + 1) f
    end
  else mret (-1).

Definition fdalloc (f : Z) : M Z := fdalloc_loop (Z.to_nat NOFILE) 0 f.

(** ** create *)

Definition create (path : string) (type major minor : Z) : M Z :=
  '(dp, name) ← do_call (Nameiparent path);
  if dp =? 0 then mret 0 else
  do_call (Ilock dp);;
  ip ← do_call (Dirlookup dp name);
  if negb (ip =? 0) then
    do_call (Iunlockput dp);;
    do_call (Ilock ip);;
    ip_type ← (if type =? T_FILE then do_call (Iload I_type ip) else mret 0);
    if (type =? T_FILE) && (ip_type =? T_FILE) then mret ip else
    do_call (Iunlockput ip);;
    mret 0
  else
  dev ← do_call (Iload I_dev dp);
  ip ← do_call (Ialloc dev type);
  if ip =? 0 then panic "create: ialloc" else
  do_call (Ilock ip);;
  do_call (Istore I_major ip major);;
  do_call (Istore I_minor ip minor);;
  do_call (Istore I_nlink ip 1);;
  do_call (Iupdate ip);;
  (if type =? T_DIR then
     nl ← do_call (Iload I_nlink dp);
     do_call (Istore I_nlink dp (nl + 1));;
     do_call (Iupdate dp);;
     inum ← do_call (Iload I_inum ip);
     r1 ← do_call (Dirlink ip "." inum);
     if r1 <? 0 then panic "create dots" else
     dinum ← do_call (Iload I_inum dp);
     r2 ← do_call (Dirlink ip ".." dinum);
     if r2 <? 0 then panic "create dots" else mret tt
   else mret tt);;
  inum ← do_call (Iload I_inum ip);
  r ← do_call (Dirlink dp name inum);
  if r <? 0 then panic "create: dirlink" else
  do_call (Iunlockput dp);;
  mret ip.


(** ** sys_open and the_opener *)

(** In both, an early [return -1] of the first half (no inode) is handed
    to the second half as a null [ip], which no successful path yields. *)
Definition sys_open : M Z :=
  '(r, path) ← do_call (Argstr 0);
  if r <? 0 then mret (-1) else
  '(r, omode) ← do_call (Argint 1);
  if r <? 0 then mret (-1) else
  do_call Begin_op;;
  ip ← (if c_true (Z.land omode O_CREATE) then
          ip ← create path T_FILE 0 0;
          if ip =? 0 then do_call End_op;; mret 0 else mret ip
        else
          ip ← do_call (Namei path);
          if ip =? 0 then do_call End_op;; mret 0 else
          do_call (Ilock ip);;
          ip_type ← do_call (Iload I_type ip);
          if (ip_type =? T_DIR) && negb (omode =? O_RDONLY) then
            do_call (Iunlockput ip);;
            do_call End_op;;
            mret 0
          else mret ip);
  if ip =? 0 then mret (-1) else
  f ← do_call Filealloc;
  fd ← (if f =? 0 then mret (-1) else fdalloc f);
  if (f =? 0) || (fd <? 0) then
    (if c_true f then do_call (Fileclose f) else mret tt);;
    do_call (Iunlockput ip);;
    do_call End_op;;
    mret (-1)
  else
  do_call (Iunlock ip);;
  do_call End_op;;
  do_call (Fstore F_type f FD_INODE);;
  do_call (Fstore F_ip f ip);;
  do_call (Fstore F_off f 0);;
  do_call (Fstore F_readable f (c_bool (negb (c_true (Z.land omode O_WRONLY)))));;
  do_call (Fstore F_writable f
             (c_bool (c_true (Z.land omode O_WRONLY) || c_true (Z.land omode O_RDWR))));;
  mret fd.

Definition the_opener (p : string) (om : Z) : M Z :=
  let path := p in
  let omode := om in
  do_call Begin_op;;
  ip ← (if c_true (Z.land omode O_CREATE) then
          ip ← create path T_FILE 0 0;
          if ip =? 0 then do_call End_op;; mret 0 else mret ip
        else
          ip ← do_call (Namei path);
          if ip =? 0 then do_call End_op;; mret 0 else
          do_call (Ilock ip);;
          ip_type ← do_call (Iload I_type ip);
          if (ip_type =? T_DIR) && negb (omode =? O_RDONLY) then
            do_call (Iunlockput ip);;
            do_call End_op;;
            mret 0
          else mret ip);
  if ip =? 0 then mret (-1) else
  f ← do_call Filealloc;
  fd ← (if f =? 0 then mret (-1) else fdalloc f);
  if (f =? 0) || (fd <? 0) then
    (if c_true f then do_call (Fileclose f) else mret tt);;
    do_call (Iunlockput ip);;
    do_call End_op;;
    mret (-1)
  else
  do_call (Iunlock ip);;
  do_call End_op;;
  do_call (Fstore F_type f FD_INODE);;
  do_call (Fstore F_ip f ip);;
  do_call (Fstore F_off f 0);;
  do_call (Fstore F_readable f (c_bool (negb (c_true (Z.land omode O_WRONLY)))));;
  do_call (Fstore F_writable f
             (c_bool (c_true (Z.land omode O_WRONLY) || c_true (Z.land omode O_RDWR))));;
  mret fd.


(** ** sys_isvpcb: checkpoint *)

(** Body of the page loop at virtual address [i].  The three reads of
    [*pte] have no call between them and are one load. *)
Definition uvm_page (f f2 : Z) (i : Z) : M unit :=
  p ← get_proc;
  pte ← do_call (Ns_walkpgdir (pgdir p) i 0);
  if pte =? 0 then panic "copyuvm: pte should exist." else
  pte_v ← do_call (Load32 pte);
  if negb (c_true (Z.land pte_v PTE_P)) then panic "copyuvm: page not present." else
  let pa := PTE_ADDR pte_v in
  let flag := PTE_FLAGS pte_v in
  page ← do_call (Kload (p2v pa) PGSIZE);
  file_size ← do_call (Filewrite f page PGSIZE);
  do_call (Filewrite f2 (le32 flag) 4);;
  if negb (file_size =? PGSIZE) then
    do_call (Cprintf "Error:Failed to write UVM file.\n" []);;
    exit_
  else
  do_call (Cprintf "Written UVM Page %d.\n" [i / PGSIZE]).

(** [for (i = 0; i < proc->sz; i += PGSIZE)] with [i] a uint; the value of
    [i] after the loop is returned, the later cprintf calls pass it on. *)
Fixpoint uvm_loop (fuel : nat) (f f2 : Z) (i : Z) : M Z :=
  p ← get_proc;
  if i <? sz p then
    match fuel with
    | O => diverge
    | S fuel' =>
        uvm_page f f2 i;;
        uvm_loop fuel' f f2 (wrap32 (i + PGSIZE))
    end
  else mret i.

(** "Saving UVM": lines 543-578. *)
Definition save_uvm (fuel : nat) : M Z :=
  fd ← the_opener "pages" (Z.lor O_CREATE O_RDWR);
  fd2 ← the_opener "flag" (Z.lor O_CREATE O_RDWR);
  if fd <? 0 then
    do_call (Cprintf "Error:Failed to create UVM file.\n" []);;
    exit_
  else
  do_call (Cprintf "Created UVM file.\n" []);;
  f ← ofile_get fd;
  f2 ← ofile_get fd2;
  i ← uvm_loop fuel f f2 0;
  ofile_set fd 0;;
  ofile_set fd2 0;;
  do_call (Fileclose f);;
  do_call (Fileclose f2);;
  mret i.

(** "Saving context": lines 579-599. *)
Definition save_context (i : Z) : M unit :=
  fd ← the_opener "context" (Z.lor O_CREATE O_RDWR);
  if fd <? 0 then
    do_call (Cprintf "Error:Failed to create context file.\n" []);;
    exit_
  else
  do_call (Cprintf "Created context file.\n" []);;
  f ← ofile_get fd;
  ctx ← do_call (Pload P_context);
  data ← do_call (Kload ctx sizeof_context);
  file_size ← do_call (Filewrite f data sizeof_context);
  if negb (file_size =? sizeof_context) then
    do_call (Cprintf "Error:Failed to write context file.\n" []);;
    exit_
  else
  do_call (Cprintf "Written context file.\n" [i / PGSIZE]);;
  ofile_set fd 0;;
  do_call (Fileclose f).

(** "Saving trapframe": lines 600-620. *)
Definition save_trapframe (i : Z) : M unit :=
  fd ← the_opener "trapframe" (Z.lor O_CREATE O_RDWR);
  if fd <? 0 then
    do_call (Cprintf "Error:Failed to create trapframe file.\n" []);;
    exit_
  else
  do_call (Cprintf "Created trapframe file.\n" []);;
  f ← ofile_get fd;
  tf ← do_call (Pload P_tf);
  data ← do_call (Kload tf sizeof_trapframe);
  file_size ← do_call (Filewrite f data sizeof_trapframe);
  if negb (file_size =? sizeof_trapframe) then
    do_call (Cprintf "Error:Failed to write trapframe file.\n" []);;
    exit_
  else
  do_call (Cprintf "Written trapframe file.\n" [i / PGSIZE]);;
  ofile_set fd 0;;
  do_call (Fileclose f).

(** "Saving proc": lines 621-641.  The image written is the one of [*proc]
    at that moment, the descriptor of the proc file included. *)
Definition save_proc (i : Z) : M unit :=
  fd ← the_opener "proc" (Z.lor O_CREATE O_RDWR);
  if fd <? 0 then
    do_call (Cprintf "Error:Failed to create proc file.\n" []);;
    exit_
  else
  do_call (Cprintf "Created proc file.\n" []);;
  f ← ofile_get fd;
  p ← get_proc;
  data ← do_call (Pimage p);
  file_size ← do_call (Filewrite f data sizeof_proc);
  if negb (file_size =? sizeof_proc) then
    do_call (Cprintf "Error:Failed to write proc file.\n" []);;
    exit_
  else
  do_call (Cprintf "Written proc file.\n" [i / PGSIZE]);;
  ofile_set fd 0;;
  do_call (Fileclose f).

Definition sys_isvpcb (fuel : nat) : M Z :=
  p ← get_proc;
  do_call (Cprintf "Parent PID: %d\n" [pid p]);;
  i ← save_uvm fuel;
  save_context i;;
  save_trapframe i;;
  save_proc i;;
  do_call (Cprintf "\n*Write is done.*\n\n" [i / PGSIZE]);;
  do_call (Kill (pid p));;
  @exit_ unit;;
  mret 0.

(** ** sys_ildpcb: restore *)

(** A local buffer after [fileread] deposited [data] at its start. *)
Definition fill (buf data : list byte) : list byte :=
  take (length buf) (data ++ drop (length data) buf).

(** The five descriptors, or the five [struct file] pointers, of restore. *)
Record five := Five { of_pages : Z; of_context : Z; of_tf : Z; of_proc : Z; of_flag : Z }.

(** The three local buffers of restore. *)
Record buffers := Buffers {
  loaded_context : list byte;
  loaded_tf : list byte;
  loaded_proc : list byte
}.

(** "Creating files": lines 656-666. *)
Definition restore_open : M (five * five) :=
  pages_fd ← the_opener "pages" O_RDONLY;
  context_fd ← the_opener "context" O_RDONLY;
  tf_fd ← the_opener "trapframe" O_RDONLY;
  proc_fd ← the_opener "proc" O_RDONLY;
  flag_fd ← the_opener "flag" O_RDONLY;
  pages_f ← ofile_get pages_fd;
  context_f ← ofile_get context_fd;
  tf_f ← ofile_get tf_fd;
  proc_f ← ofile_get proc_fd;
  flag_f ← ofile_get flag_fd;
  mret (Five pages_fd context_fd tf_fd proc_fd flag_fd,
        Five pages_f context_f tf_f proc_f flag_f).

(** "Reading files": lines 668-675.  The value [fileread] returns is
    dropped each time. *)
Definition restore_read (fs : five) : M buffers :=
  r ← do_call (Fileread (of_context fs) sizeof_context);
  let loaded_context := fill (uninit sizeof_context) r.2 in
  r ← do_call (Fileread (of_tf fs) sizeof_trapframe);
  let loaded_tf := fill (uninit sizeof_trapframe) r.2 in
  r ← do_call (Fileread (of_proc fs) sizeof_proc);
  let loaded_proc := fill (uninit sizeof_proc) r.2 in
  do_call (Cprintf "Read was successful.\n" []);;
  mret (Buffers loaded_context loaded_tf loaded_proc).

(** Lines 677-678: [*loaded_proc.context = loaded_context] and
    [*loaded_proc.tf = loaded_tf], two stores at the addresses held by the
    link fields of the descriptor just read. *)
Definition restore_install (b : buffers) : M unit :=
  do_call (Kstore (field32 offsetof_context (loaded_proc b)) (loaded_context b));;
  do_call (Kstore (field32 offsetof_tf (loaded_proc b)) (loaded_tf b)).


(** Lines 681-690. *)
Definition restore_close (fds fs : five) : M unit :=
  ofile_set (of_pages fds) 0;;
  ofile_set (of_context fds) 0;;
  ofile_set (of_tf fds) 0;;
  ofile_set (of_flag fds) 0;;
  ofile_set (of_proc fds) 0;;
  do_call (Fileclose (of_pages fs));;
  do_call (Fileclose (of_context fs));;
  do_call (Fileclose (of_tf fs));;
  do_call (Fileclose (of_flag fs));;
  do_call (Fileclose (of_proc fs)).

Definition sys_ildpcb : M Z :=
  '(fds, fs) ← restore_open;
  b ← restore_read fs;
  restore_install b;;
  pid ← do_call (Load_the_proc (loaded_proc b) (of_pages fs) (of_flag fs));
  restore_close fds fs;;
  mret pid.

End Embedding.

Arguments Ret {K A}.
Arguments Exited {K A}.
Arguments Panicked {K A}.
Arguments Undef {K A}.
Arguments Diverged {K A}.

(** The state an outcome ends in, and the outcome without its state. *)
Definition final {K : Kernel} {A} (o : outcome A) : kstate :=
  match o with
  | Ret _ s | Exited s | Panicked _ s | Undef s | Diverged s => s
  end.

Inductive ending (A : Type) : Type :=
| Returns (a : A)
| Exits
| Panics (msg : string)
| Undefined
| OutOfFuel.

Arguments Returns {A}.
Arguments Exits {A}.
Arguments Panics {A}.
Arguments Undefined {A}.
Arguments OutOfFuel {A}.

Definition ending_of {K : Kernel} {A} (o : outcome A) : ending A :=
  match o with
  | Ret a _ => Returns a
  | Exited _ => Exits
  | Panicked msg _ => Panics msg
  | Undef _ => Undefined
  | Diverged _ => OutOfFuel
  end.

(** * The other system calls of sysfile.c *)

(** ** Further calls that leave sysfile.c

    The functions of defs.h that only the system calls below use, and the
    accesses to [proc->cwd] and [ip->size].  They act on the world like
    the calls of [call]; they form a second alphabet and are not entered
    in the trace, which stays the log of the calls of [call].  A user
    buffer handed to a callee is passed as its address. *)
Inductive call2 : Type -> Type :=
(* file.c *)
| Filedup (f : Z) : call2 Z
| Filestat (f : Z) (st : Z) : call2 Z
| Fileread_at (f : Z) (addr : Z) (n : Z) : call2 Z
| Filewrite_at (f : Z) (addr : Z) (n : Z) : call2 Z
(* pipe.c: the return value, then [*f0] and [*f1] *)
| Pipealloc : call2 (Z * Z * Z)
(* syscall.c *)
| Argptr (n : Z) (size : Z) : call2 (Z * Z)
| Fetchint (addr : Z) : call2 (Z * Z)
| Fetchstr (addr : Z) : call2 Z
(* exec.c: [argv] is the array up to its null entry *)
| Exec (path : string) (argv : list Z) : call2 Z
(* fs.c: [dirlookup] with its [poff], [readi], [writei], [ip->size] *)
| Dirlookup_off (dp : Z) (name : string) : call2 (Z * Z)
| Readi (ip : Z) (off : Z) (n : Z) : call2 (Z * list byte)
| Writei (ip : Z) (data : list byte) (off : Z) (n : Z) : call2 Z
| Isize (ip : Z) : call2 Z
(* proc.h: [proc->cwd], which [iput] and [idup] callers reassign *)
| Cwd_load : call2 Z
| Cwd_store (ip : Z) : call2 unit.

Class Kernel2 {K : Kernel} := {
  ext2 : forall R, call2 R -> world -> world * R;
  (* stat.h, param.h *)
  T_DEV : Z;
  MAXARG : Z;
  (* fs.h, stat.h *)
  sizeof_dirent : Z;
  sizeof_stat : Z;
  (* fs.c: [namecmp] compares two names and touches no state *)
  namecmp : string -> string -> Z
}.

Arguments ext2 {_ _} {R} _ _.

(** An [int] passed for a [short] parameter. *)
Definition to_short (z : Z) : Z := (z + 2 ^ 15) mod 2 ^ 16 - 2 ^ 15.

(** The 16-bit field found [off] bytes into a structure image. *)
Definition field16 (off : nat) (image : list byte) : Z :=
  fold_right (fun b acc => Z_of_byte b + 2 ^ 8 * acc) 0 (take 2 (drop off image)).

Section Syscalls.
Context {K : Kernel} {K2 : Kernel2}.

Definition do_more {R} (c : call2 R) : M R := fun s =>
  let (w, r) := ext2 c (kworld s) in
  Ret r (KState (kproc s) w (trace s)).

(** ** argfd *)

(** The result is the return value, then [*pfd] and [*pf]; both are
    assigned on success only, and a caller that passes a null pointer
    ignores that component. *)
Definition argfd (n : Z) : M (Z * Z * Z) :=
  '(r, fd) ← do_call (Argint n);
  if r <? 0 then mret (-1, 0, 0) else
  if (fd <? 0) || (NOFILE <=? fd) then mret (-1, 0, 0) else
  f ← ofile_get fd;
  if f =? 0 then mret (-1, 0, 0) else
  mret (0, fd, f).

(** ** sys_dup, sys_read, sys_write, sys_close, sys_fstat *)

Definition sys_dup : M Z :=
  '(r, _, f) ← argfd 0;
  if r <? 0 then mret (-1) else
  fd ← fdalloc f;
  if fd <? 0 then mret (-1) else
  do_more (Filedup f);;
  mret fd.

Definition sys_read : M Z :=
  '(r, _, f) ← argfd 0;
  if r <? 0 then mret (-1) else
  '(r, n) ← do_call (Argint 2);
  if r <? 0 then mret (-1) else
  '(r, p) ← do_more (Argptr 1 n);
  if r <? 0 then mret (-1) else
  do_more (Fileread_at f p n).

Definition sys_write : M Z :=
  '(r, _, f) ← argfd 0;
  if r <? 0 then mret (-1) else
  '(r, n) ← do_call (Argint 2);
  if r <? 0 then mret (-1) else
  '(r, p) ← do_more (Argptr 1 n);
  if r <? 0 then mret (-1) else
  do_more (Filewrite_at f p n).

Definition sys_close : M Z :=
  '(r, fd, f) ← argfd 0;
  if r <? 0 then mret (-1) else
  ofile_set fd 0;;
  do_call (Fileclose f);;
  mret 0.

Definition sys_fstat : M Z :=
  '(r, _, f) ← argfd 0;
  if r <? 0 then mret (-1) else
  '(r, st) ← do_more (Argptr 1 sizeof_stat);
  if r <? 0 then mret (-1) else
  do_more (Filestat f st).

(** ** sys_link *)

(** The code after the label [bad]. *)
Definition link_bad (ip : Z) : M Z :=
  do_call (Ilock ip);;
  nl ← do_call (Iload I_nlink ip);
  do_call (Istore I_nlink ip (nl - 1));;
  do_call (Iupdate ip);;
  do_call (Iunlockput ip);;
  do_call End_op;;
  mret (-1).

Definition sys_link : M Z :=
  '(r, old) ← do_call (Argstr 0);
  if r <? 0 then mret (-1) else
  '(r, new) ← do_call (Argstr 1);
  if r <? 0 then mret (-1) else
  do_call Begin_op;;
  ip ← do_call (Namei old);
  if ip =? 0 then
    do_call End_op;;
    mret (-1)
  else
  do_call (Ilock ip);;
  ip_type ← do_call (Iload I_type ip);
  if ip_type =? T_DIR then
    do_call (Iunlockput ip);;
    do_call End_op;;
    mret (-1)
  else
  nl ← do_call (Iload I_nlink ip);
  do_call (Istore I_nlink ip (nl + 1));;
  do_call (Iupdate ip);;
  do_call (Iunlock ip);;
  '(dp, name) ← do_call (Nameiparent new);
  if dp =? 0 then link_bad ip else
  do_call (Ilock dp);;
  dp_dev ← do_call (Iload I_dev dp);
  ip_dev ← do_call (Iload I_dev ip);
  r ← (if negb (dp_dev =? ip_dev) then mret (-1) else
       inum ← do_call (Iload I_inum ip);
       do_call (Dirlink dp name inum));
  if negb (dp_dev =? ip_dev) || (r <? 0) then
    do_call (Iunlockput dp);;
    link_bad ip
  else
  do_call (Iunlockput dp);;
  do_call (Iput ip);;
  do_call End_op;;
  mret 0.

(** ** isdirempty and sys_unlink *)

(** [for (off = 2 * sizeof(de); off < dp->size; off += sizeof(de))]: [off]
    is an int compared with, and advanced by, unsigned values, so it
    behaves as a 32-bit unsigned counter. *)
Fixpoint isdirempty_loop (fuel : nat) (dp : Z) (off : Z) : M Z :=
  size ← do_more (Isize dp);
  if off <? size then
    match fuel with
    | O => diverge
    | S fuel' =>
        '(n, data) ← do_more (Readi dp off sizeof_dirent);
        if negb (n =? sizeof_dirent) then panic "isdirempty: readi" else
        let de := fill (uninit sizeof_dirent) data in
        if negb (field16 0 de =? 0) then mret 0 else
        isdirempty_loop fuel' dp (wrap32 (off + sizeof_dirent))
    end
  else mret 1.

Definition isdirempty (fuel : nat) (dp : Z) : M Z :=
  isdirempty_loop fuel dp (2 * sizeof_dirent).

(** The code after the label [bad]. *)
Definition unlink_bad (dp : Z) : M Z :=
  do_call (Iunlockput dp);;
  do_call End_op;;
  mret (-1).

Definition sys_unlink (fuel : nat) : M Z :=
  '(r, path) ← do_call (Argstr 0);
  if r <? 0 then mret (-1) else
  do_call Begin_op;;
  '(dp, name) ← do_call (Nameiparent path);
  if dp =? 0 then
    do_call End_op;;
    mret (-1)
  else
  do_call (Ilock dp);;
  if (namecmp name "." =? 0) || (namecmp name ".." =? 0) then unlink_bad dp else
  '(ip, off) ← do_more (Dirlookup_off dp name);
  if ip =? 0 then unlink_bad dp else
  do_call (Ilock ip);;
  nl ← do_call (Iload I_nlink ip);
  if nl <? 1 then panic "unlink: nlink < 1" else
  ip_type ← do_call (Iload I_type ip);
  empty ← (if ip_type =? T_DIR then isdirempty fuel ip else mret 1);
  if (ip_type =? T_DIR) && negb (c_true empty) then
    do_call (Iunlockput ip);;
    unlink_bad dp
  else
  n ← do_more (Writei dp (replicate (Z.to_nat sizeof_dirent) x00) off sizeof_dirent);
  if negb (n =? sizeof_dirent) then panic "unlink: writei" else
  ip_type ← do_call (Iload I_type ip);
  (if ip_type =? T_DIR then
     dnl ← do_call (Iload I_nlink dp);
     do_call (Istore I_nlink dp (dnl - 1));;
     do_call (Iupdate dp)
   else mret tt);;
  do_call (Iunlockput dp);;
  nl ← do_call (Iload I_nlink ip);
  do_call (Istore I_nlink ip (nl - 1));;
  do_call (Iupdate ip);;
  do_call (Iunlockput ip);;
  do_call End_op;;
  mret 0.

(** ** sys_mkdir, sys_mknod, sys_chdir *)

Definition sys_mkdir : M Z :=
  do_call Begin_op;;
  '(r, path) ← do_call (Argstr 0);
  if r <? 0 then
    do_call End_op;;
    mret (-1)
  else
  ip ← create path T_DIR 0 0;
  if ip =? 0 then
    do_call End_op;;
    mret (-1)
  else
  do_call (Iunlockput ip);;
  do_call End_op;;
  mret 0.

(** [major] and [minor] are ints, the parameters of [create] shorts. *)
Definition sys_mknod : M Z :=
  do_call Begin_op;;
  '(len, path) ← do_call (Argstr 0);
  if len <? 0 then
    do_call End_op;;
    mret (-1)
  else
  '(r, major) ← do_call (Argint 1);
  if r <? 0 then
    do_call End_op;;
    mret (-1)
  else
  '(r, minor) ← do_call (Argint 2);
  if r <? 0 then
    do_call End_op;;
    mret (-1)
  else
  ip ← create path T_DEV (to_short major) (to_short minor);
  if ip =? 0 then
    do_call End_op;;
    mret (-1)
  else
  do_call (Iunlockput ip);;
  do_call End_op;;
  mret 0.

Definition sys_chdir : M Z :=
  do_call Begin_op;;
  '(r, path) ← do_call (Argstr 0);
  if r <? 0 then
    do_call End_op;;
    mret (-1)
  else
  ip ← do_call (Namei path);
  if ip =? 0 then
    do_call End_op;;
    mret (-1)
  else
  do_call (Ilock ip);;
  ip_type ← do_call (Iload I_type ip);
  if negb (ip_type =? T_DIR) then
    do_call (Iunlockput ip);;
    do_call End_op;;
    mret (-1)
  else
  do_call (Iunlock ip);;
  cwd ← do_more Cwd_load;
  do_call (Iput cwd);;
  do_call End_op;;
  do_more (Cwd_store ip);;
  mret 0.

(** ** sys_exec *)

(** The loop [for (i = 0;; i++)] that collects [argv]; it leaves through
    one of its returns after at most MAXARG + 1 rounds.  [None] is its
    [return -1], [Some argv] its [break].  [uargv] and [uarg] are uints
    that [argint] and [fetchint] fill through an [int *]. *)
Fixpoint exec_args (fuel : nat) (uargv : Z) (i : Z) (argv : list Z) : M (option (list Z)) :=
  if MAXARG <=? i then mret None else
  match fuel with
  | O => diverge
  | S fuel' =>
      '(r, uarg) ← do_more (Fetchint (wrap32 (uargv + 4 * i)));
      if r <? 0 then mret None else
      let uarg := wrap32 uarg in
      if uarg =? 0 then mret (Some argv) else
      r ← do_more (Fetchstr uarg);
      if r <? 0 then mret None else
      exec_args fuel' uargv (i + 1) (argv ++ [uarg])
  end.

Definition sys_exec : M Z :=
  '(r, path) ← do_call (Argstr 0);
  if r <? 0 then mret (-1) else
  '(r, uargv) ← do_call (Argint 1);
  if r <? 0 then mret (-1) else
  argv ← exec_args (S (Z.to_nat MAXARG)) (wrap32 uargv) 0 [];
  match argv with
  | None => mret (-1)
  | Some argv => do_more (Exec path argv)
  end.

(** ** sys_pipe *)

(** [fd] points to two ints in user memory; [fd1] is read only when both
    allocations succeeded. *)
Definition sys_pipe : M Z :=
  '(r, fd) ← do_more (Argptr 0 (2 * 4));
  if r <? 0 then mret (-1) else
  '(r, rf, wf) ← do_more Pipealloc;
  if r <? 0 then mret (-1) else
  fd0 ← fdalloc rf;
  fd1 ← (if fd0 <? 0 then mret (-1) else fdalloc wf);
  if (fd0 <? 0) || (fd1 <? 0) then
    (if 0 <=? fd0 then ofile_set fd0 0 else mret tt);;
    do_call (Fileclose rf);;
    do_call (Fileclose wf);;
    mret (-1)
  else
  do_call (Kstore fd (le32 fd0));;
  do_call (Kstore (fd + 4) (le32 fd1));;
  mret 0.

End Syscalls.


(** ** A small kernel to run the embedding on

    sysfile.c is the only file of the kernel at hand.  The module below
    gives the handler a concrete meaning, modelled from the specification:
    the Opener's collaborators as a one-directory file system with a file
    table, the read-bytes and write-bytes interfaces, a region-addressed
    kernel memory, one page table, and the loader of section 4.4.  The
    general theorems below hold for every [Kernel]; this one serves to run
    the code on concrete inputs. *)

Module Toy.

(** Modelled from the spec: an artifact on persistent storage, an inode
    with its type, link count and content (fs.c and file.h are missing). *)
Record tinode := TInode {
  ti_type : Z; ti_major : Z; ti_minor : Z; ti_nlink : Z;
  ti_cap : Z;                 (* largest size the file may reach *)
  ti_data : list byte
}.

(** Modelled from the spec: a file handle, [struct file] (file.h is
    missing). *)
Record tfile := TFile {
  fl_type : Z; fl_ip : Z; fl_off : Z; fl_readable : Z; fl_writable : Z
}.

(** A process made runnable by the loader: identifier, size, the installed
    context and trap frame, and one (content, permission word) per page. *)
Record rproc := RProc {
  rp_pid : Z; rp_sz : Z;
  rp_context : list byte; rp_tf : list byte;
  rp_pages : list (list byte * Z)
}.

(** Modelled from the spec: the world behind defs.h. *)
Record toy := MkToy {
  t_dir : list (string * Z);       (* root directory: name, inode number *)
  t_inodes : list tinode;          (* inode number n, n >= 1, is entry n-1 *)
  t_files : list (option tfile);   (* file table; struct file k+1 is slot k *)
  t_mem : list (Z * list byte);    (* kernel memory: base address, bytes *)
  t_pt : list Z;                   (* page-table entries of the caller *)
  t_tf : Z;                        (* proc->tf *)
  t_context : Z;                   (* proc->context *)
  t_args : string * Z;             (* arguments 0 and 1 of the system call *)
  t_free : Z;                      (* free physical frames *)
  t_nextpid : Z;
  t_procs : list rproc
}.

Definition with_dir d w := MkToy d (t_inodes w) (t_files w) (t_mem w) (t_pt w)
  (t_tf w) (t_context w) (t_args w) (t_free w) (t_nextpid w) (t_procs w).
Definition with_inodes i w := MkToy (t_dir w) i (t_files w) (t_mem w) (t_pt w)
  (t_tf w) (t_context w) (t_args w) (t_free w) (t_nextpid w) (t_procs w).
Definition with_files f w := MkToy (t_dir w) (t_inodes w) f (t_mem w) (t_pt w)
  (t_tf w) (t_context w) (t_args w) (t_free w) (t_nextpid w) (t_procs w).
Definition with_mem m w := MkToy (t_dir w) (t_inodes w) (t_files w) m (t_pt w)
  (t_tf w) (t_context w) (t_args w) (t_free w) (t_nextpid w) (t_procs w).
Definition with_procs fr np ps w := MkToy (t_dir w) (t_inodes w) (t_files w)
  (t_mem w) (t_pt w) (t_tf w) (t_context w) (t_args w) fr np ps.

Definition pgsize : Z := 4096.
Definition nofile : Z := 16.
Definition t_dir_type : Z := 1.
Definition t_file_type : Z := 2.
Definition fd_inode : Z := 2.
Definition root : Z := 1.
Definition pt_base : Z := 0x8dfbe000.
Definition kernbase : Z := 0x80000000.
Definition sz_context : Z := 20.
Definition sz_trapframe : Z := 76.
Definition sz_proc : Z := 124.

Fixpoint assoc {A} (k : string) (l : list (string * A)) : option A :=
  match l with
  | [] => None
  | (k', v) :: l' => if String.eqb k k' then Some v else assoc k l'
  end.

Definition inode_at (ip : Z) (w : toy) : option tinode :=
  if ip <=? 0 then None else t_inodes w !! Z.to_nat (ip - 1).

Definition file_at (f : Z) (w : toy) : option tfile :=
  if f <=? 0 then None else mjoin (t_files w !! Z.to_nat (f - 1)).

Definition set_inode (ip : Z) (i : tinode) (w : toy) : toy :=
  with_inodes (<[Z.to_nat (ip - 1) := i]> (t_inodes w)) w.

Definition set_file (f : Z) (x : option tfile) (w : toy) : toy :=
  with_files (<[Z.to_nat (f - 1) := x]> (t_files w)) w.

Definition zeros (n : Z) : list byte := replicate (Z.to_nat n) x00.

(** Modelled from the spec: kernel memory behind [p2v], [proc->context]
    and [proc->tf] (vm.c, proc.c are missing); a load returns the bytes
    last stored at that base address, zero-filled to the length asked. *)
Fixpoint mem_find (a : Z) (m : list (Z * list byte)) : list byte :=
  match m with
  | [] => []
  | (b, bs) :: m' => if a =? b then bs else mem_find a m'
  end.

(** Modelled from the spec: a read of [n] bytes of kernel memory, the
    source of the page content and of the two records (vm.c and proc.c are
    missing). *)
Definition kload (a n : Z) (w : toy) : list byte :=
  take (Z.to_nat n) (mem_find a (t_mem w) ++ zeros n).

(** Modelled from the spec: [ns_walkpgdir] (vm.c is missing): the
    page-table entry of a mapped page, null beyond the mapped range. *)
Definition walk (va : Z) (w : toy) : Z :=
  if (0 <=? va) && (va / pgsize <? Z.of_nat (length (t_pt w)))
  then pt_base + 4 * (va / pgsize) else 0.

(** Modelled from the spec: the value of a page-table entry, [*pte], address
    and permission bits in one word (vm.c is missing). *)
Definition load32 (a : Z) (w : toy) : Z :=
  if (pt_base <=? a) then nth (Z.to_nat ((a - pt_base) / 4)) (t_pt w) 0 else 0.

(** Modelled from the spec: the read-bytes interface, [fileread] (file.c
    is missing): up to [n] bytes from the current offset of a readable
    file, or -1. *)
Definition fileread (f n : Z) (w : toy) : toy * (Z * list byte) :=
  match file_at f w with
  | Some fl =>
      match inode_at (fl_ip fl) w with
      | Some i =>
          if fl_readable fl =? 0 then (w, (-1, [])) else
          let data := take (Z.to_nat n) (drop (Z.to_nat (fl_off fl)) (ti_data i)) in
          let len := Z.of_nat (length data) in
          (set_file f (Some (TFile (fl_type fl) (fl_ip fl) (fl_off fl + len)
                                   (fl_readable fl) (fl_writable fl))) w,
           (len, data))
      | None => (w, (-1, []))
      end
  | None => (w, (-1, []))
  end.

(** Modelled from the spec: the write-bytes interface, [filewrite] (file.c
    is missing): all [n] bytes at the current offset of a writable file, or
    -1 and no change when the file would outgrow its limit. *)
Definition filewrite (f : Z) (data : list byte) (n : Z) (w : toy) : toy * Z :=
  match file_at f w with
  | Some fl =>
      match inode_at (fl_ip fl) w with
      | Some i =>
          if (fl_writable fl =? 0) || (ti_cap i <? fl_off fl + n) then (w, -1) else
          let old := ti_data i in
          let off := Z.to_nat (fl_off fl) in
          let new := take off (old ++ zeros (fl_off fl)) ++ take (Z.to_nat n) data
                     ++ drop (off + Z.to_nat n) old in
          (set_file f (Some (TFile (fl_type fl) (fl_ip fl) (fl_off fl + n)
                                   (fl_readable fl) (fl_writable fl)))
             (set_inode (fl_ip fl)
                (TInode (ti_type i) (ti_major i) (ti_minor i) (ti_nlink i)
                        (ti_cap i) new) w),
           n)
      | None => (w, -1)
      end
  | None => (w, -1)
  end.

(** Modelled from the spec: [filealloc] and [fileclose] (file.c is
    missing): the first free slot of the file table, null when it is full;
    closing frees the slot. *)
Fixpoint first_free (l : list (option tfile)) (k : Z) : Z :=
  match l with
  | [] => 0
  | None :: _ => k
  | Some _ :: l' => first_free l' (k + 1)
  end.

(** Modelled from the spec: [filealloc] (file.c is missing), see
    [first_free]. *)
Definition filealloc (w : toy) : toy * Z :=
  let f := first_free (t_files w) 1 in
  if f =? 0 then (w, 0) else (set_file f (Some (TFile 0 0 0 0 0)) w, f).

(** Modelled from the spec: an assignment to a field of [struct file]
    (file.h is missing). *)
Definition fstore (fld : ffield) (f v : Z) (w : toy) : toy :=
  match file_at f w with
  | Some fl =>
      set_file f (Some
        match fld with
        | F_type => TFile v (fl_ip fl) (fl_off fl) (fl_readable fl) (fl_writable fl)
        | F_ip => TFile (fl_type fl) v (fl_off fl) (fl_readable fl) (fl_writable fl)
        | F_off => TFile (fl_type fl) (fl_ip fl) v (fl_readable fl) (fl_writable fl)
        | F_readable => TFile (fl_type fl) (fl_ip fl) (fl_off fl) v (fl_writable fl)
        | F_writable => TFile (fl_type fl) (fl_ip fl) (fl_off fl) (fl_readable fl) v
        end) w
  | None => w
  end.

(** Modelled from the spec: path resolution and inode handling behind the
    Opener (fs.c is missing): one directory, the root, whose entries name
    inodes by number; a new file may grow to 70 KiB. *)
Definition dirlookup (dp : Z) (name : string) (w : toy) : Z :=
  if dp =? root then default 0 (assoc name (t_dir w)) else 0.

(** Modelled from the spec: [ialloc] (fs.c is missing): a fresh, empty
    inode of the given type. *)
Definition ialloc (type : Z) (w : toy) : toy * Z :=
  (with_inodes (t_inodes w ++ [TInode type 0 0 0 71680 []]) w,
   Z.of_nat (length (t_inodes w)) + 1).

(** Modelled from the spec: [dirlink] (fs.c is missing): a new entry of the
    root directory. *)
Definition dirlink (dp : Z) (name : string) (inum : Z) (w : toy) : toy * Z :=
  if dp =? root then (with_dir (t_dir w ++ [(name, inum)]) w, 0) else (w, -1).

(** Modelled from the spec: reads and assignments of the fields of
    [struct inode] (file.h is missing). *)
Definition iload (fld : ifield) (ip : Z) (w : toy) : Z :=
  match inode_at ip w with
  | Some i =>
      match fld with
      | I_dev => 1 | I_inum => ip | I_type => ti_type i
      | I_major => ti_major i | I_minor => ti_minor i | I_nlink => ti_nlink i
      end
  | None => 0
  end.

(** Modelled from the spec: see [iload]. *)
Definition istore (fld : ifield) (ip v : Z) (w : toy) : toy :=
  match inode_at ip w with
  | Some i =>
      set_inode ip
        match fld with
        | I_major => TInode (ti_type i) v (ti_minor i) (ti_nlink i) (ti_cap i) (ti_data i)
        | I_minor => TInode (ti_type i) (ti_major i) v (ti_nlink i) (ti_cap i) (ti_data i)
        | I_nlink => TInode (ti_type i) (ti_major i) (ti_minor i) v (ti_cap i) (ti_data i)
        | _ => i
        end w
  | None => w
  end.

(** Modelled from the spec: the image of [*proc] (proc.h is missing), the
    fields in the order of stock xv6: sz, pgdir, kstack, state, pid,
    parent, tf, context, chan, killed, ofile[16], cwd, name[16]. *)
Definition pimage (p : proc) (w : toy) : list byte :=
  le32 (sz p) ++ le32 (pgdir p) ++ le32 0 ++ le32 4 ++ le32 (pid p) ++ le32 0
  ++ le32 (t_tf w) ++ le32 (t_context w) ++ le32 0 ++ le32 0
  ++ concat (map le32 (ofile p)) ++ le32 root ++ zeros 16.

(** Modelled from the spec: [load_the_proc] (proc.c is missing), steps 3 to
    7 of section 4.4.  The descriptor's size must equal the number of
    entries of the flag stream times the page size; a process slot and one
    frame per page must be free; every page needs a full content block and
    a full permission word.  Any failure returns -1 and leaves the world as
    it was.  On success the context and trap frame found behind the
    descriptor's two link fields are copied into the new process, which is
    made runnable under a fresh identifier. *)
Fixpoint load_pages (n : nat) (pages flags : list byte) : option (list (list byte * Z)) :=
  match n with
  | O => Some []
  | S n' =>
      let pg := take 4096%nat pages in
      let fl := take 4%nat flags in
      if (length pg =? 4096)%nat && (length fl =? 4)%nat then
        match load_pages n' (drop 4096%nat pages) (drop 4%nat flags) with
        | Some rest => Some ((pg, le32_decode fl) :: rest)
        | None => None
        end
      else None
  end.

(** Modelled from the spec: [load_the_proc] itself, as described above
    [load_pages]; the size is the first field of the descriptor, the link
    fields [tf] and [context] lie 24 and 28 bytes into it. *)
Definition load_the_proc (d : list byte) (pf ff : Z) (w : toy) : toy * Z :=
  match file_at pf w ≫= (fun fl => inode_at (fl_ip fl) w),
        file_at ff w ≫= (fun fl => inode_at (fl_ip fl) w) with
  | Some pin, Some fin =>
      let size := field32 0 d in
      let entries := Z.of_nat (length (ti_data fin)) / 4 in
      if negb (size =? entries * pgsize) then (w, -1)
      else if 64 <=? Z.of_nat (length (t_procs w)) then (w, -1)
      else if t_free w <? entries then (w, -1)
      else
        match load_pages (Z.to_nat entries) (ti_data pin) (ti_data fin) with
        | Some pgs =>
            let np := RProc (t_nextpid w) size
                            (kload (field32 28 d) sz_context w)
                            (kload (field32 24 d) sz_trapframe w) pgs in
            (with_procs (t_free w - entries) (t_nextpid w + 1) (t_procs w ++ [np]) w,
             t_nextpid w)
        | None => (w, -1)
        end
  | _, _ => (w, -1)
  end.

(** Modelled from the spec: the handler, every function of defs.h that
    sysfile.c calls.  Locks, the log and the console do nothing here;
    [argstr] and [argint] fetch the two arguments of [open]; [kill] only
    answers 0. *)
Definition toy_ext (R : Type) (c : call R) (w : toy) : toy * R :=
  match c in call R return toy * R with
  | Begin_op | End_op => (w, tt)
  | Namei path => (w, default 0 (assoc path (t_dir w)))
  | Nameiparent path => (w, (root, path))
  | Ilock _ | Iunlock _ | Iunlockput _ | Iput _ | Iupdate _ => (w, tt)
  | Dirlookup dp name => (w, dirlookup dp name w)
  | Ialloc _ type => ialloc type w
  | Dirlink dp name inum => dirlink dp name inum w
  | Iload fld ip => (w, iload fld ip w)
  | Istore fld ip v => (istore fld ip v w, tt)
  | Filealloc => filealloc w
  | Fileclose f => (set_file f None w, tt)
  | Fileread f n => fileread f n w
  | Filewrite f data n => filewrite f data n w
  | Fstore fld f v => (fstore fld f v w, tt)
  | Argstr n => (w, if n =? 0 then (Z.of_nat (String.length (t_args w).1), (t_args w).1)
                    else (-1, EmptyString))
  | Argint n => (w, if n =? 1 then (0, (t_args w).2) else (-1, 0))
  | Cprintf _ _ => (w, tt)
  | Ns_walkpgdir _ va _ => (w, walk va w)
  | Load32 a => (w, load32 a w)
  | Kload a n => (w, kload a n w)
  | Kstore a data => (with_mem ((a, data) :: t_mem w) w, tt)
  | Pload P_tf => (w, t_tf w)
  | Pload P_context => (w, t_context w)
  | Pimage p => (w, pimage p w)
  | Kill _ => (w, 0)
  | Load_the_proc d pf ff => load_the_proc d pf ff w
  end.

(** Modelled from the spec: the constants of param.h, fcntl.h, stat.h,
    file.h, mmu.h and memlayout.h (all missing).  The page size is the
    4096 of section 8; the other values are those of stock xv6 on x86. *)
#[export] Instance kernel : Kernel := {|
  world := toy;
  ext := toy_ext;
  NOFILE := nofile;
  O_RDONLY := 0; O_WRONLY := 1; O_RDWR := 2; O_CREATE := 0x200;
  T_DIR := t_dir_type; T_FILE := t_file_type; FD_INODE := fd_inode;
  PGSIZE := pgsize;
  PTE_P := 1;
  PTE_ADDR := fun pte => Z.ldiff pte 0xFFF;
  PTE_FLAGS := fun pte => Z.land pte 0xFFF;
  p2v := fun a => a + kernbase;
  sizeof_context := sz_context;
  sizeof_trapframe := sz_trapframe;
  sizeof_proc := sz_proc;
  offsetof_context := 28;
  offsetof_tf := 24;
  uninit := fun n => replicate (Z.to_nat n) xcc
|}.

(** *** A two-page process, as in the scenario of section 8

    Page 0 is present, writable and user (flags 7), page 1 present and
    user only (flags 5).  Descriptors 0 to 2 hold the console. *)
Definition page0 : list byte := replicate 4096 x41.
Definition page1 : list byte := replicate 4096 x42.
Definition ctx0 : list byte := replicate 20 x11.
Definition tf0 : list byte := replicate 76 x22.

Definition console : tfile := TFile fd_inode 2 0 1 1.

Definition world0 : toy := {|
  t_dir := [("console"%string, 2)];
  t_inodes := [TInode t_dir_type 0 0 1 71680 []; TInode 3 1 1 1 0 []];
  t_files := [Some console; None; None; None; None; None; None; None];
  t_mem := [(kernbase + 0x100000, page0); (kernbase + 0x101000, page1);
            (0x8dffff9c, ctx0); (0x8dffffb4, tf0)];
  t_pt := [0x100007; 0x101005];
  t_tf := 0x8dffffb4;
  t_context := 0x8dffff9c;
  t_args := (EmptyString, 0);
  t_free := 8;
  t_nextpid := 4;
  t_procs := []
|}.

Definition ofile0 : list Z := [1; 1; 1; 0; 0; 0; 0; 0; 0; 0; 0; 0; 0; 0; 0; 0].

Definition state0 : kstate := KState (Proc 8192 0x8dfbd000 3 ofile0) world0 [].

(** The world the checkpoint of [state0] leaves behind, entered by another
    process that calls restore. *)
Definition world1 : toy := kworld (final (sys_isvpcb 3 state0)).

(** *** Variations used as inputs below *)

Definition set_data (ip : Z) (data : list byte) (w : toy) : toy :=
  match inode_at ip w with
  | Some i =>
      set_inode ip (TInode (ti_type i) (ti_major i) (ti_minor i) (ti_nlink i)
                           (ti_cap i) data) w
  | None => w
  end.

Definition remove_name (name : string) (w : toy) : toy :=
  with_dir (filter (fun e => String.eqb e.1 name = false) (t_dir w)) w.

(** The arguments of [open("pages", O_CREATE | O_RDWR)] on the user stack. *)
Definition state_open : kstate :=
  KState (Proc 8192 0x8dfbd000 3 ofile0)
         (MkToy (t_dir world0) (t_inodes world0) (t_files world0) (t_mem world0)
                (t_pt world0) (t_tf world0) (t_context world0) ("pages"%string, 0x202)
                (t_free world0) (t_nextpid world0) (t_procs world0)) [].


(** A file named "flag" exists already and cannot grow: every write to it
    fails. *)
Definition state_flagfull : kstate :=
  KState (Proc 8192 0x8dfbd000 3 ofile0)
         (with_dir (t_dir world0 ++ [("flag"%string, 3)])
            (with_inodes (t_inodes world0 ++ [TInode t_file_type 0 0 1 0 []]) world0)) [].

(** The artifact set of [world1] with the context artifact cut to no
    bytes, with the context artifact gone, and with the flag artifact cut
    to half its entries. *)
Definition state_short : kstate :=
  KState (Proc 4096 0x8dfa0000 5 ofile0) (set_data 5 [] world1) [].

Definition state_missing : kstate :=
  KState (Proc 4096 0x8dfa0000 5 ofile0) (remove_name "context" world1) [].


(** States on the way: after each argument fetch of [sys_open], after the
    five opens of a restore, and at the call of the loader. *)
Definition state_open1 : kstate := final (do_call (Argstr 0) state_open).
Definition state_open2 : kstate := final (do_call (Argint 1) state_open1).




(** The restored processes, without page contents. *)
Definition procs_summary (w : toy) : list (Z * Z * list byte * list Z) :=
  map (fun p => (rp_pid p, rp_sz p, rp_context p, map snd (rp_pages p))) (t_procs w).

End Toy.

(** ** A second small kernel, for the other system calls

    The world of [Toy] with what the other system calls need besides: the
    arguments of the system call by position, the current directory, and a
    meaning for the calls of [call2].  Like [Toy] it is modelled from the
    specification and from the calls the source makes, and serves to run
    the code on concrete inputs; the theorems hold for every kernel. *)

Module Toy2.
Import Toy.

(** Modelled from the spec: the world of [Toy], the integer and string
    arguments of the system call (syscall.c is missing), each with the
    value its fetch returns, and [proc->cwd]. *)
Record utoy := MkUToy {
  u_toy : toy;
  u_ints : list (Z * Z);        (* argint(n), argptr(n): return value, value fetched *)
  u_strs : list (Z * string);   (* argstr(n): return value, string fetched *)
  u_cwd : Z;                    (* proc->cwd *)
  u_far : list Z                (* the inodes that are on device 2 *)
}.

Definition with_toy (t : toy) (w : utoy) : utoy :=
  MkUToy t (u_ints w) (u_strs w) (u_cwd w) (u_far w).
Definition with_cwd (ip : Z) (w : utoy) : utoy :=
  MkUToy (u_toy w) (u_ints w) (u_strs w) ip (u_far w).

Definition lift {R} (f : toy -> toy * R) (w : utoy) : utoy * R :=
  let (t, r) := f (u_toy w) in (with_toy t w, r).

Definition arg {A} (n : Z) (l : list (Z * A)) (d : A) : Z * A :=
  if n <? 0 then (-1, d) else nth (Z.to_nat n) l (-1, d).

(** Modelled from the spec: a directory entry as bytes (fs.h is missing):
    the inode number, 16 bits little-endian, then the name, padded with
    zeros to 16 bytes. *)
Definition dirent (inum : Z) (name : string) : list byte :=
  take 16 ([byte_of_Z inum; byte_of_Z (inum / 2 ^ 8)]
           ++ String.list_byte_of_string name ++ replicate 14 x00).

(** Modelled from the spec: [dirlink] (fs.c is missing).  The root
    directory is the one of [Toy], and refuses a name it holds already;
    the entries of another directory are the content of its inode. *)
Definition dirlink2 (dp : Z) (name : string) (inum : Z) (t : toy) : toy * Z :=
  if dp =? root then
    match assoc name (t_dir t) with
    | Some _ => (t, -1)
    | None => dirlink dp name inum t
    end
  else
    match inode_at dp t with
    | Some i =>
        if ti_type i =? t_dir_type
        then (set_inode dp (TInode (ti_type i) (ti_major i) (ti_minor i) (ti_nlink i)
                                   (ti_cap i) (ti_data i ++ dirent inum name)) t, 0)
        else (t, -1)
    | None => (t, -1)
    end.

(** Modelled from the spec: the handler of [Toy], except that the
    arguments are fetched by position, that [dirlink] is [dirlink2], and
    that an inode may be on a second device (fs.c is missing). *)
Definition toy2_ext (R : Type) (c : call R) (w : utoy) : utoy * R :=
  match c in call R return utoy * R with
  | Argint n => (w, arg n (u_ints w) 0)
  | Argstr n => (w, arg n (u_strs w) EmptyString)
  | Iload I_dev ip =>
      if existsb (Z.eqb ip) (u_far w) then (w, 2) else lift (toy_ext Z (Iload I_dev ip)) w
  | Dirlink dp name inum => lift (dirlink2 dp name inum) w
  | c' => lift (toy_ext _ c') w
  end.

#[export] Instance kernel : Kernel := {|
  world := utoy;
  ext := toy2_ext;
  NOFILE := nofile;
  O_RDONLY := 0; O_WRONLY := 1; O_RDWR := 2; O_CREATE := 0x200;
  T_DIR := t_dir_type; T_FILE := t_file_type; FD_INODE := fd_inode;
  PGSIZE := pgsize;
  PTE_P := 1;
  PTE_ADDR := fun pte => Z.ldiff pte 0xFFF;
  PTE_FLAGS := fun pte => Z.land pte 0xFFF;
  p2v := fun a => a + kernbase;
  sizeof_context := sz_context;
  sizeof_trapframe := sz_trapframe;
  sizeof_proc := sz_proc;
  offsetof_context := 28;
  offsetof_tf := 24;
  uninit := fun n => replicate (Z.to_nat n) xcc
|}.

Definition mapped (a : Z) (t : toy) : bool := existsb (fun e => e.1 =? a) (t_mem t).

(** Position of a name in the root directory, in entries. *)
Fixpoint index_of (name : string) (d : list (string * Z)) (k : Z) : Z :=
  match d with
  | [] => k
  | (n, _) :: d' => if String.eqb name n then k else index_of name d' (k + 1)
  end.

(** Modelled from the spec: [pipealloc] (pipe.c is missing): two files
    from the file table, or -1 and no change. *)
Definition pipealloc (t : toy) : toy * (Z * Z * Z) :=
  let (t1, rf) := filealloc t in
  let (t2, wf) := filealloc t1 in
  if (rf =? 0) || (wf =? 0) then (t, (-1, 0, 0)) else (t2, (0, rf, wf)).

(** Modelled from the spec: [fileread] into, and [filewrite] from, memory
    at a given address (file.c is missing). *)
Definition fileread_at (f addr n : Z) (t : toy) : toy * Z :=
  let '(t1, (r, data)) := fileread f n t in
  if r <? 0 then (t1, r) else (with_mem ((addr, data) :: t_mem t1) t1, r).

Definition filewrite_at (f addr n : Z) (t : toy) : toy * Z :=
  filewrite f (kload addr n t) n t.

(** Modelled from the spec: [readi] and [ip->size] (fs.c is missing):
    the content of an inode is its bytes. *)
Definition readi (ip off n : Z) (t : toy) : Z * list byte :=
  match inode_at ip t with
  | Some i =>
      let data := take (Z.to_nat n) (drop (Z.to_nat off) (ti_data i)) in
      (Z.of_nat (length data), data)
  | None => (-1, [])
  end.

Definition isize (ip : Z) (t : toy) : Z :=
  match inode_at ip t with
  | Some i => Z.of_nat (length (ti_data i))
  | None => 0
  end.

(** Modelled from the spec: [writei] to the root directory (fs.c is
    missing): the entry at the offset is overwritten; an entry of zeros is
    the empty name with inode number 0. *)
Definition writei (dp : Z) (off n : Z) (t : toy) : toy * Z :=
  if dp =? root
  then (with_dir (<[Z.to_nat (off / 16) := (EmptyString, 0)]> (t_dir t)) t, n)
  else (t, -1).

(** Modelled from the spec: the calls of [call2].  [filedup] and [exec]
    only answer; an argument pointer is valid when its fetch succeeds;
    [fetchint] and [fetchstr] succeed at the mapped addresses. *)
Definition toy2_ext2 (R : Type) (c : call2 R) (w : utoy) : utoy * R :=
  match c in call2 R return utoy * R with
  | Filedup f => (w, f)
  | Filestat f _ => (w, match file_at f (u_toy w) with Some _ => 0 | None => -1 end)
  | Fileread_at f addr n => lift (fileread_at f addr n) w
  | Filewrite_at f addr n => lift (filewrite_at f addr n) w
  | Pipealloc => lift pipealloc w
  | Argptr n _ => (w, arg n (u_ints w) 0)
  | Fetchint a =>
      (w, if mapped a (u_toy w) then (0, le32_decode (kload a 4 (u_toy w))) else (-1, 0))
  | Fetchstr a =>
      (w, if mapped a (u_toy w) then Z.of_nat (length (mem_find a (t_mem (u_toy w)))) else -1)
  | Exec _ argv => (w, Z.of_nat (length argv))
  | Dirlookup_off dp name =>
      (w, (dirlookup dp name (u_toy w), 16 * index_of name (t_dir (u_toy w)) 0))
  | Readi ip off n => (w, readi ip off n (u_toy w))
  | Writei dp _ off n => lift (writei dp off n) w
  | Isize ip => (w, isize ip (u_toy w))
  | Cwd_load => (w, u_cwd w)
  | Cwd_store ip => (with_cwd ip w, tt)
  end.

(** Modelled from the spec: the constants of stat.h, param.h and fs.h
    (all missing), with the values of stock xv6; names are compared in
    full. *)
#[export] Instance kernel2 : @Kernel2 kernel := {|
  ext2 := toy2_ext2;
  T_DEV := 3;
  MAXARG := 32;
  sizeof_dirent := 16;
  sizeof_stat := 20;
  namecmp := fun a b => if String.eqb a b then 0 else 1
|}.

(** *** Inputs *)

(** The process of [state0] in the world [t], with the given arguments. *)
Definition call_in (t : toy) (ints : list (Z * Z)) (strs : list (Z * string))
    (tbl : list Z) : @kstate kernel :=
  KState (Proc 8192 0x8dfbd000 3 tbl) (MkUToy t ints strs root []) [].

(** [state0] with every descriptor taken. *)
Definition state_full : @kstate Toy.kernel :=
  @KState Toy.kernel (Proc 8192 0x8dfbd000 3 (replicate 16 1)) world0 [].

(** [world0] with an entry "." of the root directory for the root itself. *)
Definition world_dot : toy := with_dir ((("."%string), root) :: t_dir world0) world0.

Definition state_dot : @kstate Toy.kernel :=
  @KState Toy.kernel (Proc 8192 0x8dfbd000 3 ofile0) world_dot [].

(** [close(3)] and [dup(3)] with descriptor 3 on file 2; an open followed
    by [close(3)]. *)
Definition state_close : @kstate kernel :=
  call_in world0 [(0, 3)] [] [1; 1; 1; 2; 0; 0; 0; 0; 0; 0; 0; 0; 0; 0; 0; 0].

Definition state_closed : @kstate kernel := final (sys_close state_close).

Definition state_reopen : @kstate kernel := call_in world0 [(0, 3)] [] ofile0.

Definition state_reopened : @kstate kernel := final (the_opener "pages" 0x202 state_reopen).


Definition state_link_dir : @kstate kernel :=
  call_in world_dot [] [(1, "."%string); (1, "x"%string)] ofile0.

Definition state_link_far : @kstate kernel :=
  KState (Proc 8192 0x8dfbd000 3 ofile0)
         (MkUToy world0 [] [(7, "console"%string); (4, "cons"%string)] root [2]) [].

(** [mkdir("console")], [mkdir("sub")] and [mknod("dev1", 65537, 2)]. *)
Definition state_mkdir_old : @kstate kernel :=
  call_in world0 [] [(7, "console"%string)] ofile0.


Definition state_mknod : @kstate kernel :=
  call_in world0 [(-1, 0); (0, 65537); (0, 2)] [(4, "dev1"%string)] ofile0.

(** [pipe(0x1000)] with one free descriptor, and with thirteen. *)
Definition state_pipe_tight : @kstate kernel :=
  call_in world0 [(0, 0x1000)] [] (replicate 15 1 ++ [0]).

Definition state_pipe : @kstate kernel := call_in world0 [(0, 0x1000)] [] ofile0.

(** User memory with the strings "ls" and "x" and, at 0x2000, an array of
    their addresses closed by a null word; the same with 32 non-null
    words at 0x4000.  [exec("sh", 0x2000)] and [exec("sh", 0x4000)]. *)
Definition user_mem : list (Z * list byte) :=
  [(0x2000, le32 0x3000); (0x2004, le32 0x3010); (0x2008, le32 0);
   (0x3000, [x6c; x73; x00]); (0x3010, [x78; x00])]
  ++ map (fun i => (0x4000 + 4 * Z.of_nat i, le32 0x3000)) (seq 0 32).

Definition world_user : toy :=
  MkToy (t_dir world0) (t_inodes world0) (t_files world0) user_mem []
        (t_tf world0) (t_context world0) (t_args world0) (t_free world0)
        (t_nextpid world0) (t_procs world0).

Definition state_exec : @kstate kernel :=
  call_in world_user [(-1, 0); (0, 0x2000)] [(2, "sh"%string)] ofile0.

Definition state_exec_long : @kstate kernel :=
  call_in world_user [(-1, 0); (0, 0x4000)] [(2, "sh"%string)] ofile0.

(** A directory, inode 3, of four entries: the two dots, a free entry and
    an entry for inode 7. *)
Definition dir_bytes : list byte :=
  dirent 3 "." ++ dirent 1 ".." ++ dirent 0 "" ++ dirent 7 "a".

Definition world_sub : toy :=
  with_dir (t_dir world0 ++ [("sub"%string, 3)])
    (with_inodes (t_inodes world0 ++ [TInode t_dir_type 0 0 1 71680 dir_bytes]) world0).

Definition state_sub : @kstate kernel := call_in world_sub [] [] ofile0.

(** [unlink(".")] and [unlink("console")]. *)
Definition state_unlink_dot : @kstate kernel := call_in world0 [] [(1, "."%string)] ofile0.


End Toy2.


(** * Properties *)

Section Proofs.
Context {K : Kernel}.

(** ** Vocabulary of the properties *)

(** [wp m s Q]: the outcome of [m] started in [s] satisfies [Q]. *)
Definition wp {A} (m : M A) (s : kstate) (Q : outcome A -> Prop) : Prop := Q (m s).

(** What [Q] becomes in front of a continuation [k]. *)
Definition then_ {A B} (k : A -> M B) (Q : outcome B -> Prop) (o : outcome A) : Prop :=
  match o with
  | Ret a s' => wp (k a) s' Q
  | Exited s' => Q (Exited s')
  | Panicked msg s' => Q (Panicked msg s')
  | Undef s' => Q (Undef s')
  | Diverged s' => Q (Diverged s')
  end.

Definition is_kstore (e : event) : bool :=
  match e with
  | @Ev _ c _ => match c with Kstore _ _ => true | _ => false end
  end.

Definition is_fileclose (e : event) : bool :=
  match e with
  | @Ev _ c _ => match c with Fileclose _ => true | _ => false end
  end.

(** Neither a store to kernel memory nor the release of a file. *)
Definition quiet (e : event) : bool := negb (is_kstore e) && negb (is_fileclose e).

(** The trace is a faithful log: [replays w l w'] when the calls of [l],
    made in this order from the world [w], return the values logged and
    end in [w']. *)
Fixpoint replays (w : world) (l : list event) (w' : world) : Prop :=
  match l with
  | [] => w' = w
  | Ev c r :: l' => exists w1, ext c w = (w1, r) /\ replays w1 l' w'
  end.

(** [s'] extends the log of [s] by the events [l]. *)
Definition logged (l : list event) (s s' : kstate) : Prop :=
  trace s' = trace s ++ l /\ replays (kworld s) l (kworld s').

(** ... and the process is untouched. *)
Definition continues (l : list event) (s s' : kstate) : Prop :=
  kproc s' = kproc s /\ logged l s s'.

(** What [fdalloc] may do: fail and change nothing, or take a free slot. *)
Definition fdalloc_post (f : Z) (s : kstate) (o : outcome Z) : Prop :=
  match o with
  | Ret fd s' =>
      (fd = -1 /\ s' = s) \/
      (0 <= fd < NOFILE /\ ofile (kproc s) !! Z.to_nat fd = Some 0 /\
       s' = set_ofile (<[Z.to_nat fd := f]> (ofile (kproc s))) s)
  | Undef s' => s' = s
  | _ => False
  end.

Definition create_panics : list string :=
  ["create: ialloc"; "create dots"; "create: dirlink"]%string.

(** [create] only makes quiet calls and leaves the process alone. *)
Definition create_post {A} (s : kstate) (o : outcome A) : Prop :=
  match o with
  | Ret _ s' => exists l, continues l s s' /\ forallb quiet l = true
  | Panicked msg _ => In msg create_panics
  | _ => False
  end.

(** The opener fails with -1 and an untouched process, or returns a
    descriptor that was free and now holds a non-null file; on that path
    nothing is stored to memory and no file is released. *)
Definition opener_post (s : kstate) (o : outcome Z) : Prop :=
  match o with
  | Ret fd s' =>
      exists l, logged l s s' /\
      ((fd = -1 /\ kproc s' = kproc s) \/
       (0 <= fd < NOFILE /\ forallb quiet l = true /\
        exists f, f <> 0 /\ ofile (kproc s) !! Z.to_nat fd = Some 0 /\
                  kproc s' = kproc (set_ofile (<[Z.to_nat fd := f]> (ofile (kproc s))) s)))
  | Panicked msg _ => In msg create_panics
  | Undef _ => True
  | _ => False
  end.

(** The two halves of the body shared, as text, by [sys_open] and
    [the_opener]: finding the inode, then allocating file and descriptor. *)
Definition open_inode (path : string) (omode : Z) : M Z :=
  if c_true (Z.land omode O_CREATE) then
    ip ← create path T_FILE 0 0;
    if ip =? 0 then do_call End_op;; mret 0 else mret ip
  else
    ip ← do_call (Namei path);
    if ip =? 0 then do_call End_op;; mret 0 else
    do_call (Ilock ip);;
    ip_type ← do_call (Iload I_type ip);
    if (ip_type =? T_DIR) && negb (omode =? O_RDONLY) then
      do_call (Iunlockput ip);;
      do_call End_op;;
      mret 0
    else mret ip.

Definition open_file (omode ip : Z) : M Z :=
  f ← do_call Filealloc;
  fd ← (if f =? 0 then mret (-1) else fdalloc f);
  if (f =? 0) || (fd <? 0) then
    (if c_true f then do_call (Fileclose f) else mret tt);;
    do_call (Iunlockput ip);;
    do_call End_op;;
    mret (-1)
  else
  do_call (Iunlock ip);;
  do_call End_op;;
  do_call (Fstore F_type f FD_INODE);;
  do_call (Fstore F_ip f ip);;
  do_call (Fstore F_off f 0);;
  do_call (Fstore F_readable f (c_bool (negb (c_true (Z.land omode O_WRONLY)))));;
  do_call (Fstore F_writable f
             (c_bool (c_true (Z.land omode O_WRONLY) || c_true (Z.land omode O_RDWR))));;
  mret fd.

(** Allocating the file and the descriptor. *)
Definition open_file_post (s : kstate) (o : outcome Z) : Prop :=
  match o with
  | Ret fd s' =>
      exists l, logged l s s' /\
      ((fd = -1 /\ kproc s' = kproc s) \/
       (0 <= fd < NOFILE /\ forallb quiet l = true /\
        exists f, f <> 0 /\ ofile (kproc s) !! Z.to_nat fd = Some 0 /\
                  kproc s' = kproc (set_ofile (<[Z.to_nat fd := f]> (ofile (kproc s))) s)))
  | Undef _ => True
  | _ => False
  end.



































(** The (handle, bytes asked, value returned) of every read and of every
    write of a log. *)
Definition read_counts (l : list event) : list (Z * Z * Z) :=
  flat_map (fun e =>
    match e with
    | @Ev _ c r =>
        match c in call R return R -> list (Z * Z * Z) with
        | Fileread f n => fun r => [(f, n, r.1)]
        | _ => fun _ => []
        end r
    end) l.

Definition write_counts (l : list event) : list (Z * Z * Z) :=
  flat_map (fun e =>
    match e with
    | @Ev _ c r =>
        match c in call R return R -> list (Z * Z * Z) with
        | Filewrite f _ n => fun r => [(f, n, r)]
        | _ => fun _ => []
        end r
    end) l.


(** ** Vocabulary for the other system calls *)

Context {K2 : Kernel2}.

(** [fdalloc] scanning from slot [lo]: it fails when every slot from [lo]
    on is taken, takes the first free one otherwise, and leaves the table
    only when the table has fewer than NOFILE entries. *)
Definition lowest_post (f lo : Z) (s : kstate) (o : outcome Z) : Prop :=
  match o with
  | Ret fd s' =>
      (fd = -1 /\ s' = s /\
       forall j, lo <= j < NOFILE -> ofile (kproc s) !! Z.to_nat j <> Some 0) \/
      (lo <= fd < NOFILE /\ ofile (kproc s) !! Z.to_nat fd = Some 0 /\
       (forall j, lo <= j < fd -> ofile (kproc s) !! Z.to_nat j <> Some 0) /\
       s' = set_ofile (<[Z.to_nat fd := f]> (ofile (kproc s))) s)
  | Undef s' => s' = s /\ Z.of_nat (length (ofile (kproc s))) < NOFILE
  | _ => False
  end.

(** What [argfd] returns: 0 with a descriptor inside the table whose slot
    holds a file, or -1 with the reason; it reads past the table only when
    the table is shorter than NOFILE. *)
Definition argfd_post (n : Z) (s : kstate) (o : outcome (Z * Z * Z)) : Prop :=
  match o with
  | Ret (r, fd, f) s' =>
      exists ra v, continues [Ev (Argint n) (ra, v)] s s' /\
        ((r = 0 /\ 0 <= ra /\ fd = v /\ 0 <= v < NOFILE /\ f <> 0 /\
          ofile (kproc s) !! Z.to_nat v = Some f) \/
         (r = -1 /\
          (ra < 0 \/ v < 0 \/ NOFILE <= v \/ ofile (kproc s) !! Z.to_nat v = Some 0)))
  | Undef s' =>
      exists ra v, continues [Ev (Argint n) (ra, v)] s s' /\
        0 <= ra /\ 0 <= v < NOFILE /\ ofile (kproc s) !! Z.to_nat v = None
  | _ => False
  end.

(** What [sys_close] does: it clears the slot of a valid descriptor and
    releases the file found there, or returns -1 having fetched its
    argument only. *)
Definition close_post (s : kstate) (o : outcome Z) : Prop :=
  match o with
  | Ret r s' =>
      exists ra fd,
        (r = 0 /\ 0 <= ra /\ 0 <= fd < NOFILE /\
         exists f, f <> 0 /\ ofile (kproc s) !! Z.to_nat fd = Some f /\
           kproc s' = kproc (set_ofile (<[Z.to_nat fd := 0]> (ofile (kproc s))) s) /\
           logged [Ev (Argint 0) (ra, fd); Ev (Fileclose f) tt] s s') \/
        (r = -1 /\
         (ra < 0 \/ fd < 0 \/ NOFILE <= fd \/ ofile (kproc s) !! Z.to_nat fd = Some 0) /\
         continues [Ev (Argint 0) (ra, fd)] s s')
  | Undef s' =>
      exists ra v, continues [Ev (Argint 0) (ra, v)] s s' /\
        0 <= ra /\ 0 <= v < NOFILE /\ ofile (kproc s) !! Z.to_nat v = None
  | _ => False
  end.

(** Sum of a weight over the events of a log. *)
Definition tally (wt : event -> Z) (l : list event) : Z :=
  fold_right (fun e acc => wt e + acc) 0 l.

Definition one_if (b : bool) : Z := if b then 1 else 0.

(** The calls [begin_op()] and [end_op()]. *)
Definition begin_wt (e : event) : Z :=
  match e with
  | @Ev _ c _ => match c with Begin_op => 1 | _ => 0 end
  end.

Definition end_wt (e : event) : Z :=
  match e with
  | @Ev _ c _ => match c with End_op => 1 | _ => 0 end
  end.

(** [ilock(x)] counts +1, [iunlock(x)] and [iunlockput(x)] count -1. *)
Definition lock_wt (x : Z) (e : event) : Z :=
  match e with
  | @Ev _ c _ =>
      match c with
      | Ilock ip => one_if (ip =? x)
      | Iunlock ip | Iunlockput ip => - one_if (ip =? x)
      | _ => 0
      end
  end.

(** Locks on the inode [x] taken along [l] and not released. *)
Definition held (x : Z) (l : list event) : Z := tally (lock_wt x) l.

(** A [filealloc()] that returned a file counts +1, a [fileclose] -1. *)
Definition file_wt (e : event) : Z :=
  match e with
  | @Ev _ c r =>
      match c in call R return R -> Z with
      | Filealloc => fun r => one_if (negb (r =? 0))
      | Fileclose _ => fun _ => -1
      | _ => fun _ => 0
      end r
  end.

(** The calls that change the file system: allocation of an inode, a
    store to an inode field, [iupdate], a new directory entry. *)
Definition changes_fs (e : event) : bool :=
  match e with
  | @Ev _ c _ =>
      match c with
      | Ialloc _ _ | Istore _ _ _ | Iupdate _ | Dirlink _ _ _ => true
      | _ => false
      end
  end.

(** The four balances of a log. *)
Definition ledger (l : list event) (b e f : Z) (h : Z -> Z) : Prop :=
  tally begin_wt l = b /\ tally end_wt l = e /\ tally file_wt l = f /\
  forall x, held x l = h x.

(** [create] opens and closes no transaction and no file; it returns 0
    with every lock released, or an inode that is locked once. *)
Definition create_ledger_post (s : kstate) (o : outcome Z) : Prop :=
  match o with
  | Ret ip s' =>
      exists l, logged l s s' /\
        ledger l 0 0 0 (fun x => if ip =? 0 then 0 else one_if (ip =? x))
  | _ => True
  end.

(** The first half of an open ends the transaction when it fails. *)
Definition open_inode_ledger_post (s : kstate) (o : outcome Z) : Prop :=
  match o with
  | Ret ip s' =>
      exists l, logged l s s' /\
        ledger l 0 (one_if (ip =? 0)) 0 (fun x => if ip =? 0 then 0 else one_if (ip =? x))
  | _ => True
  end.

Definition open_file_ledger_post (ip : Z) (s : kstate) (o : outcome Z) : Prop :=
  match o with
  | Ret fd s' =>
      exists l, logged l s s' /\
        ledger l 0 1 (one_if (0 <=? fd)) (fun x => - one_if (ip =? x))
  | _ => True
  end.

(** What every return of an open has done: [b] transactions begun and as
    many ended, no inode lock left, and a file left allocated exactly when
    a descriptor is returned. *)
Definition open_ledger_post (b_low : Z) (s : kstate) (o : outcome Z) : Prop :=
  match o with
  | Ret fd s' =>
      exists l b, logged l s s' /\ b_low <= b <= 1 /\
        (0 <= fd -> b = 1) /\
        ledger l b b (one_if (0 <=? fd)) (fun _ => 0)
  | _ => True
  end.

(** What a log says of the directory and of the inodes: the lookups with
    their results, the inodes allocated, the stores to inode fields, the
    directory entries made with their results, and the inode types and
    link counts read. *)
Definition lookups (l : list event) : list (Z * string * Z) :=
  flat_map (fun e =>
    match e with
    | @Ev _ c r =>
        match c in call R return R -> list (Z * string * Z) with
        | Dirlookup dp name => fun r => [(dp, name, r)]
        | _ => fun _ => []
        end r
    end) l.

Definition iallocs (l : list event) : list (Z * Z * Z) :=
  flat_map (fun e =>
    match e with
    | @Ev _ c r =>
        match c in call R return R -> list (Z * Z * Z) with
        | Ialloc dev type => fun r => [(dev, type, r)]
        | _ => fun _ => []
        end r
    end) l.

Definition istores (l : list event) : list (ifield * Z * Z) :=
  flat_map (fun e =>
    match e with
    | @Ev _ c _ => match c with Istore fld ip v => [(fld, ip, v)] | _ => [] end
    end) l.

Definition dirlinks (l : list event) : list (Z * string * Z * Z) :=
  flat_map (fun e =>
    match e with
    | @Ev _ c r =>
        match c in call R return R -> list (Z * string * Z * Z) with
        | Dirlink dp name inum => fun r => [(dp, name, inum, r)]
        | _ => fun _ => []
        end r
    end) l.

Definition iloads (l : list event) : list (ifield * Z * Z) :=
  flat_map (fun e =>
    match e with
    | @Ev _ c r =>
        match c in call R return R -> list (ifield * Z * Z) with
        | Iload fld ip => fun r => [(fld, ip, r)]
        | _ => fun _ => []
        end r
    end) l.

Definition is_type (x : ifield * Z * Z) : bool :=
  match x.1.1 with I_type => true | _ => false end.

Definition is_nlink (x : ifield * Z * Z) : bool :=
  match x.1.1 with I_nlink => true | _ => false end.

Definition is_inum (x : ifield * Z * Z) : bool :=
  match x.1.1 with I_inum => true | _ => false end.

(** [create] when the name exists: nothing is changed; the inode found is
    returned only to a caller that asked for a T_FILE and found one. *)
Definition create_found (type r : Z) (l : list event) : Prop :=
  forall dp name ip, lookups l = [(dp, name, ip)] -> ip <> 0 ->
    forallb (fun e => negb (changes_fs e)) l = true /\
    ((r = ip /\ type = T_FILE /\ List.filter is_type (iloads l) = [(I_type, ip, T_FILE)]) \/
     (r = 0 /\
      (type <> T_FILE \/
       exists t, t <> T_FILE /\ List.filter is_type (iloads l) = [(I_type, ip, t)]))).

(** [create] when the name is absent: one inode of the type asked for is
    allocated and returned; it gets the major and minor numbers asked for
    and the link count 1, and is entered in the parent under the name,
    with the inode number read from it.  A directory is first given its
    two dot entries, and the link count of the parent is raised by one. *)
Definition create_made (type major minor r : Z) (l : list event) : Prop :=
  forall dp name, lookups l = [(dp, name, 0)] ->
    r <> 0 /\
    (exists dev, iallocs l = [(dev, type, r)]) /\
    exists inum res,
      (if type =? T_DIR then
         exists nl i1 r1 i2 r2,
           List.filter is_nlink (iloads l) = [(I_nlink, dp, nl)] /\
           istores l = [(I_major, r, major); (I_minor, r, minor); (I_nlink, r, 1);
                        (I_nlink, dp, nl + 1)] /\
           List.filter is_inum (iloads l) =
             [(I_inum, r, i1); (I_inum, dp, i2); (I_inum, r, inum)] /\
           dirlinks l = [(r, "."%string, i1, r1); (r, ".."%string, i2, r2);
                         (dp, name, inum, res)] /\
           0 <= r1 /\ 0 <= r2
       else
         istores l = [(I_major, r, major); (I_minor, r, minor); (I_nlink, r, 1)] /\
         List.filter is_inum (iloads l) = [(I_inum, r, inum)] /\
         dirlinks l = [(dp, name, inum, res)]) /\
      0 <= res.

Definition create_facts_post (type major minor : Z) (s : kstate) (o : outcome Z) : Prop :=
  match o with
  | Ret r s' =>
      exists l, logged l s s' /\ create_found type r l /\ create_made type major minor r l
  | _ => True
  end.

(** The log of an open that is refused because the path names a directory
    and the mode is not O_RDONLY. *)
Definition refused_dir (p : string) (ip : Z) : list event :=
  [Ev Begin_op tt; Ev (Namei p) ip; Ev (Ilock ip) tt; Ev (Iload I_type ip) T_DIR;
   Ev (Iunlockput ip) tt; Ev End_op tt].

(** The end of the log of a successful open: the file [f] is allocated,
    the inode [ip] unlocked, the transaction ended and the file set up. *)
Definition installed (om f ip : Z) : list event :=
  [Ev Filealloc f; Ev (Iunlock ip) tt; Ev End_op tt;
   Ev (Fstore F_type f FD_INODE) tt;
   Ev (Fstore F_ip f ip) tt;
   Ev (Fstore F_off f 0) tt;
   Ev (Fstore F_readable f (c_bool (negb (c_true (Z.land om O_WRONLY))))) tt;
   Ev (Fstore F_writable f
         (c_bool (c_true (Z.land om O_WRONLY) || c_true (Z.land om O_RDWR)))) tt].

(** The first half of an open without O_CREATE: no inode, a directory
    refused, or an inode locked after its type was read. *)
Definition open_inode_facts_post (p : string) (om : Z) (s : kstate) (o : outcome Z) : Prop :=
  match o with
  | Ret ip s' =>
      exists l, logged l s s' /\ kproc s' = kproc s /\
        (Z.land om O_CREATE = 0 ->
         (ip = 0 /\ l = [Ev (Namei p) 0; Ev End_op tt]) \/
         (ip = 0 /\ om <> O_RDONLY /\
          exists ip', l = [Ev (Namei p) ip'; Ev (Ilock ip') tt; Ev (Iload I_type ip') T_DIR;
                           Ev (Iunlockput ip') tt; Ev End_op tt]) \/
         (ip <> 0 /\
          exists t, (t <> T_DIR \/ om = O_RDONLY) /\
                    l = [Ev (Namei p) ip; Ev (Ilock ip) tt; Ev (Iload I_type ip) t]))
  | _ => True
  end.

(** The second half reads no inode field; when it succeeds, the slot
    returned holds the file it allocated and set up. *)
Definition open_file_facts_post (om ip : Z) (s : kstate) (o : outcome Z) : Prop :=
  match o with
  | Ret fd s' =>
      exists l, logged l s s' /\ iloads l = [] /\
        ((fd = -1 /\ kproc s' = kproc s) \/
         (0 <= fd /\ exists f, f <> 0 /\ ofile (kproc s') !! Z.to_nat fd = Some f /\
                               l = installed om f ip))
  | _ => True
  end.

Definition opener_facts_post (p : string) (om : Z) (s : kstate) (o : outcome Z) : Prop :=
  match o with
  | Ret fd s' =>
      exists l, logged l s s' /\
        (forall ip, Z.land om O_CREATE = 0 -> om <> O_RDONLY ->
                    List.filter is_type (iloads l) = [(I_type, ip, T_DIR)] ->
                    fd = -1 /\ kproc s' = kproc s /\ l = refused_dir p ip) /\
        (fd <> -1 ->
         exists l0 f ip, f <> 0 /\ ip <> 0 /\
           ofile (kproc s') !! Z.to_nat fd = Some f /\ l = l0 ++ installed om f ip)
  | _ => True
  end.

Definition is_dev (x : ifield * Z * Z) : bool :=
  match x.1.1 with I_dev => true | _ => false end.

(** What a run of [sys_link] that returns [r] has logged. *)
Definition link_facts (r : Z) (l : list event) : Prop :=
  (r = 0 \/ r = -1) /\
  (exists b, 0 <= b <= 1 /\ ledger l b b 0 (fun _ => 0)) /\
  (r = 0 ->
   exists ip n dp name inum res,
     List.filter is_nlink (iloads l) = [(I_nlink, ip, n)] /\
     istores l = [(I_nlink, ip, n + 1)] /\
     List.filter is_inum (iloads l) = [(I_inum, ip, inum)] /\
     dirlinks l = [(dp, name, inum, res)] /\ 0 <= res) /\
  (r = -1 ->
   (istores l = [] /\ dirlinks l = []) \/
   exists ip n m,
     List.filter is_nlink (iloads l) = [(I_nlink, ip, n); (I_nlink, ip, m)] /\
     istores l = [(I_nlink, ip, n + 1); (I_nlink, ip, m - 1)] /\
     (dirlinks l = [] \/
      exists dp name inum res, dirlinks l = [(dp, name, inum, res)] /\ res < 0)) /\
  (forall ip, List.filter is_type (iloads l) = [(I_type, ip, T_DIR)] ->
     r = -1 /\ forallb (fun e => negb (changes_fs e)) l = true) /\
  (forall dp ip d1 d2,
     List.filter is_dev (iloads l) = [(I_dev, dp, d1); (I_dev, ip, d2)] -> d1 <> d2 ->
     r = -1 /\ dirlinks l = []).

Definition link_post (s : kstate) (o : outcome Z) : Prop :=
  match o with
  | Ret r s' => exists l, continues l s s' /\ link_facts r l
  | _ => False
  end.

(** Everything known of a run of [create]. *)
Definition create_all_post (type major minor : Z) (s : kstate) (o : outcome Z) : Prop :=
  match o with
  | Ret r s' =>
      exists l, continues l s s' /\
        ledger l 0 0 0 (fun x => if r =? 0 then 0 else one_if (r =? x)) /\
        create_found type r l /\ create_made type major minor r l
  | Panicked msg _ => In msg create_panics
  | _ => False
  end.

(** A log without a call to the file system proper. *)
Definition plain (l : list event) : Prop :=
  lookups l = [] /\ iallocs l = [] /\ istores l = [] /\ dirlinks l = [] /\
  iloads l = [] /\ forallb (fun e => negb (changes_fs e)) l = true.

(** What a run of [sys_mkdir] or [sys_mknod] that returns [r] has logged,
    [type], [major] and [minor] being what it passed to [create]. *)
Definition mk_facts (type major minor r : Z) (l : list event) : Prop :=
  (r = 0 \/ r = -1) /\
  ledger l 1 1 0 (fun _ => 0) /\
  (forall dp name ip, lookups l = [(dp, name, ip)] -> ip <> 0 -> type <> T_FILE ->
     r = -1 /\ forallb (fun e => negb (changes_fs e)) l = true) /\
  (forall dp name, lookups l = [(dp, name, 0)] ->
     r = 0 /\ exists ip, create_made type major minor ip l).

(** The end shared by [sys_mkdir] and [sys_mknod], from the test of what
    [create] returned. *)
Definition mk_tail (ip : Z) : M Z :=
  if ip =? 0 then
    do_call End_op;;
    mret (-1)
  else
  do_call (Iunlockput ip);;
  do_call End_op;;
  mret 0.

Definition mk_tail_post (type major minor : Z) (pre l : list event) (s : kstate)
    (o : outcome Z) : Prop :=
  match o with
  | Ret r s' =>
      exists post, continues (pre ++ l ++ post) s s' /\
                   mk_facts type major minor r (pre ++ l ++ post)
  | _ => False
  end.

Definition mkdir_post (s : kstate) (o : outcome Z) : Prop :=
  match o with
  | Ret r s' => exists l, continues l s s' /\ mk_facts T_DIR 0 0 r l
  | Panicked msg _ => In msg create_panics
  | _ => False
  end.

(** [sys_mknod] fails on an argument before any lookup, or passes to
    [create] the major and minor numbers it fetched, as shorts. *)
Definition mknod_post (s : kstate) (o : outcome Z) : Prop :=
  match o with
  | Ret r s' =>
      exists l, continues l s s' /\
        ((r = -1 /\ lookups l = [] /\ ledger l 1 1 0 (fun _ => 0)) \/
         exists r0 path r1 major r2 minor rest,
           l = [Ev Begin_op tt; Ev (Argstr 0) (r0, path); Ev (Argint 1) (r1, major);
                Ev (Argint 2) (r2, minor)] ++ rest /\
           mk_facts T_DEV (to_short major) (to_short minor) r l)
  | Panicked msg _ => In msg create_panics
  | _ => False
  end.

(** A return with one transaction begun and ended, no lock and no file
    left, or one of the panics of [create]. *)
Definition settled_post (s : kstate) (o : outcome Z) : Prop :=
  match o with
  | Ret r s' =>
      (r = 0 \/ r = -1) /\
      exists l, continues l s s' /\
        tally begin_wt l = 1 /\ tally end_wt l = 1 /\ tally file_wt l = 0 /\
        forall x, held x l = 0
  | Panicked msg _ => In msg create_panics
  | _ => False
  end.

(** [sys_dup]: the descriptor returned is the lowest free one and holds
    the file of the descriptor passed; a failure changes nothing and does
    not reach [filedup]. *)
Definition dup_post (s : kstate) (o : outcome Z) : Prop :=
  match o with
  | Ret r s' =>
      exists ra old w1,
        ext (Argint 0) (kworld s) = (w1, (ra, old)) /\
        trace s' = trace s ++ [Ev (Argint 0) (ra, old)] /\
        ((r = -1 /\ kproc s' = kproc s /\ kworld s' = w1) \/
         (0 <= r < NOFILE /\ 0 <= old < NOFILE /\
          exists f, f <> 0 /\
            ofile (kproc s) !! Z.to_nat old = Some f /\
            ofile (kproc s) !! Z.to_nat r = Some 0 /\
            (forall j, 0 <= j < r -> ofile (kproc s) !! Z.to_nat j <> Some 0) /\
            kproc s' = kproc (set_ofile (<[Z.to_nat r := f]> (ofile (kproc s))) s) /\
            kworld s' = (ext2 (Filedup f) w1).1))
  | Undef _ => Z.of_nat (length (ofile (kproc s))) < NOFILE
  | _ => False
  end.

(** [sys_pipe]: a failure leaves the process as it was and, once the pipe
    is allocated, closes both its ends; a success takes two free slots
    and stores their numbers at the address passed. *)
Definition pipe_post (s : kstate) (o : outcome Z) : Prop :=
  match o with
  | Ret r s' =>
      exists ra p w1, ext2 (Argptr 0 (2 * 4)) (kworld s) = (w1, (ra, p)) /\
        ((r = -1 /\ ra < 0 /\ s' = KState (kproc s) w1 (trace s)) \/
         exists rp rf wf w2, 0 <= ra /\ ext2 Pipealloc w1 = (w2, (rp, rf, wf)) /\
           ((r = -1 /\ rp < 0 /\ s' = KState (kproc s) w2 (trace s)) \/
            (r = -1 /\ 0 <= rp /\ kproc s' = kproc s /\
             logged [Ev (Fileclose rf) tt; Ev (Fileclose wf) tt]
                    (KState (kproc s) w2 (trace s)) s') \/
            (r = 0 /\ 0 <= rp /\
             exists fd0 fd1, 0 <= fd0 < NOFILE /\ 0 <= fd1 < NOFILE /\
               ofile (kproc s) !! Z.to_nat fd0 = Some 0 /\
               (forall j, 0 <= j < fd0 -> ofile (kproc s) !! Z.to_nat j <> Some 0) /\
               <[Z.to_nat fd0 := rf]> (ofile (kproc s)) !! Z.to_nat fd1 = Some 0 /\
               (forall j, 0 <= j < fd1 ->
                  <[Z.to_nat fd0 := rf]> (ofile (kproc s)) !! Z.to_nat j <> Some 0) /\
               kproc s' = kproc (set_ofile (<[Z.to_nat fd1 := wf]>
                                   (<[Z.to_nat fd0 := rf]> (ofile (kproc s)))) s) /\
               logged [Ev (Kstore p (le32 fd0)) tt; Ev (Kstore (p + 4) (le32 fd1)) tt]
                      (KState (kproc s) w2 (trace s)) s')))
  | Undef _ => Z.of_nat (length (ofile (kproc s))) < NOFILE
  | _ => False
  end.

(** The logged calls of a successful [sys_chdir]. *)
Definition chdir_events (r0 : Z) (path : string) (ip cwd : Z) : list event :=
  [Ev Begin_op tt; Ev (Argstr 0) (r0, path); Ev (Namei path) ip; Ev (Ilock ip) tt;
   Ev (Iload I_type ip) T_DIR; Ev (Iunlock ip) tt; Ev (Iput cwd) tt; Ev End_op tt].

(** [sys_chdir]: a failure makes logged calls only, so [proc->cwd] is not
    assigned; a success has found a T_DIR, puts the old current directory
    and assigns the new one last. *)
Definition chdir_post (s : kstate) (o : outcome Z) : Prop :=
  match o with
  | Ret r s' =>
      kproc s' = kproc s /\
      exists l, trace s' = trace s ++ l /\ ledger l 1 1 0 (fun _ => 0) /\
        ((r = -1 /\ replays (kworld s) l (kworld s') /\
          forall ip, List.filter is_type (iloads l) <> [(I_type, ip, T_DIR)]) \/
         (r = 0 /\
          exists r0 path ip cwd wa wb wc,
            0 <= r0 /\ ip <> 0 /\ l = chdir_events r0 path ip cwd /\
            replays (kworld s) (take 6 l) wa /\
            ext2 Cwd_load wa = (wb, cwd) /\
            replays wb (drop 6 l) wc /\
            ext2 (Cwd_store ip) wc = (kworld s', tt)))
  | _ => False
  end.

(** User memory as [fetchint] and [fetchstr] show it in the world [w],
    when fetching leaves the world as it is: the word at an address, a
    string at an address, and an array of non-null string pointers. *)
Definition word_at (w : world) (a v : Z) : Prop :=
  exists r x, ext2 (Fetchint a) w = (w, (r, x)) /\ 0 <= r /\ wrap32 x = v.

Definition string_at (w : world) (p : Z) : Prop :=
  exists len, ext2 (Fetchstr p) w = (w, len) /\ 0 <= len.

Definition strings_at (w : world) (uargv : Z) (ptrs : list Z) : Prop :=
  forall (k : nat) p, ptrs !! k = Some p ->
    p <> 0 /\ word_at w (wrap32 (uargv + 4 * Z.of_nat k)) p /\ string_at w p.

(** A directory as [readi] and [ip->size] show it in the world [w], when
    reading leaves the world as it is: the inode number of the entry at an
    offset, and the inode numbers of consecutive entries. *)
Definition entry_at (w : world) (dp off inum : Z) : Prop :=
  exists data, ext2 (Readi dp off sizeof_dirent) w = (w, (sizeof_dirent, data)) /\
               field16 0 (fill (uninit sizeof_dirent) data) = inum.

Definition entries_at (w : world) (dp off : Z) (inums : list Z) : Prop :=
  forall (k : nat) inum, inums !! k = Some inum ->
    entry_at w dp (off + sizeof_dirent * Z.of_nat k) inum.




(** The logged calls of a [sys_unlink] that refuses the name. *)
Definition unlink_refused (r0 : Z) (path : string) (dp : Z) (name : string) : list event :=
  [Ev (Argstr 0) (r0, path); Ev Begin_op tt; Ev (Nameiparent path) (dp, name);
   Ev (Ilock dp) tt; Ev (Iunlockput dp) tt; Ev End_op tt].



(** [sys_read] and [sys_write], which differ in their last call only. *)
Definition transfer (op : Z -> Z -> Z -> call2 Z) : M Z :=
  '(r, _, f) ← argfd 0;
  if r <? 0 then mret (-1) else
  '(r, n) ← do_call (Argint 2);
  if r <? 0 then mret (-1) else
  '(r, p) ← do_more (Argptr 1 n);
  if r <? 0 then mret (-1) else
  do_more (op f p n).

(** The descriptor [fd] is valid in [s] and names the file [f]. *)
Definition names_file (s : kstate) (fd f : Z) : Prop :=
  0 <= fd < NOFILE /\ f <> 0 /\ ofile (kproc s) !! Z.to_nat fd = Some f.

(** A transfer reaches the file only with a valid descriptor, a count
    [n] that was fetched, and a buffer that [argptr] accepted for [n]
    bytes; every refusal returns -1 right after the failed check. *)
Definition transfer_post (op : Z -> Z -> Z -> call2 Z) (s : kstate) (o : outcome Z) : Prop :=
  match o with
  | Ret r s' =>
      exists ra fd s1, continues [Ev (Argint 0) (ra, fd)] s s1 /\
        ((r = -1 /\ s' = s1 /\ (ra < 0 \/ forall f, ~ names_file s fd f)) \/
         exists f rn n s2,
           0 <= ra /\ names_file s fd f /\ continues [Ev (Argint 2) (rn, n)] s1 s2 /\
           ((r = -1 /\ s' = s2 /\ rn < 0) \/
            exists rp p w3,
              0 <= rn /\ ext2 (Argptr 1 n) (kworld s2) = (w3, (rp, p)) /\
              ((r = -1 /\ s' = KState (kproc s) w3 (trace s2) /\ rp < 0) \/
               (0 <= rp /\ exists w4, ext2 (op f p n) w3 = (w4, r) /\
                                      s' = KState (kproc s) w4 (trace s2)))))
  | Undef _ => Z.of_nat (length (ofile (kproc s))) < NOFILE
  | _ => False
  end.

(** [sys_fstat] reaches [filestat] only with a valid descriptor and a
    buffer that [argptr] accepted for a [struct stat]. *)
Definition fstat_post (s : kstate) (o : outcome Z) : Prop :=
  match o with
  | Ret r s' =>
      exists ra fd s1, continues [Ev (Argint 0) (ra, fd)] s s1 /\
        ((r = -1 /\ s' = s1 /\ (ra < 0 \/ forall f, ~ names_file s fd f)) \/
         exists f rp st w2,
           0 <= ra /\ names_file s fd f /\
           ext2 (Argptr 1 sizeof_stat) (kworld s1) = (w2, (rp, st)) /\
           ((r = -1 /\ s' = KState (kproc s) w2 (trace s1) /\ rp < 0) \/
            (0 <= rp /\ exists w3, ext2 (Filestat f st) w2 = (w3, r) /\
                                   s' = KState (kproc s) w3 (trace s1))))
  | Undef _ => Z.of_nat (length (ofile (kproc s))) < NOFILE
  | _ => False
  end.


(** ** Reasoning about computations *)

Lemma wp_bind {A B} (m : M A) (k : A -> M B) s Q :
  wp m s (then_ k Q) -> wp (m ≫= k) s Q.
Proof.
  unfold wp, then_, mbind, M_bind, bind. destruct (m s); auto.
Qed.

Lemma wp_ret {A} (a : A) s (Q : outcome A -> Prop) :
  Q (Ret a s) -> wp (mret a) s Q.
Proof. auto. Qed.

Lemma wp_call {R} (c : call R) s (Q : outcome R -> Prop) :
  (forall w r, ext c (kworld s) = (w, r) ->
               Q (Ret r (KState (kproc s) w (trace s ++ [Ev c r])))) ->
  wp (do_call c) s Q.
Proof.
  intros H. unfold wp, do_call. destruct (ext c (kworld s)) as [w r] eqn:E. auto.
Qed.

Lemma wp_conseq {A} (m : M A) s (Q Q' : outcome A -> Prop) :
  wp m s Q -> (forall o, Q o -> Q' o) -> wp m s Q'.
Proof. unfold wp. auto. Qed.

Lemma wp_get_proc s (Q : outcome proc -> Prop) :
  Q (Ret (kproc s) s) -> wp get_proc s Q.
Proof. auto. Qed.

(** One step of symbolic execution. *)
Ltac wp_red := cbv beta iota delta [then_ set_ofile]; cbn [kproc kworld trace].

Ltac wp_step :=
  lazymatch goal with
  | |- wp (_ ≫= _) _ _ => apply wp_bind
  | |- wp (mret _) _ _ => apply wp_ret; wp_red
  | |- wp (do_call _) _ _ =>
      let H := fresh "Hext" in
      apply wp_call; intros ? ? H;
      cbv beta iota delta [set_ofile] in H; cbn [kworld] in H; wp_red
  | |- wp get_proc _ _ => apply wp_get_proc; wp_red
  | |- wp (if ?b then _ else _) _ _ => destruct b eqn:?
  | |- wp (let '(_, _) := ?x in _) _ _ => destruct x
  | |- wp exit_ _ _ => unfold wp, exit_; wp_red
  | |- wp (panic _) _ _ => unfold wp, panic; wp_red
  | |- wp diverge _ _ => unfold wp, diverge; wp_red
  end.

(** ** The trace only grows *)

Lemma returns_final {A} (o : outcome A) a :
  ending_of o = Returns a -> o = Ret a (final o).
Proof. destruct o; simpl; intros H; inversion H; reflexivity. Qed.

Lemma exits_final {A} (o : outcome A) : ending_of o = Exits -> o = Exited (final o).
Proof. destruct o; simpl; intros H; inversion H; reflexivity. Qed.

Lemma undefined_final {A} (o : outcome A) : ending_of o = Undefined -> o = Undef (final o).
Proof. destruct o; simpl; intros H; inversion H; reflexivity. Qed.

Lemma replays_nil w : replays w [] w.
Proof. reflexivity. Qed.

Lemma replays_cons {R} (c : call R) w w1 r l w' :
  ext c w = (w1, r) -> replays w1 l w' -> replays w (Ev c r :: l) w'.
Proof. intros He Hr. exists w1. split; assumption. Qed.

Lemma replays_app w1 l1 w2 l2 w3 :
  replays w1 l1 w2 -> replays w2 l2 w3 -> replays w1 (l1 ++ l2) w3.
Proof.
  revert w1. induction l1 as [|[R c r] l1 IH]; intros w1 H1 H2; simpl in *.
  - subst. assumption.
  - destruct H1 as (w & He & Hr). exists w. split; [assumption | eauto].
Qed.



Lemma logged_refl s : logged [] s s.
Proof. split; [symmetry; apply app_nil_r | reflexivity]. Qed.

Lemma logged_trans l1 l2 s1 s2 s3 :
  logged l1 s1 s2 -> logged l2 s2 s3 -> logged (l1 ++ l2) s1 s3.
Proof.
  intros [T1 R1] [T2 R2]. split.
  - rewrite T2, T1. symmetry. apply app_assoc.
  - eapply replays_app; eassumption.
Qed.

Lemma continues_refl s : continues [] s s.
Proof. split; [reflexivity | apply logged_refl]. Qed.

Lemma continues_trans l1 l2 s1 s2 s3 :
  continues l1 s1 s2 -> continues l2 s2 s3 -> continues (l1 ++ l2) s1 s3.
Proof.
  intros [P1 L1] [P2 L2]. split; [congruence |].
  eapply logged_trans; eassumption.
Qed.

Lemma continues_logged l s s' : continues l s s' -> logged l s s'.
Proof. intros [_ H]. exact H. Qed.

(** ** fdalloc *)


Lemma ofile_set_ok fd f s v :
  0 <= fd -> ofile (kproc s) !! Z.to_nat fd = Some v ->
  ofile_set fd f s = Ret tt (set_ofile (<[Z.to_nat fd := f]> (ofile (kproc s))) s).
Proof.
  intros Hfd Hl. unfold ofile_set.
  destruct (fd <? 0) eqn:E; [lia |]. now rewrite Hl.
Qed.

Lemma fdalloc_loop_spec f fuel : forall fd s,
  0 <= fd -> NOFILE - fd <= Z.of_nat fuel ->
  fdalloc_post f s (fdalloc_loop fuel fd f s).
Proof.
  induction fuel as [|fuel IH]; intros fd s Hfd Hfuel.
  - simpl. destruct (fd <? NOFILE) eqn:E; [lia |]. left. split; reflexivity.
  - simpl. destruct (fd <? NOFILE) eqn:E.
    + unfold mbind, M_bind, bind.
      unfold ofile_get at 1. destruct (fd <? 0) eqn:E0; [lia |].
      destruct (ofile (kproc s) !! Z.to_nat fd) as [cur|] eqn:El; [| reflexivity].
      destruct (cur =? 0) eqn:Ec.
      * rewrite (ofile_set_ok fd f s cur) by (lia || assumption).
        right. apply Z.eqb_eq in Ec. subst cur. repeat split; (lia || assumption).
      * apply IH; lia.
    + left. split; reflexivity.
Qed.

Lemma fdalloc_spec f s : fdalloc_post f s (fdalloc f s).
Proof. apply fdalloc_loop_spec; lia. Qed.

(** ** create and the_opener *)

Ltac solve_replays :=
  cbn [kworld app];
  repeat (eapply replays_cons; [eassumption |]);
  apply replays_nil.

Ltac solve_logged :=
  first
  [ apply logged_refl
  | split; [cbn [trace]; rewrite <- ?app_assoc; reflexivity | solve_replays] ].

Ltac solve_continues :=
  first
  [ exists []; split; [apply continues_refl | reflexivity]
  | eexists; split; [split; [reflexivity | solve_logged] | reflexivity] ].

Lemma create_spec path type major minor s :
  wp (create path type major minor) s (create_post s).
Proof.
  unfold create.
  repeat wp_step; unfold create_post, create_panics;
    try solve_continues; simpl; auto.
Qed.

Ltac wp_use H :=
  eapply wp_conseq;
  [ apply H
  | intros [? ?| ? | ? ? | ? | ?] ?Hpost; hnf in Hpost; try contradiction; wp_red ].


Lemma the_opener_unfold p om :
  the_opener p om =
  (do_call Begin_op;;
   ip ← open_inode p om;
   if ip =? 0 then mret (-1) else open_file om ip).
Proof. reflexivity. Qed.

Lemma create_post_trans {A} l s s1 (o : outcome A) :
  continues l s s1 -> forallb quiet l = true -> create_post s1 o -> create_post s o.
Proof.
  intros Hc Hq. destruct o; simpl; auto.
  intros (l2 & Hc2 & Hq2). exists (l ++ l2). split.
  - eapply continues_trans; eassumption.
  - rewrite forallb_app, Hq, Hq2. reflexivity.
Qed.

Lemma open_inode_spec p om s : wp (open_inode p om) s (create_post s).
Proof.
  unfold open_inode. wp_step.
  - wp_step. wp_use create_spec; [| simpl; assumption].
    destruct Hpost as (l & Hc & Hq).
    eapply wp_conseq; [| intros o Ho; apply (create_post_trans l s s0); [assumption | assumption | exact Ho]].
    repeat wp_step; unfold create_post; solve_continues.
  - repeat wp_step; unfold create_post; solve_continues.
Qed.

Lemma open_file_spec om ip s : wp (open_file om ip) s (open_file_post s).
Proof.
  unfold open_file. wp_step. wp_step. wp_step. wp_step.
  - repeat wp_step; unfold open_file_post;
      (eexists; split; [solve_logged | left; split; reflexivity]).
  - wp_use fdalloc_spec; [| exact I].
    destruct Hpost as [[-> ->] | (Hfd & Hl & ->)].
    + repeat wp_step; unfold open_file_post;
        (eexists; split; [solve_logged | left; split; reflexivity]).
    + wp_step; [apply orb_true_iff in Heqb0 as [? | ?]; [discriminate | lia] |].
      repeat wp_step. unfold open_file_post, set_ofile.
      cbn [trace kproc kworld sz pgdir pid ofile].
      eexists; split; [solve_logged |].
      right. split; [assumption |]. split; [reflexivity |].
      exists r. split; [apply Z.eqb_neq; assumption |]. split; [assumption | reflexivity].
Qed.

Lemma the_opener_spec p om s : wp (the_opener p om) s (opener_post s).
Proof.
  rewrite the_opener_unfold. wp_step. wp_step. wp_step.
  wp_use open_inode_spec; [| simpl; assumption].
  destruct Hpost as (l & [Hp Hl] & Hq). cbn [kproc] in Hp.
  assert (Hl0 : logged ([Ev Begin_op r] ++ l) s s0).
  { eapply logged_trans; [| exact Hl]. solve_logged. }
  wp_step.
  - wp_step. unfold opener_post. eexists. split; [exact Hl0 |].
    left. split; [reflexivity | assumption].
  - wp_use open_file_spec; [| exact I].
    destruct Hpost as (l2 & Hl2 & Hcase). unfold opener_post.
    exists (([Ev Begin_op r] ++ l) ++ l2). split.
    { eapply logged_trans; eassumption. }
    unfold set_ofile in Hcase |- *. cbn [kproc] in Hcase |- *. rewrite Hp in Hcase.
    destruct Hcase as [[-> Hp2] | (Hfd & Hq2 & f & Hf & Hl3 & Hp2)].
    + left. split; [reflexivity | assumption].
    + right. split; [assumption |]. split.
      { rewrite forallb_app. simpl. rewrite Hq, Hq2. reflexivity. }
      exists f. split; [assumption |]. split; assumption.
Qed.

(** ** sys_open against the_opener *)

(** C10 (the_opener is sys_open after argument fetching).  When [argstr]
    and [argint] succeed with a path and a mode, [sys_open] continues
    exactly as [the_opener] called with that path and mode in the state
    the two fetches left: same returned descriptor or -1, same final
    process, world and trace. *)
Theorem sys_open_after_fetch_is_the_opener s path omode r1 r2 s1 s2 :
  do_call (Argstr 0) s = Ret (r1, path) s1 ->
  0 <= r1 ->
  do_call (Argint 1) s1 = Ret (r2, omode) s2 ->
  0 <= r2 ->
  sys_open s = the_opener path omode s2.
Proof.
  intros H1 Hr1 H2 Hr2.
  unfold sys_open, mbind, M_bind. unfold bind at 1. rewrite H1.
  destruct (r1 <? 0) eqn:E1; [lia |].
  unfold bind at 1. rewrite H2.
  destruct (r2 <? 0) eqn:E2; [lia |].
  reflexivity.
Qed.

(** ** The page sweep *)

Ltac kill_units := repeat match goal with u : unit |- _ => destruct u end.


Lemma c_true_true z : c_true z = true <-> z <> 0.
Proof. unfold c_true. rewrite negb_true_iff. apply Z.eqb_neq. Qed.


(** Whatever the write of the permission word returns, a round whose page
    is present and whose content went out in full returns normally. *)
Lemma uvm_page_drops_flag_result f f2 i s w1 pte w2 v w3 page w4 w5 n2 :
  ext (Ns_walkpgdir (pgdir (kproc s)) i 0) (kworld s) = (w1, pte) ->
  pte <> 0 ->
  ext (Load32 pte) w1 = (w2, v) ->
  Z.land v PTE_P <> 0 ->
  ext (Kload (p2v (PTE_ADDR v)) PGSIZE) w2 = (w3, page) ->
  ext (Filewrite f page PGSIZE) w3 = (w4, PGSIZE) ->
  ext (Filewrite f2 (le32 (PTE_FLAGS v)) 4) w4 = (w5, n2) ->
  exists s', uvm_page f f2 i s = Ret tt s'.
Proof.
  intros E1 Hpte E2 Hv E3 E4 E5.
  unfold uvm_page, mbind, M_bind, bind, get_proc, do_call. rewrite E1.
  apply Z.eqb_neq in Hpte. rewrite Hpte. cbn [kworld]. rewrite E2.
  apply c_true_true in Hv. rewrite Hv. cbn [negb kworld]. rewrite E3.
  cbn [kworld]. rewrite E4. cbn [kworld]. rewrite E5. rewrite Z.eqb_refl.
  cbn [negb kworld]. destruct (ext (Cprintf _ _) w5) as [w6 []]. eexists. reflexivity.
Qed.





(** ** The stages of the checkpoint *)


Lemma wp_ofile_set fd f s v (Q : outcome unit -> Prop) :
  0 <= fd -> ofile (kproc s) !! Z.to_nat fd = Some v ->
  Q (Ret tt (set_ofile (<[Z.to_nat fd := f]> (ofile (kproc s))) s)) ->
  wp (ofile_set fd f) s Q.
Proof. intros Hfd Hl HQ. unfold wp. rewrite (ofile_set_ok fd f s v); assumption. Qed.












(** ** The checkpoint as a whole *)



(** ** Claims about the checkpoint *)







(** ** The restore *)






Lemma bind_Undef {A B} (m : M A) (k : A -> M B) s s1 :
  m s = Undef s1 -> (m ≫= k) s = Undef s1.
Proof. intros E. unfold mbind, M_bind, bind. rewrite E. reflexivity. Qed.


Lemma bind_call {R B} (c : call R) (k : R -> M B) s :
  (do_call c ≫= k) s =
  k (ext c (kworld s)).2
    (KState (kproc s) (ext c (kworld s)).1 (trace s ++ [Ev c (ext c (kworld s)).2])).
Proof. unfold mbind, M_bind, bind, do_call. destruct (ext c (kworld s)). reflexivity. Qed.




(** * The other system calls *)

(** ** fdalloc, once more *)

Lemma fdalloc_loop_lowest f fuel : forall fd s,
  0 <= fd -> NOFILE - fd <= Z.of_nat fuel ->
  lowest_post f fd s (fdalloc_loop fuel fd f s).
Proof.
  induction fuel as [|fuel IH]; intros fd s Hfd Hfuel.
  - simpl. destruct (fd <? NOFILE) eqn:E; [lia |]. left.
    split; [reflexivity |]. split; [reflexivity |]. intros j Hj. lia.
  - simpl. destruct (fd <? NOFILE) eqn:E.
    + unfold mbind, M_bind, bind.
      unfold ofile_get at 1. destruct (fd <? 0) eqn:E0; [lia |].
      destruct (ofile (kproc s) !! Z.to_nat fd) as [cur|] eqn:El.
      * destruct (cur =? 0) eqn:Ec.
        -- rewrite (ofile_set_ok fd f s cur) by (lia || assumption).
           right. apply Z.eqb_eq in Ec. subst cur.
           split; [lia |]. split; [assumption |]. split; [intros j Hj; lia | reflexivity].
        -- apply Z.eqb_neq in Ec.
           assert (Hcur : forall j, fd <= j < fd + 1 ->
                     ofile (kproc s) !! Z.to_nat j <> Some 0).
           { intros j Hj. replace j with fd by lia. rewrite El. congruence. }
           specialize (IH (fd + 1) s ltac:(lia) ltac:(lia)).
           destruct (fdalloc_loop fuel (fd + 1) f s) as [r s'|s'|msg s'|s'|s'];
             simpl in IH |- *; try contradiction; [| exact IH].
           destruct IH as [(-> & -> & Hall) | (Hr & Hfree & Hlow & ->)].
           ++ left. split; [reflexivity |]. split; [reflexivity |].
              intros j Hj. destruct (Z.eq_dec j fd) as [-> | Hne];
                [rewrite El; congruence | apply Hall; lia].
           ++ right. split; [lia |]. split; [assumption |]. split; [| reflexivity].
              intros j Hj. destruct (Z.eq_dec j fd) as [-> | Hne];
                [rewrite El; congruence | apply Hlow; lia].
      * simpl. split; [reflexivity |].
        apply lookup_ge_None in El. apply Z.ltb_lt in E. lia.
    + left. apply Z.ltb_ge in E.
      split; [reflexivity |]. split; [reflexivity |]. intros j Hj. lia.
Qed.

Lemma fdalloc_lowest f s : lowest_post f 0 s (fdalloc f s).
Proof. apply fdalloc_loop_lowest; lia. Qed.

(** X1 (fdalloc takes the lowest free descriptor).  When [fdalloc f]
    returns a descriptor [fd] other than -1, [fd] lies in [0, NOFILE), its
    slot was free, every slot below it holds a file, and the only change
    is that slot [fd] now holds [f]: world and trace are as before. *)
Theorem fdalloc_takes_lowest_free_slot f s fd s' :
  fdalloc f s = Ret fd s' ->
  fd <> -1 ->
  0 <= fd < NOFILE /\
  ofile (kproc s) !! Z.to_nat fd = Some 0 /\
  (forall j, 0 <= j < fd ->
     exists g, ofile (kproc s) !! Z.to_nat j = Some g /\ g <> 0) /\
  s' = set_ofile (<[Z.to_nat fd := f]> (ofile (kproc s))) s.
Proof.
  intros E Hfd. pose proof (fdalloc_lowest f s) as H. rewrite E in H.
  destruct H as [(-> & _) | (Hr & Hfree & Hlow & ->)]; [congruence |].
  split; [assumption |]. split; [assumption |]. split; [| reflexivity].
  intros j Hj. specialize (Hlow j Hj).
  destruct (ofile (kproc s) !! Z.to_nat j) as [g|] eqn:El.
  - exists g. split; [reflexivity | congruence].
  - apply lookup_ge_None in El. apply lookup_lt_Some in Hfree. lia.
Qed.

(** X2 (fdalloc on a table of full size).  With a table of at least
    NOFILE entries [fdalloc] returns, -1 or a descriptor in [0, NOFILE);
    it changes no slot from NOFILE on and keeps the length of the table,
    the world and the trace.  It returns -1, leaving the state as it was,
    if and only if none of the slots 0 .. NOFILE-1 is free. *)
Theorem fdalloc_fails_exactly_on_a_full_table f s :
  NOFILE <= Z.of_nat (length (ofile (kproc s))) ->
  (exists fd s', fdalloc f s = Ret fd s' /\ (fd = -1 \/ 0 <= fd < NOFILE) /\
     length (ofile (kproc s')) = length (ofile (kproc s)) /\
     (forall j, NOFILE <= j ->
        ofile (kproc s') !! Z.to_nat j = ofile (kproc s) !! Z.to_nat j) /\
     kworld s' = kworld s /\ trace s' = trace s) /\
  (fdalloc f s = Ret (-1) s <->
   (forall j, 0 <= j < NOFILE -> ofile (kproc s) !! Z.to_nat j <> Some 0)).
Proof.
  intros Hlen. pose proof (fdalloc_lowest f s) as H. split; [| split].
  - destruct (fdalloc f s) as [r s'|s'|msg s'|s'|s']; simpl in H; try contradiction;
      [| destruct H; lia].
    exists r, s'. split; [reflexivity |].
    destruct H as [(-> & -> & _) | (Hr & Hfree & _ & ->)].
    + split; [left; reflexivity |]. repeat split; reflexivity.
    + split; [right; lia |]. unfold set_ofile. cbn [kproc kworld trace ofile].
      split; [apply length_insert |]. split; [| split; reflexivity].
      intros j Hj. apply list_lookup_insert_ne. lia.
  - intros E. rewrite E in H.
    destruct H as [(_ & _ & Hall) | (Hr & _)]; [assumption | lia].
  - intros Hall.
    destruct (fdalloc f s) as [r s'|s'|msg s'|s'|s']; simpl in H; try contradiction.
    + destruct H as [(-> & -> & _) | (Hr & Hfree & _)]; [reflexivity |].
      exfalso. apply (Hall r); [lia | assumption].
    + destruct H; lia.
Qed.

(** ** argfd and sys_close *)

Lemma wp_get_slot fd s (Q : outcome Z -> Prop) :
  0 <= fd ->
  (forall f, ofile (kproc s) !! Z.to_nat fd = Some f -> Q (Ret f s)) ->
  (ofile (kproc s) !! Z.to_nat fd = None -> Q (Undef s)) ->
  wp (ofile_get fd) s Q.
Proof.
  intros Hfd H1 H2. unfold wp, ofile_get.
  destruct (fd <? 0) eqn:E; [lia |].
  destruct (ofile (kproc s) !! Z.to_nat fd) eqn:El; auto.
Qed.

Lemma argfd_spec n s : wp (argfd n) s (argfd_post n s).
Proof.
  unfold argfd. wp_step. wp_step. destruct r as [ra v]. cbv beta iota. wp_step.
  - wp_step. unfold argfd_post. exists ra, v. apply Z.ltb_lt in Heqb.
    split; [split; [reflexivity | solve_logged] |]. right. split; [reflexivity | lia].
  - wp_step.
    + wp_step. unfold argfd_post. exists ra, v. apply orb_true_iff in Heqb0.
      split; [split; [reflexivity | solve_logged] |]. right. split; [reflexivity | lia].
    + apply Z.ltb_ge in Heqb. apply orb_false_iff in Heqb0 as [H1 H2].
      apply Z.ltb_ge in H1. apply Z.leb_gt in H2.
      wp_step. apply wp_get_slot; [assumption | |]; cbn [kproc kworld trace].
      * intros f Hf. wp_red. wp_step; wp_step; unfold argfd_post; exists ra, v;
          (split; [split; [reflexivity | solve_logged] |]).
        -- apply Z.eqb_eq in Heqb0. subst f. right. split; [reflexivity | auto].
        -- apply Z.eqb_neq in Heqb0. left. repeat split; (assumption || lia).
      * intros Hnone. wp_red. exists ra, v.
        split; [split; [reflexivity | solve_logged] |]. repeat split; (assumption || lia).
Qed.

(** X3 (argfd validates the descriptor).  [argfd n] makes one call,
    [argint(n)], and leaves the process untouched.  It returns 0 exactly
    when that call succeeded with a descriptor in [0, NOFILE) whose slot
    holds a non-null file, handing back this descriptor and this file, and
    -1 otherwise; the table is indexed inside [0, NOFILE) only. *)
Theorem argfd_validates_descriptor n s : argfd_post n s (argfd n s).
Proof. exact (argfd_spec n s). Qed.

Lemma sys_close_spec s : wp sys_close s (close_post s).
Proof.
  unfold sys_close. wp_step. wp_use argfd_spec.
  - destruct a as [[r fd] f]. destruct Hpost as (ra & v & Hc & Hcase).
    destruct Hc as [Hp Hl]. wp_step.
    + wp_step. unfold close_post. exists ra, v. right.
      destruct Hcase as [(-> & _) | (_ & Hwhy)]; [discriminate |].
      split; [reflexivity |]. split; [assumption |]. split; assumption.
    + destruct Hcase as [(_ & Hra & -> & Hv & Hf & Hslot) | (-> & _)]; [| discriminate].
      wp_step. unfold wp at 1.
      rewrite (ofile_set_ok v 0 s0 f) by (lia || (rewrite Hp; assumption)).
      wp_red. wp_step. wp_step. wp_step. unfold close_post. exists ra, v. left.
      split; [reflexivity |]. split; [assumption |]. split; [assumption |].
      exists f. split; [assumption |]. split; [assumption |].
      cbn [kproc]. rewrite Hp. split; [reflexivity |].
      destruct Hl as [Ht Hr]. kill_units. split.
      * cbn [trace]. rewrite Ht, <- app_assoc. reflexivity.
      * cbn [kworld]. eapply (replays_app _ [_] _ [_]); [exact Hr |].
        eapply replays_cons; [eassumption | apply replays_nil].
  - destruct Hpost as (ra & v & Hc & Hrest). exists ra, v. split; assumption.
Qed.

(** X4 (sys_close clears one slot and releases its file).  [sys_close]
    returns 0 exactly when its argument is a descriptor in [0, NOFILE)
    whose slot holds a file: that slot alone is set to null and
    [fileclose] is called once, on the file that was there.  Otherwise it
    returns -1 with the process untouched and no call but the argument
    fetch. *)
Theorem sys_close_clears_slot_and_releases_file s : close_post s (sys_close s).
Proof. exact (sys_close_spec s). Qed.

Lemma replays_one {R} (c : call R) (r : R) w w' :
  replays w [Ev c r] w' -> ext c w = (w', r).
Proof. intros (w1 & He & Hr). simpl in Hr. subst. exact He. Qed.

Lemma replays_head {R} (c : call R) (r : R) l w w' :
  replays w (Ev c r :: l) w' -> (ext c w).2 = r.
Proof. intros (w1 & He & _). rewrite He. reflexivity. Qed.

(** X5 (closing a descriptor twice).  After a [sys_close] that returned
    0, a second [sys_close] of the same descriptor returns -1: its slot is
    null.  The second call releases no file and leaves the process as the
    first one left it. *)
Theorem sys_close_twice_fails s s1 w1 ra fd w2 ra' :
  sys_close s = Ret 0 s1 ->
  ext (Argint 0) (kworld s) = (w1, (ra, fd)) ->
  ext (Argint 0) (kworld s1) = (w2, (ra', fd)) ->
  exists s2, sys_close s1 = Ret (-1) s2 /\
             continues [Ev (Argint 0) (ra', fd)] s1 s2.
Proof.
  intros E1 A1 A2.
  pose proof (sys_close_spec s) as H1. unfold wp in H1. rewrite E1 in H1.
  destruct H1 as (ra0 & fd0 & [(_ & Hra & Hfd & f & Hf & Hslot & Hp & Hl) | (Hr & _)]);
    [| discriminate].
  destruct Hl as [_ Hrep]. apply replays_head in Hrep. rewrite A1 in Hrep.
  simpl in Hrep. injection Hrep as <- <-.
  assert (Hnull : ofile (kproc s1) !! Z.to_nat fd = Some 0).
  { rewrite Hp. unfold set_ofile. cbn [kproc ofile].
    apply list_lookup_insert_eq. apply lookup_lt_Some in Hslot. exact Hslot. }
  pose proof (sys_close_spec s1) as H2. unfold wp in H2.
  destruct (sys_close s1) as [r s2|s2|msg s2|s2|s2]; simpl in H2; try contradiction.
  - destruct H2 as (ra2 & fd2 & [(_ & _ & _ & f2 & Hf2 & Hslot2 & _ & Hl2) | (-> & _ & Hc)]).
    + destruct Hl2 as [_ Hrep2]. apply replays_head in Hrep2. rewrite A2 in Hrep2.
      simpl in Hrep2. injection Hrep2 as <- <-. congruence.
    + pose proof Hc as [_ [_ Hrep2]]. apply replays_head in Hrep2. rewrite A2 in Hrep2.
      simpl in Hrep2. injection Hrep2 as <- <-. exists s2. split; [reflexivity | exact Hc].
  - destruct H2 as (ra2 & v & [_ [_ Hrep2]] & _ & _ & Hnone).
    apply replays_head in Hrep2. rewrite A2 in Hrep2.
    simpl in Hrep2. injection Hrep2 as <- <-. congruence.
Qed.

(** X6 (open, then close).  When [the_opener] returned a descriptor and
    [sys_close] is then called on that descriptor, [sys_close] returns 0
    and the process, its descriptor table included, is again what it was
    before the open. *)
Theorem open_then_close_restores_process p om s fd s1 w ra :
  the_opener p om s = Ret fd s1 ->
  fd <> -1 ->
  ext (Argint 0) (kworld s1) = (w, (ra, fd)) ->
  0 <= ra ->
  exists s2, sys_close s1 = Ret 0 s2 /\ kproc s2 = kproc s.
Proof.
  intros E Hfd A Hra.
  pose proof (the_opener_spec p om s) as H1. unfold wp in H1. rewrite E in H1.
  destruct H1 as (l & _ & [(-> & _) | (Hr & _ & f & Hf & Hfree & Hp)]); [congruence |].
  assert (Hlt : (Z.to_nat fd < length (ofile (kproc s)))%nat)
    by (apply lookup_lt_Some in Hfree; exact Hfree).
  assert (Hslot : ofile (kproc s1) !! Z.to_nat fd = Some f).
  { rewrite Hp. unfold set_ofile. cbn [kproc ofile].
    apply list_lookup_insert_eq. exact Hlt. }
  pose proof (sys_close_spec s1) as H2. unfold wp in H2.
  destruct (sys_close s1) as [r s2|s2|msg s2|s2|s2]; simpl in H2; try contradiction.
  - destruct H2 as (ra2 & fd2 & [(-> & _ & _ & f2 & _ & _ & Hp2 & Hl2) | (_ & Hwhy & Hc)]).
    + destruct Hl2 as [_ Hrep2]. apply replays_head in Hrep2. rewrite A in Hrep2.
      simpl in Hrep2. injection Hrep2 as <- <-. exists s2. split; [reflexivity |].
      rewrite Hp2, Hp. unfold set_ofile. cbn [kproc ofile sz pgdir pid].
      rewrite list_insert_insert_eq, list_insert_id by assumption.
      destruct (kproc s); reflexivity.
    + destruct Hc as [_ [_ Hrep2]]. apply replays_head in Hrep2. rewrite A in Hrep2.
      simpl in Hrep2. injection Hrep2 as <- <-.
      destruct Hwhy as [? | [? | [? | ?]]]; (lia || congruence).
  - destruct H2 as (ra2 & v & [_ [_ Hrep2]] & _ & _ & Hnone).
    apply replays_head in Hrep2. rewrite A in Hrep2.
    simpl in Hrep2. injection Hrep2 as <- <-. congruence.
Qed.

(** ** Transactions, inode locks and files *)

Lemma tally_app wt l1 l2 : tally wt (l1 ++ l2) = tally wt l1 + tally wt l2.
Proof. unfold tally. induction l1 as [|e l1 IH]; simpl; [reflexivity | rewrite IH; lia]. Qed.

Lemma ledger_app l1 l2 b1 e1 f1 h1 b2 e2 f2 h2 :
  ledger l1 b1 e1 f1 h1 -> ledger l2 b2 e2 f2 h2 ->
  ledger (l1 ++ l2) (b1 + b2) (e1 + e2) (f1 + f2) (fun x => h1 x + h2 x).
Proof.
  intros (B1 & E1 & F1 & H1) (B2 & E2 & F2 & H2). unfold ledger, held.
  rewrite !tally_app. repeat split; try lia.
  intros x. rewrite tally_app. fold (held x l1) (held x l2). rewrite H1, H2. reflexivity.
Qed.

Lemma ledger_eq l b e f h b' e' f' h' :
  ledger l b e f h -> b = b' -> e = e' -> f = f' -> (forall x, h x = h' x) ->
  ledger l b' e' f' h'.
Proof.
  intros (B & E & F & H) <- <- <- Hh. repeat split; try assumption.
  intros x. rewrite H. apply Hh.
Qed.

(** Decides the balances of a log written out event by event. *)
Ltac eqb_facts :=
  repeat match goal with
  | H : true && _ = _ |- _ => cbn [andb] in H
  | H : false && _ = _ |- _ => cbn [andb] in H
  | H : true || _ = _ |- _ => cbn [orb] in H
  | H : false || _ = _ |- _ => cbn [orb] in H
  | H : true = false |- _ => discriminate H
  | H : false = true |- _ => discriminate H
  | H : negb _ = true |- _ => apply negb_true_iff in H
  | H : negb _ = false |- _ => apply negb_false_iff in H
  | H : _ || _ = false |- _ => apply orb_false_iff in H as [? ?]
  | H : _ && _ = true |- _ => apply andb_true_iff in H as [? ?]
  end.

Ltac eqb_cases :=
  repeat match goal with
  | H : ?b = _ |- context [?b] => rewrite H
  | |- context [?a =? ?b] => destruct (a =? b) eqn:?
  | |- context [?a <=? ?b] => destruct (a <=? b) eqn:?
  | |- context [?a <? ?b] => destruct (a <? b) eqn:?
  end.

Ltac solve_ledger :=
  unfold c_true in *; eqb_facts; try congruence;
  unfold ledger, held, tally;
  cbn [app fold_right lock_wt begin_wt end_wt file_wt];
  repeat split; try intros ?x;
  unfold one_if; eqb_cases; cbn [negb]; try reflexivity; try lia.

Lemma create_ledger path type major minor s :
  wp (create path type major minor) s (create_ledger_post s).
Proof.
  unfold create.
  repeat wp_step; unfold create_ledger_post; try exact I;
    (eexists; split; [solve_logged | solve_ledger]).
Qed.

Lemma ledger_snoc l b e f h s s1 s2 l2 b2 e2 f2 h2 b' e' f' h' :
  logged l s s1 -> ledger l b e f h ->
  logged l2 s1 s2 -> ledger l2 b2 e2 f2 h2 ->
  b + b2 = b' -> e + e2 = e' -> f + f2 = f' -> (forall x, h x + h2 x = h' x) ->
  exists l', logged l' s s2 /\ ledger l' b' e' f' h'.
Proof.
  intros L1 G1 L2 G2 Hb He Hf Hh. exists (l ++ l2). split.
  - eapply logged_trans; eassumption.
  - eapply ledger_eq; [eapply ledger_app; eassumption | assumption ..].
Qed.

Lemma open_inode_ledger p om s : wp (open_inode p om) s (open_inode_ledger_post s).
Proof.
  unfold open_inode. wp_step.
  - wp_step. wp_use create_ledger; try exact I.
    destruct Hpost as (l & Hl & Hg).
    repeat wp_step; unfold open_inode_ledger_post;
      (eapply ledger_snoc; [exact Hl | exact Hg | solve_logged | solve_ledger | ..]);
      try intros ?x; unfold one_if; eqb_cases; lia.
  - repeat wp_step; unfold open_inode_ledger_post;
      (eexists; split; [solve_logged | solve_ledger]).
Qed.

Lemma open_file_ledger om ip s : wp (open_file om ip) s (open_file_ledger_post ip s).
Proof.
  unfold open_file. wp_step. wp_step. wp_step. wp_step.
  - repeat wp_step; unfold open_file_ledger_post;
      (eexists; split; [solve_logged | solve_ledger]).
  - wp_use fdalloc_spec; try exact I.
    destruct Hpost as [[-> ->] | (Hfd & Hl & ->)].
    + repeat wp_step; unfold open_file_ledger_post;
        (eexists; split; [solve_logged | solve_ledger]).
    + wp_step; [apply orb_true_iff in Heqb0 as [? | ?]; [discriminate | lia] |].
      repeat wp_step. unfold open_file_ledger_post, set_ofile.
      cbn [trace kproc kworld sz pgdir pid ofile].
      eexists; split; [solve_logged | solve_ledger].
Qed.

Lemma the_opener_ledger p om s : wp (the_opener p om) s (open_ledger_post 1 s).
Proof.
  rewrite the_opener_unfold. wp_step. wp_step. wp_step.
  wp_use open_inode_ledger; try exact I.
  destruct Hpost as (l & Hl & Hg).
  assert (Hl0 : exists l0, logged l0 s s0 /\
            ledger l0 1 (one_if (a =? 0)) 0 (fun x => if a =? 0 then 0 else one_if (a =? x))).
  { eapply ledger_snoc; [| | exact Hl | exact Hg | ..];
      [solve_logged | solve_ledger | reflexivity .. | intros x; reflexivity]. }
  clear l Hl Hg. destruct Hl0 as (l & Hl & Hg).
  wp_step.
  - wp_step. unfold open_ledger_post. exists l, 1. split; [exact Hl |].
    split; [lia |]. split; [reflexivity |].
    eapply ledger_eq; [exact Hg | ..]; try reflexivity; intros; rewrite ?Heqb; reflexivity.
  - wp_use open_file_ledger; try exact I.
    destruct Hpost as (l2 & Hl2 & Hg2). unfold open_ledger_post.
    destruct (ledger_snoc _ _ _ _ _ _ _ _ _ _ _ _ _ 1 1 (one_if (0 <=? a0)) (fun _ => 0)
                Hl Hg Hl2 Hg2) as (l' & Hl' & Hg');
      try (rewrite ?Heqb; reflexivity).
    { intros x. lia. }
    exists l', 1. split; [exact Hl' |]. split; [lia |]. split; [reflexivity | exact Hg'].
Qed.

(** ** create, the name found or not *)

Ltac log_red :=
  cbn [app flat_map lookups iallocs istores dirlinks iloads changes_fs forallb negb andb
       List.filter is_type is_nlink is_inum fst snd].

Ltac eqb_props :=
  repeat match goal with
  | H : (_ =? _) = true |- _ => apply Z.eqb_eq in H
  | H : (_ =? _) = false |- _ => apply Z.eqb_neq in H
  | H : (_ <? _) = true |- _ => apply Z.ltb_lt in H
  | H : (_ <? _) = false |- _ => apply Z.ltb_ge in H
  | H : (_ <=? _) = true |- _ => apply Z.leb_le in H
  | H : (_ <=? _) = false |- _ => apply Z.leb_gt in H
  end.

Lemma create_facts path type major minor s :
  wp (create path type major minor) s (create_facts_post type major minor s).
Proof.
  unfold create.
  repeat wp_step; unfold create_facts_post; try exact I;
    (eexists; split; [solve_logged |]); eqb_facts; split.
  all: try (intros dp name ip Hlk Hip; cbn in Hlk; simplify_eq).
  all: try (intros dp name Hlk; cbn in Hlk; simplify_eq).
  all: log_red; eqb_props; try congruence.
  - split; [reflexivity |]. left. subst. auto.
  - split; [reflexivity |]. right. split; [reflexivity |]. right. eexists.
    split; [eassumption | reflexivity].
  - split; [reflexivity |]. right. split; [reflexivity |]. left. assumption.
  - split; [assumption |]. split; [eexists; reflexivity |]. do 2 eexists.
    split; [| eassumption]. subst type. rewrite Z.eqb_refl. do 5 eexists.
    repeat (split; [reflexivity |]). split; assumption.
  - split; [assumption |]. split; [eexists; reflexivity |]. do 2 eexists.
    split; [| eassumption].
    destruct (type =? T_DIR) eqn:E; [apply Z.eqb_eq in E; contradiction |].
    repeat (split; [reflexivity |]). reflexivity.
Qed.

Lemma logged_unique l l0 s s' : logged l s s' -> trace s' = trace s ++ l0 -> l0 = l.
Proof. intros [Ht _] H0. rewrite Ht in H0. apply app_inv_head in H0. congruence. Qed.

(** X7 (create returns a locked inode).  Every return of [create] has
    released each lock it took, except one lock on the inode it returns;
    when it returns null no lock is left.  It neither begins nor ends a
    transaction and touches no file. *)
Theorem create_returns_locked_inode path type major minor s ip s' :
  create path type major minor s = Ret ip s' ->
  exists l, logged l s s' /\
    tally begin_wt l = 0 /\ tally end_wt l = 0 /\ tally file_wt l = 0 /\
    forall x, held x l = if ip =? 0 then 0 else one_if (ip =? x).
Proof.
  intros E. pose proof (create_ledger path type major minor s) as H.
  unfold wp in H. rewrite E in H. exact H.
Qed.

(** X8 (create leaves an existing name alone).  When the lookup in the
    parent finds the name, [create] allocates nothing, stores nothing and
    links nothing.  It returns the inode found if the caller asked for a
    T_FILE and the inode is one, and null in every other case. *)
Theorem create_leaves_existing_name path type major minor s r s' l dp name ip :
  create path type major minor s = Ret r s' ->
  trace s' = trace s ++ l ->
  lookups l = [(dp, name, ip)] ->
  ip <> 0 ->
  forallb (fun e => negb (changes_fs e)) l = true /\
  ((r = ip /\ type = T_FILE /\ List.filter is_type (iloads l) = [(I_type, ip, T_FILE)]) \/
   (r = 0 /\
    (type <> T_FILE \/
     exists t, t <> T_FILE /\ List.filter is_type (iloads l) = [(I_type, ip, t)]))).
Proof.
  intros E Ht Hlk Hip. pose proof (create_facts path type major minor s) as H.
  unfold wp in H. rewrite E in H. destruct H as (l' & Hl & Hfound & _).
  rewrite (logged_unique _ _ _ _ Hl Ht) in *. exact (Hfound dp name ip Hlk Hip).
Qed.


(** ** the_opener and sys_open *)

Lemma open_inode_facts p om s : wp (open_inode p om) s (open_inode_facts_post p om s).
Proof.
  destruct (c_true (Z.land om O_CREATE)) eqn:Hc.
  - eapply wp_conseq; [apply open_inode_spec |].
    intros [ip s'|s'|msg s'|s'|s'] Ho; simpl in *; try exact I.
    destruct Ho as (l & [Hp Hl] & _). exists l. split; [exact Hl |]. split; [exact Hp |].
    intros H0. apply c_true_true in Hc. contradiction.
  - unfold open_inode. rewrite Hc.
    repeat wp_step; unfold open_inode_facts_post; kill_units; eqb_facts; eqb_props;
      (eexists; split; [solve_logged |]; split; [reflexivity |]; intros _; cbn [app]).
    + left. subst. auto.
    + right. left. subst. split; [reflexivity |]. split; [assumption |].
      eexists. reflexivity.
    + right. right. split; [assumption |]. eexists. split; [| reflexivity].
      apply andb_false_iff in Heqb0 as [H | H]; eqb_facts; eqb_props; auto.
Qed.

Lemma open_file_facts om ip s : wp (open_file om ip) s (open_file_facts_post om ip s).
Proof.
  unfold open_file. wp_step. wp_step. wp_step. wp_step.
  - repeat wp_step; unfold open_file_facts_post;
      (eexists; split; [solve_logged |]; split; [reflexivity |]; left; split; reflexivity).
  - wp_use fdalloc_spec; try exact I.
    destruct Hpost as [[-> ->] | (Hfd & Hl & ->)].
    + repeat wp_step; unfold open_file_facts_post;
        (eexists; split; [solve_logged |]; split; [reflexivity |]; left; split; reflexivity).
    + wp_step; [apply orb_true_iff in Heqb0 as [? | ?]; [discriminate | lia] |].
      repeat wp_step. unfold open_file_facts_post, set_ofile. kill_units.
      cbn [trace kproc kworld sz pgdir pid ofile].
      eexists; split; [solve_logged |]. split; [reflexivity |]. right.
      split; [lia |]. exists r. split; [apply Z.eqb_neq; assumption |].
      split; [| reflexivity].
      apply list_lookup_insert_eq. apply lookup_lt_Some in Hl. exact Hl.
Qed.

Lemma iloads_app l1 l2 : iloads (l1 ++ l2) = iloads l1 ++ iloads l2.
Proof. unfold iloads. apply flat_map_app. Qed.

Lemma the_opener_facts p om s : wp (the_opener p om) s (opener_facts_post p om s).
Proof.
  rewrite the_opener_unfold. wp_step. wp_step. wp_step. kill_units.
  wp_use open_inode_facts; try exact I.
  destruct Hpost as (l & Hl & Hp & Hshape). cbn [kproc] in Hp.
  assert (Hl0 : logged ([Ev Begin_op tt] ++ l) s s0).
  { eapply logged_trans; [| exact Hl]. solve_logged. }
  wp_step.
  - wp_step. unfold opener_facts_post. eexists. split; [exact Hl0 |].
    apply Z.eqb_eq in Heqb. subst a. split; [| intros H; contradiction H; reflexivity].
    intros ip Hnc Hrw Hty. specialize (Hshape Hnc).
    destruct Hshape as [(_ & ->) | [(_ & _ & ip' & ->) | (Hne & _)]];
      [discriminate Hty | | contradiction Hne; reflexivity].
    cbn in Hty. injection Hty as <-. repeat split; assumption.
  - wp_use open_file_facts; try exact I.
    destruct Hpost as (l2 & Hl2 & Hno & Hcase). unfold opener_facts_post.
    exists (([Ev Begin_op tt] ++ l) ++ l2). split.
    { eapply logged_trans; eassumption. }
    apply Z.eqb_neq in Heqb. split.
    + intros ip Hnc Hrw Hty. specialize (Hshape Hnc).
      destruct Hshape as [(H0 & _) | [(H0 & _) | (_ & t & Ht & ->)]];
        [contradiction | contradiction |].
      rewrite iloads_app, Hno in Hty. cbn in Hty. injection Hty as _ ->.
      destruct Ht; contradiction.
    + intros Hfd. destruct Hcase as [(-> & _) | (_ & f & Hf & Hslot & ->)];
        [contradiction Hfd; reflexivity |].
      exists ([Ev Begin_op tt] ++ l), f, a. repeat split; assumption.
Qed.

Lemma sys_open_unfold :
  sys_open =
  ('(r, path) ← do_call (Argstr 0);
   if r <? 0 then mret (-1) else
   '(r, omode) ← do_call (Argint 1);
   if r <? 0 then mret (-1) else the_opener path omode).
Proof. reflexivity. Qed.

Lemma sys_open_ledger s : wp sys_open s (open_ledger_post 0 s).
Proof.
  rewrite sys_open_unfold. wp_step. wp_step. destruct r as [r1 path]. cbv beta iota.
  wp_step.
  { wp_step. unfold open_ledger_post. exists [Ev (Argstr 0) (r1, path)], 0.
    split; [solve_logged |]. split; [lia |]. split; [lia |]. solve_ledger. }
  wp_step. wp_step. destruct r as [r2 omode]. cbv beta iota.
  wp_step.
  { wp_step. unfold open_ledger_post.
    exists [Ev (Argstr 0) (r1, path); Ev (Argint 1) (r2, omode)], 0.
    split; [solve_logged |]. split; [lia |]. split; [lia |]. solve_ledger. }
  eapply wp_conseq; [apply the_opener_ledger |].
  intros [fd s'|s'|msg s'|s'|s'] Ho; simpl in *; try exact I.
  destruct Ho as (l & b & Hl & Hb & Hfd & Hg).
  assert (b = 1) as -> by lia.
  assert (H0 : exists l', logged l' s s' /\ ledger l' 1 1 (one_if (0 <=? fd)) (fun _ => 0)).
  { eapply ledger_snoc; [| | exact Hl | exact Hg | ..];
      [solve_logged | solve_ledger | reflexivity .. | intros x; reflexivity]. }
  destruct H0 as (l' & Hl' & Hg').
  exists l', 1. split; [exact Hl' |]. split; [lia |]. split; [reflexivity | exact Hg'].
Qed.

(** X10 (an open settles what it takes).  Along every run of
    [the_opener] that returns, [begin_op] and [end_op] are called once
    each and every inode lock taken is released; a file stays allocated
    exactly when a descriptor is returned: on the failure paths the file
    obtained from [filealloc], if any, is closed again.  The same holds
    of [sys_open], except that a run whose argument fetch fails returns
    before [begin_op]: it calls [end_op] as often as [begin_op], at most
    once, and returns a descriptor only after a transaction. *)
Theorem opens_settle_transaction_locks_and_file :
  (forall p om s fd s',
     the_opener p om s = Ret fd s' ->
     exists l, logged l s s' /\
       tally begin_wt l = 1 /\ tally end_wt l = 1 /\
       tally file_wt l = one_if (0 <=? fd) /\
       forall x, held x l = 0) /\
  (forall s fd s',
     sys_open s = Ret fd s' ->
     exists l b, logged l s s' /\ 0 <= b <= 1 /\ (0 <= fd -> b = 1) /\
       tally begin_wt l = b /\ tally end_wt l = b /\
       tally file_wt l = one_if (0 <=? fd) /\
       forall x, held x l = 0).
Proof.
  split.
  - intros p om s fd s' E.
    pose proof (the_opener_ledger p om s) as H. unfold wp in H. rewrite E in H.
    destruct H as (l & b & Hl & Hb & _ & Hg). assert (b = 1) as -> by lia.
    exists l. split; [exact Hl | exact Hg].
  - intros s fd s' E.
    pose proof (sys_open_ledger s) as H. unfold wp in H. rewrite E in H. exact H.
Qed.

(** X11 (a directory is opened read-only or not at all).  Without
    O_CREATE and with a mode other than O_RDONLY, an open whose path names
    an inode of type T_DIR returns -1.  Its calls are exactly [begin_op],
    [namei], [ilock], the read of the type, [iunlockput] and [end_op]: no
    file is allocated and the process is untouched. *)
Theorem the_opener_refuses_writable_directory p om s fd s' l ip :
  the_opener p om s = Ret fd s' ->
  trace s' = trace s ++ l ->
  Z.land om O_CREATE = 0 ->
  om <> O_RDONLY ->
  List.filter is_type (iloads l) = [(I_type, ip, T_DIR)] ->
  fd = -1 /\ kproc s' = kproc s /\ l = refused_dir p ip.
Proof.
  intros E Ht Hnc Hrw Hty. pose proof (the_opener_facts p om s) as H.
  unfold wp in H. rewrite E in H. destruct H as (l' & Hl & Hdir & _).
  rewrite (logged_unique _ _ _ _ Hl Ht) in *. exact (Hdir ip Hnc Hrw Hty).
Qed.

(** X12 (the descriptor returned names the file set up).  When
    [the_opener] returns a descriptor, the slot of that descriptor holds
    the non-null file that [filealloc] returned, and the run ends with:
    the inode unlocked, the transaction ended, and that file given the type
    FD_INODE, the inode, the offset 0, readable unless O_WRONLY is set and
    writable if O_WRONLY or O_RDWR is set. *)
Theorem the_opener_installs_the_file_it_sets_up p om s fd s' l :
  the_opener p om s = Ret fd s' ->
  trace s' = trace s ++ l ->
  fd <> -1 ->
  exists l0 f ip, f <> 0 /\ ip <> 0 /\
    ofile (kproc s') !! Z.to_nat fd = Some f /\ l = l0 ++ installed om f ip.
Proof.
  intros E Ht Hfd. pose proof (the_opener_facts p om s) as H.
  unfold wp in H. rewrite E in H. destruct H as (l' & Hl & _ & Hok).
  rewrite (logged_unique _ _ _ _ Hl Ht) in *. exact (Hok Hfd).
Qed.

(** ** sys_link *)

Ltac log_red ::=
  cbn [app flat_map lookups iallocs istores dirlinks iloads changes_fs forallb negb andb
       List.filter is_type is_nlink is_inum is_dev fst snd].

Ltac crush :=
  intros; simplify_eq;
  solve [ lia | congruence | reflexivity | assumption
        | split; crush | eexists; crush | left; crush | right; crush ].

Ltac solve_balance :=
  first [ exists 0; split; [lia |]; solve [solve_ledger]
        | exists 1; split; [lia |]; solve [solve_ledger] ].

Lemma sys_link_spec s : wp sys_link s (link_post s).
Proof.
  unfold sys_link, link_bad.
  repeat wp_step; unfold link_post; kill_units;
    (eexists; split; [split; [reflexivity | solve_logged] |]); eqb_facts; unfold link_facts.
  all: split; [auto |].
  all: split; [solve_balance |].
  all: log_red; eqb_props.
  all: repeat (split; [crush |]).
  all: try crush.
Qed.

(** X13 (sys_link always returns, with its transaction and locks
    settled).  [sys_link] returns 0 or -1 from every state and leaves the
    process untouched.  It calls [end_op] as often as [begin_op], at most
    once, and releases every inode lock it takes, on the failure paths
    after the label [bad] as well. *)
Theorem sys_link_returns_with_transaction_and_locks_settled s :
  exists r s' l b, sys_link s = Ret r s' /\ (r = 0 \/ r = -1) /\
    continues l s s' /\ 0 <= b <= 1 /\
    tally begin_wt l = b /\ tally end_wt l = b /\
    forall x, held x l = 0.
Proof.
  pose proof (sys_link_spec s) as H. unfold wp in H.
  destruct (sys_link s) as [r s'|s'|msg s'|s'|s']; simpl in H; try contradiction.
  destruct H as (l & Hc & Hr & (b & Hb & B & E & _ & Hh) & _).
  exists r, s', l, b. split; [reflexivity |]. split; [assumption |].
  split; [assumption |]. split; [assumption |]. split; [assumption |].
  split; assumption.
Qed.


(** X15 (sys_link refuses directories).  When the old path names an
    inode of type T_DIR, [sys_link] returns -1 and has changed nothing in
    the file system: no store, no [iupdate], no directory entry. *)
Theorem sys_link_refuses_directories s r s' l ip :
  sys_link s = Ret r s' ->
  trace s' = trace s ++ l ->
  List.filter is_type (iloads l) = [(I_type, ip, T_DIR)] ->
  r = -1 /\ forallb (fun e => negb (changes_fs e)) l = true.
Proof.
  intros E Ht Hty. pose proof (sys_link_spec s) as H. unfold wp in H. rewrite E in H.
  destruct H as (l' & [_ Hl] & _ & _ & _ & _ & Hdir & _).
  rewrite (logged_unique _ _ _ _ Hl Ht) in *. exact (Hdir ip Hty).
Qed.

(** X16 (sys_link does not link across devices).  When the parent of the
    new path is on another device than the old inode, [sys_link] returns
    -1 without calling [dirlink]. *)
Theorem sys_link_refuses_other_devices s r s' l dp ip d1 d2 :
  sys_link s = Ret r s' ->
  trace s' = trace s ++ l ->
  List.filter is_dev (iloads l) = [(I_dev, dp, d1); (I_dev, ip, d2)] ->
  d1 <> d2 ->
  r = -1 /\ dirlinks l = [].
Proof.
  intros E Ht Hdev Hne. pose proof (sys_link_spec s) as H. unfold wp in H. rewrite E in H.
  destruct H as (l' & [_ Hl] & _ & _ & _ & _ & _ & Hd).
  rewrite (logged_unique _ _ _ _ Hl Ht) in *. exact (Hd dp ip d1 d2 Hdev Hne).
Qed.

(** ** sys_mkdir and sys_mknod *)

Lemma create_all path type major minor s :
  wp (create path type major minor) s (create_all_post type major minor s).
Proof.
  pose proof (create_spec path type major minor s) as H1.
  pose proof (create_ledger path type major minor s) as H2.
  pose proof (create_facts path type major minor s) as H3.
  unfold wp in *. destruct (create path type major minor s) as [r s'|s'|msg s'|s'|s'];
    simpl in *; try contradiction; [| assumption].
  destruct H1 as (l & Hc & _). destruct H2 as (l2 & Hl2 & Hg).
  destruct H3 as (l3 & Hl3 & Hf & Hm).
  assert (l2 = l) as -> by (apply (logged_unique _ _ _ _ (continues_logged _ _ _ Hc)), Hl2).
  assert (l3 = l) as -> by (apply (logged_unique _ _ _ _ (continues_logged _ _ _ Hc)), Hl3).
  exists l. split; [assumption |]. split; [assumption |]. split; assumption.
Qed.

Lemma lookups_app l1 l2 : lookups (l1 ++ l2) = lookups l1 ++ lookups l2.
Proof. apply flat_map_app. Qed.

Lemma iallocs_app l1 l2 : iallocs (l1 ++ l2) = iallocs l1 ++ iallocs l2.
Proof. apply flat_map_app. Qed.

Lemma istores_app l1 l2 : istores (l1 ++ l2) = istores l1 ++ istores l2.
Proof. apply flat_map_app. Qed.

Lemma dirlinks_app l1 l2 : dirlinks (l1 ++ l2) = dirlinks l1 ++ dirlinks l2.
Proof. apply flat_map_app. Qed.

(** Calls around a run of [create] that are not calls to the file system
    proper leave what is known of the run as it is. *)
Lemma create_found_framed type r pre l post :
  plain pre -> plain post -> create_found type r l -> create_found type r (pre ++ l ++ post).
Proof.
  intros (P1 & P2 & P3 & P4 & P5 & P6) (Q1 & Q2 & Q3 & Q4 & Q5 & Q6) H dp name ip.
  rewrite !lookups_app, !iloads_app, !forallb_app, P1, P5, P6, Q1, Q5, Q6.
  cbn [app]. rewrite !app_nil_r, andb_true_r. apply H.
Qed.

Lemma create_made_framed type major minor r pre l post :
  plain pre -> plain post ->
  create_made type major minor r l -> create_made type major minor r (pre ++ l ++ post).
Proof.
  intros (P1 & P2 & P3 & P4 & P5 & P6) (Q1 & Q2 & Q3 & Q4 & Q5 & Q6) H dp name.
  rewrite !lookups_app, !iloads_app, !iallocs_app, !istores_app, !dirlinks_app,
    P1, P2, P3, P4, P5, Q1, Q2, Q3, Q4, Q5.
  cbn [app]. rewrite !app_nil_r. apply H.
Qed.

Ltac solve_plain := unfold plain; log_red; repeat split; reflexivity.

Lemma mk_tail_spec type major minor pre l s s1 s2 ip :
  continues pre s s1 -> plain pre -> ledger pre 1 0 0 (fun _ => 0) ->
  continues l s1 s2 ->
  ledger l 0 0 0 (fun x => if ip =? 0 then 0 else one_if (ip =? x)) ->
  create_found type ip l -> create_made type major minor ip l ->
  wp (mk_tail ip) s2 (mk_tail_post type major minor pre l s).
Proof.
  intros Hpre Hplain Hgpre Hc Hg Hfound Hmade.
  pose proof (continues_trans _ _ _ _ _ Hpre Hc) as Hc2.
  pose proof (ledger_app _ _ _ _ _ _ _ _ _ _ Hgpre Hg) as Hg2.
  unfold mk_tail. wp_step.
  - repeat wp_step. kill_units. unfold mk_tail_post. exists [Ev End_op tt].
    rewrite app_assoc. split.
    { eapply continues_trans; [exact Hc2 |]. split; [reflexivity | solve_logged]. }
    unfold mk_facts. split; [auto |]. split.
    { eapply ledger_eq; [eapply ledger_app; [exact Hg2 | solve_ledger] | ..];
        try reflexivity; try (intros x; cbv beta; rewrite ?Heqb; lia). }
    rewrite <- app_assoc. split.
    + intros dp name ip' Hlk Hip Hty. split; [reflexivity |].
      apply (create_found_framed type ip pre l [Ev End_op tt] Hplain ltac:(solve_plain)
               Hfound dp name ip' Hlk Hip).
    + intros dp name Hlk.
      destruct (create_made_framed type major minor ip pre l [Ev End_op tt] Hplain
                  ltac:(solve_plain) Hmade dp name Hlk) as (Hne & _).
      apply Z.eqb_eq in Heqb. contradiction.
  - repeat wp_step. kill_units. unfold mk_tail_post.
    exists [Ev (Iunlockput ip) tt; Ev End_op tt].
    rewrite app_assoc. split.
    { eapply continues_trans; [exact Hc2 |]. split; [reflexivity | solve_logged]. }
    unfold mk_facts. split; [auto |]. split.
    { eapply ledger_eq; [eapply ledger_app; [exact Hg2 | solve_ledger] | ..];
        try reflexivity; try (intros x; cbv beta; rewrite ?Heqb; lia). }
    rewrite <- app_assoc. apply Z.eqb_neq in Heqb. split.
    + intros dp name ip' Hlk Hip Hty.
      destruct (create_found_framed type ip pre l [Ev (Iunlockput ip) tt; Ev End_op tt]
                  Hplain ltac:(solve_plain) Hfound dp name ip' Hlk Hip)
        as (_ & [(_ & Hf & _) | (H0 & _)]); contradiction.
    + intros dp name Hlk. split; [reflexivity |]. exists ip.
      apply (create_made_framed type major minor ip pre l
               [Ev (Iunlockput ip) tt; Ev End_op tt] Hplain ltac:(solve_plain) Hmade).
Qed.

Lemma sys_mkdir_unfold :
  sys_mkdir =
  (do_call Begin_op;;
   '(r, path) ← do_call (Argstr 0);
   if r <? 0 then
     do_call End_op;;
     mret (-1)
   else
   ip ← create path T_DIR 0 0;
   mk_tail ip).
Proof. reflexivity. Qed.

Lemma sys_mkdir_spec s : wp sys_mkdir s (mkdir_post s).
Proof.
  rewrite sys_mkdir_unfold. wp_step. wp_step. wp_step. wp_step. destruct r0 as [r1 path].
  cbv beta iota. kill_units. wp_step.
  { repeat wp_step. kill_units. unfold mkdir_post.
    eexists. split; [split; [reflexivity | solve_logged] |]. unfold mk_facts.
    split; [auto |]. split; [solve_ledger |]. log_red. split; crush. }
  wp_step. wp_use create_all; [| assumption].
  destruct Hpost as (l & Hc & Hg & Hfound & Hmade).
  eapply wp_conseq.
  { eapply (mk_tail_spec T_DIR 0 0 [Ev Begin_op tt; Ev (Argstr 0) (r1, path)] l s);
      [| solve_plain | solve_ledger | exact Hc | exact Hg | exact Hfound | exact Hmade].
    split; [reflexivity | solve_logged]. }
  intros [r s'|s'|msg s'|s'|s'] Ho; simpl in Ho |- *; try contradiction.
  destruct Ho as (post & Hc' & Hf). eexists. split; [exact Hc' | exact Hf].
Qed.

Lemma sys_mknod_unfold :
  sys_mknod =
  (do_call Begin_op;;
   '(len, path) ← do_call (Argstr 0);
   if len <? 0 then
     do_call End_op;;
     mret (-1)
   else
   '(r, major) ← do_call (Argint 1);
   if r <? 0 then
     do_call End_op;;
     mret (-1)
   else
   '(r, minor) ← do_call (Argint 2);
   if r <? 0 then
     do_call End_op;;
     mret (-1)
   else
   ip ← create path T_DEV (to_short major) (to_short minor);
   mk_tail ip).
Proof. reflexivity. Qed.

Lemma sys_mknod_spec s : wp sys_mknod s (mknod_post s).
Proof.
  rewrite sys_mknod_unfold. wp_step. wp_step. wp_step. wp_step. destruct r0 as [r0 path].
  cbv beta iota. kill_units. wp_step.
  { repeat wp_step. kill_units. unfold mknod_post.
    eexists. split; [split; [reflexivity | solve_logged] |]. left.
    split; [reflexivity |]. split; [reflexivity | solve_ledger]. }
  wp_step. wp_step. destruct r as [r1 major]. cbv beta iota. wp_step.
  { repeat wp_step. kill_units. unfold mknod_post.
    eexists. split; [split; [reflexivity | solve_logged] |]. left.
    split; [reflexivity |]. split; [reflexivity | solve_ledger]. }
  wp_step. wp_step. destruct r as [r2 minor]. cbv beta iota. wp_step.
  { repeat wp_step. kill_units. unfold mknod_post.
    eexists. split; [split; [reflexivity | solve_logged] |]. left.
    split; [reflexivity |]. split; [reflexivity | solve_ledger]. }
  wp_step. wp_use create_all; [| assumption].
  destruct Hpost as (l & Hc & Hg & Hfound & Hmade).
  eapply wp_conseq.
  { eapply (mk_tail_spec T_DEV (to_short major) (to_short minor)
              [Ev Begin_op tt; Ev (Argstr 0) (r0, path); Ev (Argint 1) (r1, major);
               Ev (Argint 2) (r2, minor)] l s);
      [| solve_plain | solve_ledger | exact Hc | exact Hg | exact Hfound | exact Hmade].
    split; [reflexivity | solve_logged]. }
  intros [r s'|s'|msg s'|s'|s'] Ho; simpl in Ho |- *; try contradiction.
  destruct Ho as (post & Hc' & Hf). eexists. split; [exact Hc' |]. right.
  exists r0, path, r1, major, r2, minor, (l ++ post). split; [reflexivity | exact Hf].
Qed.

(** X17 (mkdir of an existing name fails).  When the lookup in the parent
    finds the name, [sys_mkdir] returns -1 and has changed nothing in the
    file system, whatever the inode found is (T_DIR and T_FILE being
    different types). *)
Theorem sys_mkdir_refuses_existing_name s r s' l dp name ip :
  sys_mkdir s = Ret r s' ->
  trace s' = trace s ++ l ->
  lookups l = [(dp, name, ip)] ->
  ip <> 0 ->
  T_DIR <> T_FILE ->
  r = -1 /\ forallb (fun e => negb (changes_fs e)) l = true.
Proof.
  intros E Ht Hlk Hip Hty. pose proof (sys_mkdir_spec s) as H. unfold wp in H.
  rewrite E in H. destruct H as (l' & [_ Hl] & _ & _ & Hfound & _).
  rewrite (logged_unique _ _ _ _ Hl Ht) in *. exact (Hfound dp name ip Hlk Hip Hty).
Qed.


Lemma settled_of_facts type major minor s r s' l :
  continues l s s' -> mk_facts type major minor r l -> settled_post s (Ret r s').
Proof.
  intros Hc (Hr & Hg & _). split; [assumption |]. exists l. split; [assumption | exact Hg].
Qed.

(** X19 (sys_mkdir and sys_mknod settle their transaction).  Both system
    calls return 0 or -1 or stop in one of the three panics of [create].
    Every return, the early ones on a bad argument included, has called
    [begin_op] and [end_op] once each, has released every inode lock, the
    one on the inode that [create] returned locked included, and has left
    the process untouched. *)
Theorem sys_mkdir_and_sys_mknod_settle s :
  settled_post s (sys_mkdir s) /\ settled_post s (sys_mknod s).
Proof.
  split.
  - pose proof (sys_mkdir_spec s) as H. unfold wp in H.
    destruct (sys_mkdir s) as [r s'|s'|msg s'|s'|s']; simpl in H; try contradiction;
      [| exact H].
    destruct H as (l & Hc & Hf). eapply settled_of_facts; eassumption.
  - pose proof (sys_mknod_spec s) as H. unfold wp in H.
    destruct (sys_mknod s) as [r s'|s'|msg s'|s'|s']; simpl in H; try contradiction;
      [| exact H].
    destruct H as (l & Hc & [(-> & _ & Hg) | (r0 & path & r1 & major & r2 & minor & rest & _ & Hf)]).
    + split; [auto |]. exists l. split; [assumption | exact Hg].
    + eapply settled_of_facts; eassumption.
Qed.

Lemma to_short_range z : - 2 ^ 15 <= to_short z < 2 ^ 15.
Proof. unfold to_short. pose proof (Z.mod_pos_bound (z + 2 ^ 15) (2 ^ 16)). lia. Qed.

Lemma to_short_congruent z : (to_short z - z) mod 2 ^ 16 = 0.
Proof.
  unfold to_short.
  replace ((z + 2 ^ 15) mod 2 ^ 16 - 2 ^ 15 - z)
    with ((z + 2 ^ 15) mod 2 ^ 16 - (z + 2 ^ 15)) by lia.
  rewrite Zminus_mod, Z.mod_mod, Z.sub_diag by lia. reflexivity.
Qed.

(** X20 (sys_mknod passes its numbers as shorts).  When the lookup in the
    parent does not find the name, a [sys_mknod] that returns returns 0,
    having fetched the path, the major and the minor number in this order
    inside the transaction.  The inode it made has the type T_DEV and the
    link count 1; its major and minor numbers are the fetched ints
    converted to 16 bits: the values in [-32768, 32768) congruent to them
    modulo 65536.  (T_DEV and T_DIR are different types.) *)
Theorem sys_mknod_passes_numbers_as_shorts s r s' l dp name :
  sys_mknod s = Ret r s' ->
  trace s' = trace s ++ l ->
  lookups l = [(dp, name, 0)] ->
  T_DEV <> T_DIR ->
  r = 0 /\
  exists r0 path r1 major r2 minor rest dev ip inum res,
    l = [Ev Begin_op tt; Ev (Argstr 0) (r0, path); Ev (Argint 1) (r1, major);
         Ev (Argint 2) (r2, minor)] ++ rest /\
    iallocs l = [(dev, T_DEV, ip)] /\
    istores l = [(I_major, ip, to_short major); (I_minor, ip, to_short minor);
                 (I_nlink, ip, 1)] /\
    dirlinks l = [(dp, name, inum, res)] /\
    - 2 ^ 15 <= to_short major < 2 ^ 15 /\ (to_short major - major) mod 2 ^ 16 = 0 /\
    - 2 ^ 15 <= to_short minor < 2 ^ 15 /\ (to_short minor - minor) mod 2 ^ 16 = 0.
Proof.
  intros E Ht Hlk Hty. pose proof (sys_mknod_spec s) as H. unfold wp in H.
  rewrite E in H. destruct H as (l' & [_ Hl] & Hcase).
  rewrite (logged_unique _ _ _ _ Hl Ht) in *.
  destruct Hcase as [(_ & Hno & _) | (r0 & path & r1 & major & r2 & minor & rest & Hshape & Hf)];
    [rewrite Hno in Hlk; discriminate |].
  destruct Hf as (_ & _ & _ & Hmade).
  destruct (Hmade dp name Hlk) as (-> & ip & Hm). split; [reflexivity |].
  destruct (Hm dp name Hlk) as (Hne & (dev & Ha) & inum & res & Hd & Hres).
  destruct (T_DEV =? T_DIR) eqn:Et; [apply Z.eqb_eq in Et; contradiction |].
  destruct Hd as (H1 & H2 & H3).
  exists r0, path, r1, major, r2, minor, rest, dev, ip, inum, res.
  split; [assumption |]. split; [assumption |]. split; [assumption |].
  split; [assumption |].
  split; [apply to_short_range |]. split; [apply to_short_congruent |].
  split; [apply to_short_range | apply to_short_congruent].
Qed.

(** ** Calls of the second alphabet *)

Lemma wp_more {R} (c : call2 R) s (Q : outcome R -> Prop) :
  (forall w r, ext2 c (kworld s) = (w, r) ->
               Q (Ret r (KState (kproc s) w (trace s)))) ->
  wp (do_more c) s Q.
Proof.
  intros H. unfold wp, do_more. destruct (ext2 c (kworld s)) as [w r] eqn:E. auto.
Qed.

Ltac wp_step2 :=
  lazymatch goal with
  | |- wp (do_more _) _ _ =>
      let H := fresh "Hext" in
      apply wp_more; intros ? ? H;
      cbv beta iota delta [set_ofile] in H; cbn [kworld] in H; wp_red
  | |- _ => wp_step
  end.

(** ** sys_dup *)

Lemma sys_dup_spec s : wp sys_dup s (dup_post s).
Proof.
  unfold sys_dup. wp_step. wp_use argfd_spec.
  - destruct a as [[r old] f]. destruct Hpost as (ra & v & [Hp [Ht Hr]] & Hcase).
    apply replays_one in Hr. wp_step.
    + wp_step. unfold dup_post. exists ra, v, (kworld s0).
      split; [assumption |]. split; [assumption |]. left. auto.
    + destruct Hcase as [(_ & Hra & -> & Hv & Hf & Hslot) | (-> & _)]; [| discriminate].
      wp_step. wp_use fdalloc_lowest.
      * destruct Hpost as [(-> & -> & _) | (Hfd & Hfree & Hlow & ->)].
        -- wp_step; [| discriminate]. wp_step. unfold dup_post. exists ra, v, (kworld s0).
           split; [assumption |]. split; [assumption |]. left. auto.
        -- wp_step; [lia |]. wp_step. wp_step2. wp_step. unfold dup_post.
           exists ra, v, (kworld s0). cbn [kproc kworld trace].
           split; [assumption |]. split; [assumption |]. right.
           split; [lia |]. split; [assumption |]. exists f.
           rewrite Hp in *. rewrite Hext. repeat split; (assumption || lia).
      * destruct Hpost as [-> Hlen]. rewrite Hp in Hlen. exact Hlen.
  - destruct Hpost as (ra & v & [Hp _] & _ & Hv & Hnone).
    unfold dup_post. apply lookup_ge_None in Hnone. lia.
Qed.

(** X21 (sys_dup shares the file under the lowest free descriptor).  When
    [sys_dup] returns a descriptor, it is the lowest free one; the
    descriptor passed is another, valid one, and both now hold the same
    non-null file, on which [filedup] was called; no other slot changed.
    When [sys_dup] returns -1 the process is untouched and [filedup] was
    not reached: the world is the one the argument fetch left. *)
Theorem sys_dup_shares_file_under_lowest_free_descriptor s fd s' :
  sys_dup s = Ret fd s' ->
  exists ra old w1,
    ext (Argint 0) (kworld s) = (w1, (ra, old)) /\
    (fd = -1 -> kproc s' = kproc s /\ kworld s' = w1) /\
    (fd <> -1 ->
     exists f, f <> 0 /\ 0 <= fd < NOFILE /\ 0 <= old < NOFILE /\ old <> fd /\
       ofile (kproc s) !! Z.to_nat fd = Some 0 /\
       (forall j, 0 <= j < fd -> ofile (kproc s) !! Z.to_nat j <> Some 0) /\
       ofile (kproc s') = <[Z.to_nat fd := f]> (ofile (kproc s)) /\
       ofile (kproc s') !! Z.to_nat old = Some f /\
       ofile (kproc s') !! Z.to_nat fd = Some f /\
       kworld s' = (ext2 (Filedup f) w1).1).
Proof.
  intros E. pose proof (sys_dup_spec s) as H. unfold wp in H. rewrite E in H.
  destruct H as (ra & old & w1 & Ha & _ & Hcase). exists ra, old, w1.
  split; [assumption |].
  destruct Hcase as [(-> & Hp & Hw) | (Hfd & Hold & f & Hf & Hslot & Hfree & Hlow & Hp & Hw)].
  - split; [auto | intros H; contradiction H; reflexivity].
  - split; [intros ->; lia |]. intros _. exists f.
    assert (Hne : old <> fd) by (intros ->; congruence).
    rewrite Hp. unfold set_ofile. cbn [kproc ofile].
    repeat split; try (assumption || lia).
    + rewrite list_lookup_insert_ne by lia. assumption.
    + apply list_lookup_insert_eq. apply lookup_lt_Some in Hfree. exact Hfree.
Qed.

(** ** sys_pipe *)

Lemma sys_pipe_spec s : wp sys_pipe s (pipe_post s).
Proof.
  unfold sys_pipe. wp_step. wp_step2. destruct r as [ra p]. cbv beta iota. wp_step.
  { wp_step. unfold pipe_post. exists ra, p, w. split; [assumption |]. left.
    apply Z.ltb_lt in Heqb. auto. }
  apply Z.ltb_ge in Heqb.
  wp_step. wp_step2. destruct r as [[rp rf] wf]. cbv beta iota. wp_step.
  { wp_step. unfold pipe_post. exists ra, p, w. split; [assumption |]. right.
    exists rp, rf, wf, w0. split; [assumption |]. split; [assumption |]. left.
    apply Z.ltb_lt in Heqb0. auto. }
  apply Z.ltb_ge in Heqb0.
  assert (Hhead : forall o, 
    (match o with
     | Ret r s' =>
         (r = -1 /\ kproc s' = kproc s /\
          logged [Ev (Fileclose rf) tt; Ev (Fileclose wf) tt]
                 (KState (kproc s) w0 (trace s)) s') \/
         (r = 0 /\
          exists fd0 fd1, 0 <= fd0 < NOFILE /\ 0 <= fd1 < NOFILE /\
            ofile (kproc s) !! Z.to_nat fd0 = Some 0 /\
            (forall j, 0 <= j < fd0 -> ofile (kproc s) !! Z.to_nat j <> Some 0) /\
            <[Z.to_nat fd0 := rf]> (ofile (kproc s)) !! Z.to_nat fd1 = Some 0 /\
            (forall j, 0 <= j < fd1 ->
               <[Z.to_nat fd0 := rf]> (ofile (kproc s)) !! Z.to_nat j <> Some 0) /\
            kproc s' = kproc (set_ofile (<[Z.to_nat fd1 := wf]>
                                (<[Z.to_nat fd0 := rf]> (ofile (kproc s)))) s) /\
            logged [Ev (Kstore p (le32 fd0)) tt; Ev (Kstore (p + 4) (le32 fd1)) tt]
                   (KState (kproc s) w0 (trace s)) s')
     | Undef _ => Z.of_nat (length (ofile (kproc s))) < NOFILE
     | _ => False
     end) -> pipe_post s o).
  { intros [r s'|s'|msg s'|s'|s'] Ho; simpl; try assumption.
    exists ra, p, w. split; [assumption |]. right. exists rp, rf, wf, w0.
    split; [assumption |]. split; [assumption |]. right.
    destruct Ho as [(-> & Ho) | (-> & Ho)]; [left | right]; auto. }
  eapply wp_conseq; [| exact Hhead]. clear Hhead.
  wp_step. wp_use fdalloc_lowest.
  - destruct Hpost as [(-> & -> & _) | (Hfd & Hfree & Hlow & ->)].
    + cbn [Z.ltb Z.leb Z.compare orb]. repeat wp_step. kill_units.
      left. split; [reflexivity |]. split; [reflexivity | solve_logged].
    + cbn [kproc ofile] in *.
      assert (E0 : (a <? 0) = false) by (apply Z.ltb_ge; lia).
      assert (E1 : (0 <=? a) = true) by (apply Z.leb_le; lia).
      rewrite E0, E1. cbn [orb]. wp_step.
      wp_use fdalloc_lowest.
      * cbn [kproc ofile sz pgdir pid kworld trace] in Hpost.
        destruct Hpost as [(-> & -> & _) | (Hfd1 & Hfree1 & Hlow1 & ->)].
        -- cbn [Z.ltb Z.compare]. wp_step.
           eapply (wp_ofile_set a 0 _ rf); [lia | |].
           { cbn [kproc ofile]. apply list_lookup_insert_eq.
             apply lookup_lt_Some in Hfree. exact Hfree. }
           wp_red. repeat wp_step. kill_units.
           left. split; [reflexivity |]. cbn [kproc ofile sz pgdir pid].
           split; [| solve_logged].
           rewrite list_insert_insert_eq, list_insert_id by assumption.
           destruct (kproc s); reflexivity.
        -- assert (E2 : (a0 <? 0) = false) by (apply Z.ltb_ge; lia).
           rewrite E2. repeat wp_step. kill_units. right. split; [reflexivity |].
           unfold set_ofile in Hfree1, Hlow1. cbn [kproc ofile] in Hfree1, Hlow1.
           exists a, a0. cbn [kproc ofile sz pgdir pid].
           repeat (split; [solve [assumption | lia | reflexivity] |]). solve_logged.
      * destruct Hpost as [_ Hlen]. unfold set_ofile in Hlen. cbn [kproc ofile] in Hlen.
        rewrite length_insert in Hlen. exact Hlen.
  - destruct Hpost as [_ Hlen]. exact Hlen.
Qed.

(** X22 (a failed sys_pipe leaves no descriptor behind).  When [sys_pipe]
    returns anything but 0, it returns -1 and the process, descriptor
    table included, is as before: a first descriptor already taken is
    given back.  If its argument was refused or [pipealloc] failed, it
    made no call of the log; otherwise the only logged calls are the two
    [fileclose] of the ends of the pipe, read end first. *)
Theorem sys_pipe_failure_leaves_no_descriptor s r s' :
  sys_pipe s = Ret r s' ->
  r <> 0 ->
  r = -1 /\ kproc s' = kproc s /\
  (trace s' = trace s \/
   exists ra p w1 rp rf wf w2,
     ext2 (Argptr 0 (2 * 4)) (kworld s) = (w1, (ra, p)) /\
     ext2 Pipealloc w1 = (w2, (rp, rf, wf)) /\ 0 <= ra /\ 0 <= rp /\
     logged [Ev (Fileclose rf) tt; Ev (Fileclose wf) tt]
            (KState (kproc s) w2 (trace s)) s').
Proof.
  intros E Hr. pose proof (sys_pipe_spec s) as H. unfold wp in H. rewrite E in H.
  destruct H as (ra & p & w1 & Ha & [(-> & _ & ->) | (rp & rf & wf & w2 & Hra & Hp & Hcase)]).
  { split; [reflexivity |]. split; [reflexivity |]. left. reflexivity. }
  destruct Hcase as [(-> & _ & ->) | [(-> & Hrp & Hk & Hl) | (-> & _)]];
    [| | contradiction Hr; reflexivity].
  - split; [reflexivity |]. split; [reflexivity |]. left. reflexivity.
  - split; [reflexivity |]. split; [assumption |]. right.
    exists ra, p, w1, rp, rf, wf, w2. repeat (split; [assumption |]). assumption.
Qed.

(** X23 (a successful sys_pipe installs both ends).  When [sys_pipe]
    returns 0, the read end sits in the lowest descriptor that was free
    and the write end in the lowest one free after that; no other slot
    changed.  With a non-null read end the two descriptors differ, the
    first being the smaller.  The two numbers are stored, in this order,
    at the address passed and four bytes after it, and these two stores
    are the only logged calls. *)
Theorem sys_pipe_success_installs_both_ends s s' :
  sys_pipe s = Ret 0 s' ->
  exists ra p w1 rp rf wf w2 fd0 fd1,
    ext2 (Argptr 0 (2 * 4)) (kworld s) = (w1, (ra, p)) /\
    ext2 Pipealloc w1 = (w2, (rp, rf, wf)) /\ 0 <= ra /\ 0 <= rp /\
    0 <= fd0 < NOFILE /\ 0 <= fd1 < NOFILE /\
    ofile (kproc s) !! Z.to_nat fd0 = Some 0 /\
    (forall j, 0 <= j < fd0 -> ofile (kproc s) !! Z.to_nat j <> Some 0) /\
    (forall j, 0 <= j < fd1 -> j <> fd0 -> ofile (kproc s) !! Z.to_nat j <> Some 0) /\
    (rf <> 0 -> fd0 < fd1 /\ ofile (kproc s) !! Z.to_nat fd1 = Some 0) /\
    ofile (kproc s') = <[Z.to_nat fd1 := wf]> (<[Z.to_nat fd0 := rf]> (ofile (kproc s))) /\
    logged [Ev (Kstore p (le32 fd0)) tt; Ev (Kstore (p + 4) (le32 fd1)) tt]
           (KState (kproc s) w2 (trace s)) s'.
Proof.
  intros E. pose proof (sys_pipe_spec s) as H. unfold wp in H. rewrite E in H.
  destruct H as (ra & p & w1 & Ha & [(Hr & _) | (rp & rf & wf & w2 & Hra & Hp & Hcase)]);
    [discriminate |].
  destruct Hcase as [(Hr & _) | [(Hr & _) | (_ & Hrp & fd0 & fd1 & H0 & H1 & Hf0 & Hl0 &
                                            Hf1 & Hl1 & Hk & Hl)]];
    [discriminate | discriminate |].
  exists ra, p, w1, rp, rf, wf, w2, fd0, fd1.
  repeat (split; [assumption |]). split.
  { intros j Hj Hne. specialize (Hl1 j Hj).
    rewrite list_lookup_insert_ne in Hl1 by lia. exact Hl1. }
  split.
  { intros Hrf.
    assert (Hne : fd1 <> fd0).
    { intros ->. rewrite list_lookup_insert_eq in Hf1
        by (apply lookup_lt_Some in Hf0; exact Hf0). congruence. }
    rewrite list_lookup_insert_ne in Hf1 by lia. split; [| assumption].
    destruct (Z_lt_le_dec fd1 fd0) as [Hlt | Hge]; [| lia].
    exfalso. apply (Hl0 fd1); [lia | assumption]. }
  split; [rewrite Hk; reflexivity | assumption].
Qed.

(** ** sys_chdir *)

Lemma sys_chdir_spec s : wp sys_chdir s (chdir_post s).
Proof.
  unfold sys_chdir.
  repeat wp_step2; unfold chdir_post; kill_units; eqb_facts;
    (split; [reflexivity |]);
    (eexists; split; [cbn [trace]; rewrite <- ?app_assoc; reflexivity |]);
    (split; [solve_ledger |]); cbn [app].
  1-3: left; split; [reflexivity |]; split; [solve_replays |];
       intros ip; log_red; eqb_props; congruence.
  right. split; [reflexivity |]. eqb_props. subst.
  do 7 eexists. split; [eassumption |]. split; [eassumption |].
  split; [reflexivity |]. cbn [take drop].
  split; [solve_replays |]. split; [eassumption |]. split; [solve_replays |]. assumption.
Qed.

(** X24 (sys_chdir enters directories only, and assigns last).  Every
    run of [sys_chdir] returns, 0 or -1, with the process untouched, one
    [begin_op] and one [end_op] called and every inode lock released.  A
    run that returns -1 changed the world through its logged calls only,
    so it did not assign [proc->cwd], and it is the only outcome when the
    inode found is not a T_DIR.  A run that returns 0 read the type T_DIR
    from the inode found, put the inode that was the current directory,
    and assigned the new one after the end of the transaction, as its
    last action. *)
Theorem sys_chdir_enters_directories_only s :
  exists r s' l, sys_chdir s = Ret r s' /\
    kproc s' = kproc s /\ trace s' = trace s ++ l /\
    tally begin_wt l = 1 /\ tally end_wt l = 1 /\ (forall x, held x l = 0) /\
    ((r = -1 /\ replays (kworld s) l (kworld s') /\
      forall ip, List.filter is_type (iloads l) <> [(I_type, ip, T_DIR)]) \/
     (r = 0 /\
      exists r0 path ip cwd wa wb wc,
        0 <= r0 /\ ip <> 0 /\ l = chdir_events r0 path ip cwd /\
        replays (kworld s) (take 6 l) wa /\
        ext2 Cwd_load wa = (wb, cwd) /\
        replays wb (drop 6 l) wc /\
        ext2 (Cwd_store ip) wc = (kworld s', tt))).
Proof.
  pose proof (sys_chdir_spec s) as H. unfold wp in H.
  destruct (sys_chdir s) as [r s'|s'|msg s'|s'|s']; simpl in H; try contradiction.
  destruct H as (Hp & l & Ht & (B & E & _ & Hh) & Hcase).
  exists r, s', l. repeat (split; [assumption || reflexivity |]). exact Hcase.
Qed.

(** ** sys_exec *)

Lemma kstate_eta (s : kstate) : KState (kproc s) (kworld s) (trace s) = s.
Proof. destruct s; reflexivity. Qed.

Lemma do_more_still {R} (c : call2 R) s r :
  ext2 c (kworld s) = (kworld s, r) -> do_more c s = Ret r s.
Proof. intros E. unfold do_more. rewrite E, kstate_eta. reflexivity. Qed.

Lemma strings_at_tail w uargv i p rest :
  (forall (k : nat) q, (p :: rest) !! k = Some q ->
     q <> 0 /\ word_at w (wrap32 (uargv + 4 * (i + Z.of_nat k))) q /\ string_at w q) ->
  forall (k : nat) q, rest !! k = Some q ->
     q <> 0 /\ word_at w (wrap32 (uargv + 4 * (i + 1 + Z.of_nat k))) q /\ string_at w q.
Proof.
  intros H k q Hk. specialize (H (S k) q Hk).
  replace (i + 1 + Z.of_nat k) with (i + Z.of_nat (S k)) by lia. exact H.
Qed.

Lemma exec_args_step fuel uargv i acc s p :
  i < MAXARG -> p <> 0 ->
  word_at (kworld s) (wrap32 (uargv + 4 * i)) p -> string_at (kworld s) p ->
  exec_args (S fuel) uargv i acc s = exec_args fuel uargv (i + 1) (acc ++ [p]) s.
Proof.
  intros Hi Hp (r & x & Hw & Hr & Hx) (len & Hs & Hlen).
  cbn [exec_args]. destruct (MAXARG <=? i) eqn:E; [apply Z.leb_le in E; lia |].
  unfold mbind, M_bind. unfold bind at 1. rewrite (do_more_still _ _ _ Hw).
  cbv beta iota. destruct (r <? 0) eqn:Er; [apply Z.ltb_lt in Er; lia |].
  rewrite Hx. destruct (p =? 0) eqn:Ep; [apply Z.eqb_eq in Ep; contradiction |].
  unfold bind at 1. rewrite (do_more_still _ _ _ Hs).
  destruct (len <? 0) eqn:El; [apply Z.ltb_lt in El; lia |]. reflexivity.
Qed.

Lemma exec_args_collect uargv : forall rest fuel i acc s,
  0 <= i -> i + Z.of_nat (length rest) < MAXARG -> (length rest < fuel)%nat ->
  (forall (k : nat) p, rest !! k = Some p ->
     p <> 0 /\ word_at (kworld s) (wrap32 (uargv + 4 * (i + Z.of_nat k))) p /\
     string_at (kworld s) p) ->
  word_at (kworld s) (wrap32 (uargv + 4 * (i + Z.of_nat (length rest)))) 0 ->
  exec_args fuel uargv i acc s = Ret (Some (acc ++ rest)) s.
Proof.
  induction rest as [|p rest IH]; intros fuel i acc s Hi Hmax Hfuel Hall Hnull.
  - destruct fuel as [|fuel]; [simpl in Hfuel; lia |].
    cbn [length] in *. replace (i + Z.of_nat 0) with i in Hnull by lia.
    destruct Hnull as (r & x & Hw & Hr & Hx).
    cbn [exec_args]. destruct (MAXARG <=? i) eqn:E; [apply Z.leb_le in E; lia |].
    unfold mbind, M_bind. unfold bind at 1. rewrite (do_more_still _ _ _ Hw).
    cbv beta iota. destruct (r <? 0) eqn:Er; [apply Z.ltb_lt in Er; lia |].
    rewrite Hx. cbn [Z.eqb]. rewrite app_nil_r. reflexivity.
  - destruct fuel as [|fuel]; [simpl in Hfuel; lia |]. cbn [length] in *.
    destruct (Hall O p eq_refl) as (Hp & Hw & Hs).
    replace (i + Z.of_nat 0) with i in Hw by lia.
    rewrite (exec_args_step fuel uargv i acc s p) by (lia || assumption).
    rewrite (IH fuel (i + 1) (acc ++ [p]) s); try lia.
    + rewrite <- app_assoc. reflexivity.
    + apply (strings_at_tail _ _ _ p). exact Hall.
    + replace (i + 1 + Z.of_nat (length rest)) with (i + Z.of_nat (S (length rest))) by lia.
      exact Hnull.
Qed.

Lemma exec_args_overflow uargv : forall rest fuel i acc s,
  0 <= i -> i + Z.of_nat (length rest) = MAXARG -> (length rest <= fuel)%nat ->
  (forall (k : nat) p, rest !! k = Some p ->
     p <> 0 /\ word_at (kworld s) (wrap32 (uargv + 4 * (i + Z.of_nat k))) p /\
     string_at (kworld s) p) ->
  exec_args fuel uargv i acc s = Ret None s.
Proof.
  induction rest as [|p rest IH]; intros fuel i acc s Hi Hmax Hfuel Hall.
  - cbn [length] in *.
    assert (E : (MAXARG <=? i) = true) by (apply Z.leb_le; lia).
    destruct fuel; cbn [exec_args]; rewrite E; reflexivity.
  - destruct fuel as [|fuel]; [simpl in Hfuel; lia |]. cbn [length] in *.
    destruct (Hall O p eq_refl) as (Hp & Hw & Hs).
    replace (i + Z.of_nat 0) with i in Hw by lia.
    rewrite (exec_args_step fuel uargv i acc s p) by (lia || assumption).
    apply IH; try lia. apply (strings_at_tail _ _ _ p). exact Hall.
Qed.

Lemma sys_exec_fetch s w1 r0 path w r1 uargv :
  ext (Argstr 0) (kworld s) = (w1, (r0, path)) -> 0 <= r0 ->
  ext (Argint 1) w1 = (w, (r1, uargv)) -> 0 <= r1 ->
  sys_exec s =
  (argv ← exec_args (S (Z.to_nat MAXARG)) (wrap32 uargv) 0 [];
   match argv with
   | None => mret (-1)
   | Some argv => do_more (Exec path argv)
   end)
    (KState (kproc s) w
       (trace s ++ [Ev (Argstr 0) (r0, path); Ev (Argint 1) (r1, uargv)])).
Proof.
  intros E0 H0 E1 H1. unfold sys_exec, mbind, M_bind.
  unfold bind at 1. unfold do_call at 1. rewrite E0.
  destruct (r0 <? 0) eqn:Er0; [apply Z.ltb_lt in Er0; lia |].
  unfold bind at 1. unfold do_call at 1. cbn [kworld]. rewrite E1.
  destruct (r1 <? 0) eqn:Er1; [apply Z.ltb_lt in Er1; lia |].
  cbn [kproc trace]. rewrite <- app_assoc. reflexivity.
Qed.

(** X25 (sys_exec hands over the pointers before the first null).  Let
    the two argument fetches succeed with a path and the address of an
    array, and let user memory hold at that address fewer than MAXARG
    non-null pointers to strings followed by a null word.  Then [sys_exec]
    calls [exec] with the path and exactly these pointers, in order, and
    returns what [exec] returns. *)
Theorem sys_exec_passes_pointers_before_null s w1 r0 path w r1 uargv ptrs :
  ext (Argstr 0) (kworld s) = (w1, (r0, path)) -> 0 <= r0 ->
  ext (Argint 1) w1 = (w, (r1, uargv)) -> 0 <= r1 ->
  Z.of_nat (length ptrs) < MAXARG ->
  strings_at w (wrap32 uargv) ptrs ->
  word_at w (wrap32 (wrap32 uargv + 4 * Z.of_nat (length ptrs))) 0 ->
  sys_exec s =
  Ret (ext2 (Exec path ptrs) w).2
      (KState (kproc s) (ext2 (Exec path ptrs) w).1
         (trace s ++ [Ev (Argstr 0) (r0, path); Ev (Argint 1) (r1, uargv)])).
Proof.
  intros E0 H0 E1 H1 Hlen Hall Hnull.
  rewrite (sys_exec_fetch s w1 r0 path w r1 uargv E0 H0 E1 H1).
  set (s1 := KState (kproc s) w
               (trace s ++ [Ev (Argstr 0) (r0, path); Ev (Argint 1) (r1, uargv)])).
  assert (Hargs : exec_args (S (Z.to_nat MAXARG)) (wrap32 uargv) 0 [] s1 =
                  Ret (Some ptrs) s1).
  { apply (exec_args_collect (wrap32 uargv) ptrs (S (Z.to_nat MAXARG)) 0 [] s1);
      try lia; try assumption. }
  unfold mbind, M_bind, bind. rewrite Hargs. unfold do_more, s1. cbn [kworld kproc trace].
  destruct (ext2 (Exec path ptrs) w) as [w' r]. reflexivity.
Qed.

(** X26 (sys_exec refuses an array without a null among MAXARG words).
    Let the two argument fetches succeed and let the first MAXARG words
    of the array all be non-null pointers to strings.  Then [sys_exec]
    returns -1 without calling [exec]: the world is the one the fetches
    left. *)
Theorem sys_exec_refuses_unterminated_array s w1 r0 path w r1 uargv ptrs :
  ext (Argstr 0) (kworld s) = (w1, (r0, path)) -> 0 <= r0 ->
  ext (Argint 1) w1 = (w, (r1, uargv)) -> 0 <= r1 ->
  Z.of_nat (length ptrs) = MAXARG ->
  strings_at w (wrap32 uargv) ptrs ->
  sys_exec s =
  Ret (-1) (KState (kproc s) w
              (trace s ++ [Ev (Argstr 0) (r0, path); Ev (Argint 1) (r1, uargv)])).
Proof.
  intros E0 H0 E1 H1 Hlen Hall.
  rewrite (sys_exec_fetch s w1 r0 path w r1 uargv E0 H0 E1 H1).
  set (s1 := KState (kproc s) w
               (trace s ++ [Ev (Argstr 0) (r0, path); Ev (Argint 1) (r1, uargv)])).
  assert (Hargs : exec_args (S (Z.to_nat MAXARG)) (wrap32 uargv) 0 [] s1 = Ret None s1).
  { apply (exec_args_overflow (wrap32 uargv) ptrs (S (Z.to_nat MAXARG)) 0 [] s1);
      try lia; try assumption. }
  unfold mbind, M_bind, bind. rewrite Hargs. reflexivity.
Qed.

(** ** isdirempty *)


Lemma isdirempty_loop_scan dp size : forall inums fuel off s,
  0 < sizeof_dirent -> 0 <= off -> size + sizeof_dirent <= 2 ^ 32 ->
  ext2 (Isize dp) (kworld s) = (kworld s, size) ->
  entries_at (kworld s) dp off inums ->
  (forall k : nat, (k < length inums)%nat -> off + sizeof_dirent * Z.of_nat k < size) ->
  size <= off + sizeof_dirent * Z.of_nat (length inums) ->
  (length inums < fuel)%nat ->
  isdirempty_loop fuel dp off s = Ret (c_bool (forallb (fun i => i =? 0) inums)) s.
Proof.
  induction inums as [|inum inums IH]; intros fuel off s Hsz Hoff Hmax Hsize Hent Hin Hout Hfuel.
  - cbn [length] in *. destruct fuel as [|fuel]; [lia |]. cbn [isdirempty_loop].
    unfold mbind, M_bind. unfold bind at 1. rewrite (do_more_still _ _ _ Hsize).
    destruct (off <? size) eqn:E; [apply Z.ltb_lt in E; lia |]. reflexivity.
  - cbn [length] in *. destruct fuel as [|fuel]; [lia |]. cbn [isdirempty_loop].
    unfold mbind, M_bind. unfold bind at 1. rewrite (do_more_still _ _ _ Hsize).
    pose proof (Hin O ltac:(lia)) as H0. replace (off + sizeof_dirent * Z.of_nat 0) with off in H0 by lia.
    destruct (off <? size) eqn:E; [| apply Z.ltb_ge in E; lia].
    destruct (Hent O inum eq_refl) as (data & Hread & Hnum).
    replace (off + sizeof_dirent * Z.of_nat 0) with off in Hread by lia.
    unfold bind at 1. rewrite (do_more_still _ _ _ Hread). cbv beta iota zeta.
    rewrite Z.eqb_refl. cbn [negb]. rewrite Hnum. cbn [forallb].
    destruct (inum =? 0) eqn:Ei; cbn [negb andb]; [| reflexivity].
    replace (wrap32 (off + sizeof_dirent)) with (off + sizeof_dirent)
      by (unfold wrap32; rewrite Z.mod_small; lia).
    apply IH; try lia; try assumption.
    + intros k i Hk. specialize (Hent (S k) i Hk).
      replace (off + sizeof_dirent + sizeof_dirent * Z.of_nat k)
        with (off + sizeof_dirent * Z.of_nat (S k)) by lia. exact Hent.
    + intros k Hk. specialize (Hin (S k) ltac:(lia)). lia.
Qed.

(** X27 (isdirempty tells whether an entry past the first two is in
    use).  Let the directory have the size [size], and let its entries
    from the third on, each of the size of a dirent and the last one
    possibly cut short by [size], carry the inode numbers [inums].  With
    fuel for one round more than there are entries, [isdirempty] returns
    1 if all these numbers are 0 and 0 otherwise, and leaves the state as
    it is; it does not panic. *)
Theorem isdirempty_checks_entries_past_the_dots dp size inums fuel s :
  0 < sizeof_dirent ->
  size + sizeof_dirent <= 2 ^ 32 ->
  ext2 (Isize dp) (kworld s) = (kworld s, size) ->
  entries_at (kworld s) dp (2 * sizeof_dirent) inums ->
  (forall k : nat, (k < length inums)%nat ->
     2 * sizeof_dirent + sizeof_dirent * Z.of_nat k < size) ->
  size <= 2 * sizeof_dirent + sizeof_dirent * Z.of_nat (length inums) ->
  (length inums < fuel)%nat ->
  isdirempty fuel dp s = Ret (c_bool (forallb (fun i => i =? 0) inums)) s.
Proof.
  intros Hsz Hmax Hsize Hent Hin Hout Hfuel. unfold isdirempty.
  apply (isdirempty_loop_scan dp size); try assumption. lia.
Qed.

(** ** sys_unlink *)

Ltac solve_traced := cbn [trace]; rewrite <- ?app_assoc; reflexivity.




Lemma bind_call_eq {R B} (c : call R) (k : R -> M B) s w r :
  ext c (kworld s) = (w, r) ->
  (do_call c ≫= k) s = k r (KState (kproc s) w (trace s ++ [Ev c r])).
Proof. intros E. rewrite bind_call, E. reflexivity. Qed.

(** X28 (the entries "." and ".." cannot be unlinked).  When the last
    element of the path compares equal to "." or to "..", [sys_unlink]
    returns -1, for every fuel.  Its calls are the argument fetch,
    [begin_op], [nameiparent], the lock and the release of the parent, and
    [end_op]; the world changes through these calls only, so no directory
    entry is looked up or written and no link count is touched. *)
Theorem sys_unlink_refuses_dot_names fuel s w1 r0 path w2 w3 dp name :
  ext (Argstr 0) (kworld s) = (w1, (r0, path)) ->
  0 <= r0 ->
  ext Begin_op w1 = (w2, tt) ->
  ext (Nameiparent path) w2 = (w3, (dp, name)) ->
  dp <> 0 ->
  namecmp name "." = 0 \/ namecmp name ".." = 0 ->
  exists s', sys_unlink fuel s = Ret (-1) s' /\
             continues (unlink_refused r0 path dp name) s s'.
Proof.
  intros E0 H0 E1 E2 Hdp Hdot. unfold sys_unlink, unlink_bad.
  rewrite (bind_call_eq _ _ _ _ _ E0). cbv beta iota.
  destruct (r0 <? 0) eqn:Er; [apply Z.ltb_lt in Er; lia |].
  rewrite (bind_call_eq _ _ _ w2 tt) by exact E1.
  rewrite (bind_call_eq _ _ _ w3 (dp, name)) by exact E2. cbv beta iota.
  destruct (dp =? 0) eqn:Ed; [apply Z.eqb_eq in Ed; contradiction |].
  destruct (ext (Ilock dp) w3) as [w4 []] eqn:E3.
  rewrite (bind_call_eq _ _ _ w4 tt) by exact E3.
  assert (Hc : (namecmp name "." =? 0) || (namecmp name ".." =? 0) = true).
  { apply orb_true_iff. destruct Hdot as [H | H]; [left | right]; apply Z.eqb_eq, H. }
  rewrite Hc.
  destruct (ext (Iunlockput dp) w4) as [w5 []] eqn:E4.
  rewrite (bind_call_eq _ _ _ w5 tt) by exact E4.
  destruct (ext End_op w5) as [w6 []] eqn:E5.
  rewrite (bind_call_eq _ _ _ w6 tt) by exact E5.
  eexists. split; [reflexivity |]. unfold unlink_refused.
  split; [reflexivity |]. split; [cbn [trace]; rewrite <- !app_assoc; reflexivity |].
  cbn [kworld]. solve_replays.
Qed.


(** ** sys_read, sys_write and sys_fstat *)

Lemma argfd_cases n s (Q : outcome (Z * Z * Z) -> Prop) :
  (forall ra fd s1, continues [Ev (Argint n) (ra, fd)] s s1 ->
     (ra < 0 \/ forall f, ~ names_file s fd f) -> Q (Ret (-1, 0, 0) s1)) ->
  (forall ra fd f s1, continues [Ev (Argint n) (ra, fd)] s s1 ->
     0 <= ra -> names_file s fd f -> Q (Ret (0, fd, f) s1)) ->
  (forall s1, Z.of_nat (length (ofile (kproc s))) < NOFILE -> Q (Undef s1)) ->
  wp (argfd n) s Q.
Proof.
  intros Hbad Hok Hundef. unfold argfd. wp_step. wp_step. destruct r as [ra v].
  cbv beta iota. wp_step.
  { wp_step. apply (Hbad ra v); [split; [reflexivity | solve_logged] |].
    left. apply Z.ltb_lt. assumption. }
  wp_step.
  { wp_step. apply (Hbad ra v); [split; [reflexivity | solve_logged] |].
    right. intros f (Hv & _). apply orb_true_iff in Heqb0 as [H | H];
      [apply Z.ltb_lt in H | apply Z.leb_le in H]; lia. }
  apply Z.ltb_ge in Heqb. apply orb_false_iff in Heqb0 as [H1 H2].
  apply Z.ltb_ge in H1. apply Z.leb_gt in H2.
  wp_step. apply wp_get_slot; [assumption | |]; cbn [kproc kworld trace].
  - intros f Hf. wp_red. wp_step; wp_step.
    + apply (Hbad ra v); [split; [reflexivity | solve_logged] |].
      right. intros f' (_ & Hne & Hs). apply Z.eqb_eq in Heqb0. congruence.
    + apply (Hok ra v f); [split; [reflexivity | solve_logged] | assumption |].
      apply Z.eqb_neq in Heqb0. repeat split; (assumption || lia).
  - intros Hnone. apply Hundef. apply lookup_ge_None in Hnone. lia.
Qed.

Lemma transfer_spec op s : wp (transfer op) s (transfer_post op s).
Proof.
  unfold transfer. wp_step. apply argfd_cases.
  - intros ra fd s1 Hc Hwhy. wp_red. cbn [Z.ltb Z.compare]. wp_step.
    unfold transfer_post. exists ra, fd, s1. split; [assumption |]. left. auto.
  - intros ra fd f s1 Hc Hra Hf. wp_red. cbn [Z.ltb Z.compare].
    wp_step. wp_step. destruct r as [rn n]. cbv beta iota.
    assert (Hp : kproc s1 = kproc s) by apply Hc.
    assert (Hc2 : continues [Ev (Argint 2) (rn, n)] s1
                    (KState (kproc s1) w (trace s1 ++ [Ev (Argint 2) (rn, n)])))
      by (split; [reflexivity | solve_logged]).
    wp_step.
    { wp_step. unfold transfer_post. exists ra, fd, s1. split; [assumption |]. right.
      exists f, rn, n. eexists. split; [assumption |]. split; [assumption |].
      split; [exact Hc2 |]. left. apply Z.ltb_lt in Heqb. auto. }
    apply Z.ltb_ge in Heqb.
    wp_step. wp_step2. destruct r as [rp p]. cbv beta iota. wp_step.
    { wp_step. unfold transfer_post. exists ra, fd, s1. split; [assumption |]. right.
      exists f, rn, n. eexists. split; [assumption |]. split; [assumption |].
      split; [exact Hc2 |]. right. exists rp, p, w0. split; [assumption |].
      split; [assumption |]. left. apply Z.ltb_lt in Heqb0. rewrite Hp. auto. }
    apply Z.ltb_ge in Heqb0. wp_step2.
    unfold transfer_post. exists ra, fd, s1. split; [assumption |]. right.
    exists f, rn, n. eexists. split; [assumption |]. split; [assumption |].
    split; [exact Hc2 |]. right. exists rp, p, w0. split; [assumption |].
    split; [assumption |]. right. split; [assumption |]. exists w1.
    split; [assumption |]. rewrite Hp. reflexivity.
  - intros s1 Hlen. exact Hlen.
Qed.

Lemma sys_fstat_spec s : wp sys_fstat s (fstat_post s).
Proof.
  unfold sys_fstat. wp_step. apply argfd_cases.
  - intros ra fd s1 Hc Hwhy. wp_red. cbn [Z.ltb Z.compare]. wp_step.
    unfold fstat_post. exists ra, fd, s1. split; [assumption |]. left. auto.
  - intros ra fd f s1 Hc Hra Hf. wp_red. cbn [Z.ltb Z.compare].
    assert (Hp : kproc s1 = kproc s) by apply Hc.
    wp_step. wp_step2. destruct r as [rp st]. cbv beta iota. wp_step.
    { wp_step. unfold fstat_post. exists ra, fd, s1. split; [assumption |]. right.
      exists f, rp, st, w. split; [assumption |]. split; [assumption |].
      split; [assumption |]. left. apply Z.ltb_lt in Heqb. rewrite Hp. auto. }
    apply Z.ltb_ge in Heqb. wp_step2.
    unfold fstat_post. exists ra, fd, s1. split; [assumption |]. right.
    exists f, rp, st, w. split; [assumption |]. split; [assumption |].
    split; [assumption |]. right. split; [assumption |]. exists w0.
    split; [assumption |]. rewrite Hp. reflexivity.
  - intros s1 Hlen. exact Hlen.
Qed.

(** X30 (sys_read, sys_write and sys_fstat check before they reach the
    file).  Each of the three returns -1 right after the first check
    that fails, leaving the process untouched and making no further call:
    the descriptor must be valid and name a file, the count must be
    fetched (read and write), and [argptr] must accept the buffer, for the
    count fetched (read and write) or for the size of a [struct stat]
    (fstat).  Only then is [fileread], [filewrite] or [filestat] called, on
    the file of the descriptor, with that buffer and that count, and its
    value returned. *)
Theorem file_calls_check_their_arguments s :
  transfer_post Fileread_at s (sys_read s) /\
  transfer_post Filewrite_at s (sys_write s) /\
  fstat_post s (sys_fstat s).
Proof.
  split; [exact (transfer_spec Fileread_at s) |].
  split; [exact (transfer_spec Filewrite_at s) | exact (sys_fstat_spec s)].
Qed.


End Proofs.
(** * Runs on the small kernel *)

Module Runs.
Import Toy.

(** ** Facts about the small kernel *)





(** ** Restore *)



(** C3 at a short read.  With the context artifact empty, the read of the
    context record returns 0 instead of 20; restore goes on all the same,
    returns the identifier 4 of a new process, and that process runs on a
    context made of the uninitialised bytes of the local buffer. *)
Theorem restore_accepts_short_context_read :
  exists s',
    sys_ildpcb state_short = Ret 4 s' /\
    read_counts (trace s') = [(3, 20, 0); (4, 76, 76); (5, 124, 124)] /\
    procs_summary (kworld s') = [(4, 8192, replicate 20 xcc, [7; 5])].
Proof.
  exists (final (sys_ildpcb state_short)).
  split; [apply (returns_final (sys_ildpcb state_short) 4); vm_compute; reflexivity |].
  split; vm_compute; reflexivity.
Qed.

(** C4 at a missing artifact.  With no context artifact, the second open
    returns -1; restore does not stop there: it goes on to the other
    opens and then indexes the descriptor table with -1. *)
Theorem restore_indexes_table_with_failed_open :
  exists s1 s2 s',
    the_opener "pages" O_RDONLY state_missing = Ret 3 s1 /\
    the_opener "context" O_RDONLY s1 = Ret (-1) s2 /\
    restore_open state_missing = Undef s' /\
    sys_ildpcb state_missing = Undef s'.
Proof.
  exists (final (the_opener "pages" O_RDONLY state_missing)).
  exists (final (the_opener "context" O_RDONLY
                   (final (the_opener "pages" O_RDONLY state_missing)))).
  exists (final (restore_open state_missing)).
  split; [apply (returns_final (the_opener "pages" O_RDONLY state_missing) 3);
          vm_compute; reflexivity |].
  split; [apply (returns_final
                   (the_opener "context" O_RDONLY
                      (final (the_opener "pages" O_RDONLY state_missing))) (-1));
          vm_compute; reflexivity |].
  assert (E : restore_open state_missing = Undef (final (restore_open state_missing)))
    by (apply (undefined_final (restore_open state_missing)); vm_compute; reflexivity).
  split; [exact E |]. exact (bind_Undef _ _ _ _ E).
Qed.

(** ** Checkpoint *)

(** C5 at a failing flag write.  With a flag file that cannot grow, both
    writes of a permission word return -1 while the page writes return
    4096; the checkpoint goes on, prints its final message, kills and
    exits, and the flag artifact (inode 3) is empty next to two pages of
    content (inode 4). *)
Theorem checkpoint_ignores_failed_flag_writes :
  exists s',
    sys_isvpcb 3 state_flagfull = Exited s' /\
    write_counts (trace s') =
      [(2, 4096, 4096); (3, 4, -1); (2, 4096, 4096); (3, 4, -1);
       (2, 20, 20); (2, 76, 76); (2, 124, 124)] /\
    last (trace s') = Some (Ev (Kill 3) 0) /\
    map (fun i => Z.of_nat (length (ti_data i))) (t_inodes (kworld s')) =
      [0; 0; 0; 8192; 20; 76; 124].
Proof.
  exists (final (sys_isvpcb 3 state_flagfull)).
  split; [apply (exits_final (sys_isvpcb 3 state_flagfull)); vm_compute; reflexivity |].
  repeat split; vm_compute; reflexivity.
Qed.

(** ** The theorems at concrete inputs *)

Lemma sys_open_after_fetch_is_the_opener_witness :
  do_call (Argstr 0) state_open = Ret (5, "pages"%string) state_open1 /\
  0 <= 5 /\
  do_call (Argint 1) state_open1 = Ret (0, 0x202) state_open2 /\
  0 <= 0 /\
  sys_open state_open = the_opener "pages" 0x202 state_open2.
Proof.
  assert (H1 : do_call (Argstr 0) state_open = Ret (5, "pages"%string) state_open1)
    by (apply (returns_final (do_call (Argstr 0) state_open) (5, "pages"%string));
        vm_compute; reflexivity).
  assert (H2 : do_call (Argint 1) state_open1 = Ret (0, 0x202) state_open2)
    by (apply (returns_final (do_call (Argint 1) state_open1) (0, 0x202));
        vm_compute; reflexivity).
  split; [exact H1 |]. split; [lia |]. split; [exact H2 |]. split; [lia |].
  exact (sys_open_after_fetch_is_the_opener
           state_open "pages" 0x202 5 0 state_open1 state_open2
           H1 ltac:(lia) H2 ltac:(lia)).
Defined.







End Runs.

(** * The other system calls at concrete inputs *)

Module MoreRuns.
Import Toy Toy2.

Lemma run_trace {K : Kernel} {A} (s : kstate) (o : outcome A) :
  trace s = [] -> trace (final o) = trace s ++ trace (final o).
Proof. intros ->. reflexivity. Qed.

Lemma argint_at n (w : utoy) r :
  arg n (u_ints w) 0 = r -> @ext Toy2.kernel _ (Argint n) w = (w, r).
Proof. intros <-. reflexivity. Qed.

Lemma argstr_at n (w : utoy) r :
  arg n (u_strs w) EmptyString = r -> @ext Toy2.kernel _ (Argstr n) w = (w, r).
Proof. intros <-. reflexivity. Qed.

Lemma fdalloc_takes_lowest_free_slot_witness :
  fdalloc 9 state0 = Ret 3 (final (fdalloc 9 state0)) /\
  3 <> -1 /\
  ofile (kproc (final (fdalloc 9 state0))) =
    [1; 1; 1; 9; 0; 0; 0; 0; 0; 0; 0; 0; 0; 0; 0; 0] /\
  (0 <= 3 < NOFILE /\
   ofile (kproc state0) !! Z.to_nat 3 = Some 0 /\
   (forall j, 0 <= j < 3 ->
      exists g, ofile (kproc state0) !! Z.to_nat j = Some g /\ g <> 0) /\
   final (fdalloc 9 state0) =
     set_ofile (<[Z.to_nat 3 := 9]> (ofile (kproc state0))) state0).
Proof.
  assert (H1 : fdalloc 9 state0 = Ret 3 (final (fdalloc 9 state0)))
    by (apply (returns_final (fdalloc 9 state0) 3); vm_compute; reflexivity).
  split; [exact H1 |]. split; [lia |]. split; [vm_compute; reflexivity |].
  exact (fdalloc_takes_lowest_free_slot 9 state0 3 (final (fdalloc 9 state0))
           H1 ltac:(lia)).
Defined.

Lemma fdalloc_fails_exactly_on_a_full_table_witness :
  NOFILE <= Z.of_nat (length (ofile (kproc state_full))) /\
  ending_of (fdalloc 9 state_full) = Returns (-1) /\
  (fdalloc 9 state_full = Ret (-1) state_full <->
   (forall j, 0 <= j < NOFILE -> ofile (kproc state_full) !! Z.to_nat j <> Some 0)).
Proof.
  assert (H1 : @NOFILE Toy.kernel <= Z.of_nat (length (ofile (kproc state_full))))
    by (vm_compute; discriminate).
  split; [exact H1 |]. split; [vm_compute; reflexivity |].
  exact (proj2 (fdalloc_fails_exactly_on_a_full_table 9 state_full H1)).
Defined.

Lemma sys_close_twice_fails_witness :
  sys_close state_close = Ret 0 state_closed /\
  ext (Argint 0) (kworld state_close) = (kworld state_close, (0, 3)) /\
  ext (Argint 0) (kworld state_closed) = (kworld state_closed, (0, 3)) /\
  exists s2, sys_close state_closed = Ret (-1) s2 /\
             continues [Ev (Argint 0) (0, 3)] state_closed s2.
Proof.
  assert (H1 : sys_close state_close = Ret 0 state_closed)
    by (apply (returns_final (sys_close state_close) 0); vm_compute; reflexivity).
  assert (H2 : ext (Argint 0) (kworld state_close) = (kworld state_close, (0, 3)))
    by (apply (argint_at 0 (kworld state_close) (0, 3)); vm_compute; reflexivity).
  assert (H3 : ext (Argint 0) (kworld state_closed) = (kworld state_closed, (0, 3)))
    by (apply (argint_at 0 (kworld state_closed) (0, 3)); vm_compute; reflexivity).
  split; [exact H1 |]. split; [exact H2 |]. split; [exact H3 |].
  exact (sys_close_twice_fails state_close state_closed (kworld state_close) 0 3
           (kworld state_closed) 0 H1 H2 H3).
Defined.

Lemma open_then_close_restores_process_witness :
  the_opener "pages" 0x202 state_reopen = Ret 3 state_reopened /\
  3 <> -1 /\
  ext (Argint 0) (kworld state_reopened) = (kworld state_reopened, (0, 3)) /\
  0 <= 0 /\
  exists s2, sys_close state_reopened = Ret 0 s2 /\ kproc s2 = kproc state_reopen.
Proof.
  assert (H1 : the_opener "pages" 0x202 state_reopen = Ret 3 state_reopened)
    by (apply (returns_final (the_opener "pages" 0x202 state_reopen) 3);
        vm_compute; reflexivity).
  assert (H2 : ext (Argint 0) (kworld state_reopened) = (kworld state_reopened, (0, 3)))
    by (apply (argint_at 0 (kworld state_reopened) (0, 3)); vm_compute; reflexivity).
  split; [exact H1 |]. split; [lia |]. split; [exact H2 |]. split; [lia |].
  exact (open_then_close_restores_process "pages" 0x202 state_reopen 3 state_reopened
           (kworld state_reopened) 0 H1 ltac:(lia) H2 ltac:(lia)).
Defined.

Lemma create_returns_locked_inode_witness :
  create "pages" 2 0 0 state0 = Ret 3 (final (create "pages" 2 0 0 state0)) /\
  exists l, logged l state0 (final (create "pages" 2 0 0 state0)) /\
    tally begin_wt l = 0 /\ tally end_wt l = 0 /\ tally file_wt l = 0 /\
    forall x, held x l = if 3 =? 0 then 0 else one_if (3 =? x).
Proof.
  assert (H1 : create "pages" 2 0 0 state0 = Ret 3 (final (create "pages" 2 0 0 state0)))
    by (apply (returns_final (create "pages" 2 0 0 state0) 3); vm_compute; reflexivity).
  split; [exact H1 |].
  exact (create_returns_locked_inode "pages" 2 0 0 state0 3
           (final (create "pages" 2 0 0 state0)) H1).
Defined.

Lemma create_leaves_existing_name_witness :
  create "console" 2 0 0 state0 = Ret 0 (final (create "console" 2 0 0 state0)) /\
  trace (final (create "console" 2 0 0 state0)) =
    trace state0 ++ trace (final (create "console" 2 0 0 state0)) /\
  lookups (trace (final (create "console" 2 0 0 state0))) = [(1, "console"%string, 2)] /\
  2 <> 0 /\
  forallb (fun e => negb (changes_fs e))
    (trace (final (create "console" 2 0 0 state0))) = true.
Proof.
  assert (H1 : create "console" 2 0 0 state0 =
               Ret 0 (final (create "console" 2 0 0 state0)))
    by (apply (returns_final (create "console" 2 0 0 state0) 0); vm_compute; reflexivity).
  assert (H2 : trace (final (create "console" 2 0 0 state0)) =
               trace state0 ++ trace (final (create "console" 2 0 0 state0)))
    by (apply run_trace; reflexivity).
  assert (H3 : lookups (trace (final (create "console" 2 0 0 state0))) =
               [(1, "console"%string, 2)]) by (vm_compute; reflexivity).
  split; [exact H1 |]. split; [exact H2 |]. split; [exact H3 |]. split; [lia |].
  exact (proj1 (create_leaves_existing_name "console" 2 0 0 state0 0
                  (final (create "console" 2 0 0 state0))
                  (trace (final (create "console" 2 0 0 state0))) 1 "console" 2
                  H1 H2 H3 ltac:(lia))).
Defined.


Lemma the_opener_refuses_writable_directory_witness :
  the_opener "." 2 state_dot = Ret (-1) (final (the_opener "." 2 state_dot)) /\
  trace (final (the_opener "." 2 state_dot)) =
    trace state_dot ++ trace (final (the_opener "." 2 state_dot)) /\
  Z.land 2 O_CREATE = 0 /\
  2 <> O_RDONLY /\
  List.filter is_type (iloads (trace (final (the_opener "." 2 state_dot)))) =
    [(I_type, 1, T_DIR)] /\
  (-1 = -1 /\
   kproc (final (the_opener "." 2 state_dot)) = kproc state_dot /\
   trace (final (the_opener "." 2 state_dot)) = refused_dir "." 1).
Proof.
  assert (H1 : the_opener "." 2 state_dot = Ret (-1) (final (the_opener "." 2 state_dot)))
    by (apply (returns_final (the_opener "." 2 state_dot) (-1)); vm_compute; reflexivity).
  assert (H2 : trace (final (the_opener "." 2 state_dot)) =
               trace state_dot ++ trace (final (the_opener "." 2 state_dot)))
    by (apply run_trace; reflexivity).
  assert (H3 : Z.land 2 (@O_CREATE Toy.kernel) = 0) by (vm_compute; reflexivity).
  assert (H4 : 2 <> @O_RDONLY Toy.kernel) by (vm_compute; discriminate).
  assert (H5 : List.filter is_type (iloads (trace (final (the_opener "." 2 state_dot)))) =
               [(I_type, 1, @T_DIR Toy.kernel)]) by (vm_compute; reflexivity).
  split; [exact H1 |]. split; [exact H2 |]. split; [exact H3 |]. split; [exact H4 |].
  split; [exact H5 |].
  exact (the_opener_refuses_writable_directory "." 2 state_dot (-1)
           (final (the_opener "." 2 state_dot))
           (trace (final (the_opener "." 2 state_dot))) 1 H1 H2 H3 H4 H5).
Defined.

Lemma the_opener_installs_the_file_it_sets_up_witness :
  the_opener "pages" 0x202 state0 = Ret 3 (final (the_opener "pages" 0x202 state0)) /\
  trace (final (the_opener "pages" 0x202 state0)) =
    trace state0 ++ trace (final (the_opener "pages" 0x202 state0)) /\
  3 <> -1 /\
  exists l0 f ip, f <> 0 /\ ip <> 0 /\
    ofile (kproc (final (the_opener "pages" 0x202 state0))) !! Z.to_nat 3 = Some f /\
    trace (final (the_opener "pages" 0x202 state0)) = l0 ++ installed 0x202 f ip.
Proof.
  assert (H1 : the_opener "pages" 0x202 state0 =
               Ret 3 (final (the_opener "pages" 0x202 state0)))
    by (apply (returns_final (the_opener "pages" 0x202 state0) 3); vm_compute; reflexivity).
  assert (H2 : trace (final (the_opener "pages" 0x202 state0)) =
               trace state0 ++ trace (final (the_opener "pages" 0x202 state0)))
    by (apply run_trace; reflexivity).
  split; [exact H1 |]. split; [exact H2 |]. split; [lia |].
  exact (the_opener_installs_the_file_it_sets_up "pages" 0x202 state0 3
           (final (the_opener "pages" 0x202 state0))
           (trace (final (the_opener "pages" 0x202 state0))) H1 H2 ltac:(lia)).
Defined.

Lemma opens_settle_transaction_locks_and_file_witness :
  the_opener "pages" 0x202 state0 = Ret 3 (final (the_opener "pages" 0x202 state0)) /\
  exists l, logged l state0 (final (the_opener "pages" 0x202 state0)) /\
    tally begin_wt l = 1 /\ tally end_wt l = 1 /\
    tally file_wt l = one_if (0 <=? 3) /\
    forall x, held x l = 0.
Proof.
  assert (H1 : the_opener "pages" 0x202 state0 =
               Ret 3 (final (the_opener "pages" 0x202 state0)))
    by (apply (returns_final (the_opener "pages" 0x202 state0) 3); vm_compute; reflexivity).
  split; [exact H1 |].
  exact (proj1 (opens_settle_transaction_locks_and_file (K := Toy.kernel)) "pages" 0x202
           state0 3 (final (the_opener "pages" 0x202 state0)) H1).
Defined.


Lemma sys_link_refuses_directories_witness :
  sys_link state_link_dir = Ret (-1) (final (sys_link state_link_dir)) /\
  trace (final (sys_link state_link_dir)) =
    trace state_link_dir ++ trace (final (sys_link state_link_dir)) /\
  List.filter is_type (iloads (trace (final (sys_link state_link_dir)))) =
    [(I_type, 1, T_DIR)] /\
  (-1 = -1 /\
   forallb (fun e => negb (changes_fs e)) (trace (final (sys_link state_link_dir))) = true).
Proof.
  assert (H1 : sys_link state_link_dir = Ret (-1) (final (sys_link state_link_dir)))
    by (apply (returns_final (sys_link state_link_dir) (-1)); vm_compute; reflexivity).
  assert (H2 : trace (final (sys_link state_link_dir)) =
               trace state_link_dir ++ trace (final (sys_link state_link_dir)))
    by (apply run_trace; reflexivity).
  assert (H3 : List.filter is_type (iloads (trace (final (sys_link state_link_dir)))) =
               [(I_type, 1, @T_DIR Toy2.kernel)]) by (vm_compute; reflexivity).
  split; [exact H1 |]. split; [exact H2 |]. split; [exact H3 |].
  exact (sys_link_refuses_directories state_link_dir (-1) (final (sys_link state_link_dir))
           (trace (final (sys_link state_link_dir))) 1 H1 H2 H3).
Defined.

Lemma sys_link_refuses_other_devices_witness :
  sys_link state_link_far = Ret (-1) (final (sys_link state_link_far)) /\
  trace (final (sys_link state_link_far)) =
    trace state_link_far ++ trace (final (sys_link state_link_far)) /\
  List.filter is_dev (iloads (trace (final (sys_link state_link_far)))) =
    [(I_dev, 1, 1); (I_dev, 2, 2)] /\
  1 <> 2 /\
  (-1 = -1 /\ dirlinks (trace (final (sys_link state_link_far))) = []).
Proof.
  assert (H1 : sys_link state_link_far = Ret (-1) (final (sys_link state_link_far)))
    by (apply (returns_final (sys_link state_link_far) (-1)); vm_compute; reflexivity).
  assert (H2 : trace (final (sys_link state_link_far)) =
               trace state_link_far ++ trace (final (sys_link state_link_far)))
    by (apply run_trace; reflexivity).
  assert (H3 : List.filter is_dev (iloads (trace (final (sys_link state_link_far)))) =
               [(I_dev, 1, 1); (I_dev, 2, 2)]) by (vm_compute; reflexivity).
  split; [exact H1 |]. split; [exact H2 |]. split; [exact H3 |]. split; [lia |].
  exact (sys_link_refuses_other_devices state_link_far (-1) (final (sys_link state_link_far))
           (trace (final (sys_link state_link_far))) 1 2 1 2 H1 H2 H3 ltac:(lia)).
Defined.

Lemma sys_mkdir_refuses_existing_name_witness :
  sys_mkdir state_mkdir_old = Ret (-1) (final (sys_mkdir state_mkdir_old)) /\
  trace (final (sys_mkdir state_mkdir_old)) =
    trace state_mkdir_old ++ trace (final (sys_mkdir state_mkdir_old)) /\
  lookups (trace (final (sys_mkdir state_mkdir_old))) = [(1, "console"%string, 2)] /\
  2 <> 0 /\
  T_DIR <> T_FILE /\
  (-1 = -1 /\
   forallb (fun e => negb (changes_fs e)) (trace (final (sys_mkdir state_mkdir_old))) = true).
Proof.
  assert (H1 : sys_mkdir state_mkdir_old = Ret (-1) (final (sys_mkdir state_mkdir_old)))
    by (apply (returns_final (sys_mkdir state_mkdir_old) (-1)); vm_compute; reflexivity).
  assert (H2 : trace (final (sys_mkdir state_mkdir_old)) =
               trace state_mkdir_old ++ trace (final (sys_mkdir state_mkdir_old)))
    by (apply run_trace; reflexivity).
  assert (H3 : lookups (trace (final (sys_mkdir state_mkdir_old))) =
               [(1, "console"%string, 2)]) by (vm_compute; reflexivity).
  assert (H4 : @T_DIR Toy2.kernel <> @T_FILE Toy2.kernel) by (vm_compute; discriminate).
  split; [exact H1 |]. split; [exact H2 |]. split; [exact H3 |]. split; [lia |].
  split; [exact H4 |].
  exact (sys_mkdir_refuses_existing_name state_mkdir_old (-1)
           (final (sys_mkdir state_mkdir_old))
           (trace (final (sys_mkdir state_mkdir_old))) 1 "console" 2
           H1 H2 H3 ltac:(lia) H4).
Defined.


Lemma sys_mknod_passes_numbers_as_shorts_witness :
  sys_mknod state_mknod = Ret 0 (final (sys_mknod state_mknod)) /\
  trace (final (sys_mknod state_mknod)) =
    trace state_mknod ++ trace (final (sys_mknod state_mknod)) /\
  lookups (trace (final (sys_mknod state_mknod))) = [(1, "dev1"%string, 0)] /\
  T_DEV <> T_DIR /\
  to_short 65537 = 1 /\
  istores (trace (final (sys_mknod state_mknod))) =
    [(I_major, 3, 1); (I_minor, 3, 2); (I_nlink, 3, 1)] /\
  0 = 0.
Proof.
  assert (H1 : sys_mknod state_mknod = Ret 0 (final (sys_mknod state_mknod)))
    by (apply (returns_final (sys_mknod state_mknod) 0); vm_compute; reflexivity).
  assert (H2 : trace (final (sys_mknod state_mknod)) =
               trace state_mknod ++ trace (final (sys_mknod state_mknod)))
    by (apply run_trace; reflexivity).
  assert (H3 : lookups (trace (final (sys_mknod state_mknod))) =
               [(1, "dev1"%string, 0)]) by (vm_compute; reflexivity).
  assert (H4 : @T_DEV Toy2.kernel Toy2.kernel2 <> @T_DIR Toy2.kernel)
    by (vm_compute; discriminate).
  split; [exact H1 |]. split; [exact H2 |]. split; [exact H3 |]. split; [exact H4 |].
  split; [vm_compute; reflexivity |]. split; [vm_compute; reflexivity |].
  exact (proj1 (sys_mknod_passes_numbers_as_shorts state_mknod 0
                  (final (sys_mknod state_mknod))
                  (trace (final (sys_mknod state_mknod))) 1 "dev1" H1 H2 H3 H4)).
Defined.

Lemma sys_dup_shares_file_under_lowest_free_descriptor_witness :
  sys_dup state_close = Ret 4 (final (sys_dup state_close)) /\
  ofile (kproc (final (sys_dup state_close))) =
    [1; 1; 1; 2; 2; 0; 0; 0; 0; 0; 0; 0; 0; 0; 0; 0] /\
  exists ra old w1,
    ext (Argint 0) (kworld state_close) = (w1, (ra, old)) /\
    (4 = -1 -> kproc (final (sys_dup state_close)) = kproc state_close /\
               kworld (final (sys_dup state_close)) = w1) /\
    (4 <> -1 ->
     exists f, f <> 0 /\ 0 <= 4 < NOFILE /\ 0 <= old < NOFILE /\ old <> 4 /\
       ofile (kproc state_close) !! Z.to_nat 4 = Some 0 /\
       (forall j, 0 <= j < 4 -> ofile (kproc state_close) !! Z.to_nat j <> Some 0) /\
       ofile (kproc (final (sys_dup state_close))) =
         <[Z.to_nat 4 := f]> (ofile (kproc state_close)) /\
       ofile (kproc (final (sys_dup state_close))) !! Z.to_nat old = Some f /\
       ofile (kproc (final (sys_dup state_close))) !! Z.to_nat 4 = Some f /\
       kworld (final (sys_dup state_close)) = (ext2 (Filedup f) w1).1).
Proof.
  assert (H1 : sys_dup state_close = Ret 4 (final (sys_dup state_close)))
    by (apply (returns_final (sys_dup state_close) 4); vm_compute; reflexivity).
  split; [exact H1 |]. split; [vm_compute; reflexivity |].
  exact (sys_dup_shares_file_under_lowest_free_descriptor state_close 4
           (final (sys_dup state_close)) H1).
Defined.

Lemma sys_pipe_failure_leaves_no_descriptor_witness :
  sys_pipe state_pipe_tight = Ret (-1) (final (sys_pipe state_pipe_tight)) /\
  -1 <> 0 /\
  trace (final (sys_pipe state_pipe_tight)) = [Ev (Fileclose 2) tt; Ev (Fileclose 3) tt] /\
  (-1 = -1 /\ kproc (final (sys_pipe state_pipe_tight)) = kproc state_pipe_tight).
Proof.
  assert (H1 : sys_pipe state_pipe_tight = Ret (-1) (final (sys_pipe state_pipe_tight)))
    by (apply (returns_final (sys_pipe state_pipe_tight) (-1)); vm_compute; reflexivity).
  split; [exact H1 |]. split; [lia |]. split; [vm_compute; reflexivity |].
  destruct (sys_pipe_failure_leaves_no_descriptor state_pipe_tight (-1)
              (final (sys_pipe state_pipe_tight)) H1 ltac:(lia)) as (Hr & Hp & _).
  split; [exact Hr | exact Hp].
Defined.

Lemma sys_pipe_success_installs_both_ends_witness :
  sys_pipe state_pipe = Ret 0 (final (sys_pipe state_pipe)) /\
  ofile (kproc (final (sys_pipe state_pipe))) =
    [1; 1; 1; 2; 3; 0; 0; 0; 0; 0; 0; 0; 0; 0; 0; 0] /\
  trace (final (sys_pipe state_pipe)) =
    [Ev (Kstore 0x1000 (le32 3)) tt; Ev (Kstore 0x1004 (le32 4)) tt] /\
  exists ra p w1 rp rf wf w2 fd0 fd1,
    ext2 (Argptr 0 (2 * 4)) (kworld state_pipe) = (w1, (ra, p)) /\
    ext2 Pipealloc w1 = (w2, (rp, rf, wf)) /\ 0 <= ra /\ 0 <= rp /\
    0 <= fd0 < NOFILE /\ 0 <= fd1 < NOFILE /\
    ofile (kproc state_pipe) !! Z.to_nat fd0 = Some 0 /\
    (forall j, 0 <= j < fd0 -> ofile (kproc state_pipe) !! Z.to_nat j <> Some 0) /\
    (forall j, 0 <= j < fd1 -> j <> fd0 ->
       ofile (kproc state_pipe) !! Z.to_nat j <> Some 0) /\
    (rf <> 0 -> fd0 < fd1 /\ ofile (kproc state_pipe) !! Z.to_nat fd1 = Some 0) /\
    ofile (kproc (final (sys_pipe state_pipe))) =
      <[Z.to_nat fd1 := wf]> (<[Z.to_nat fd0 := rf]> (ofile (kproc state_pipe))) /\
    logged [Ev (Kstore p (le32 fd0)) tt; Ev (Kstore (p + 4) (le32 fd1)) tt]
           (KState (kproc state_pipe) w2 (trace state_pipe)) (final (sys_pipe state_pipe)).
Proof.
  assert (H1 : sys_pipe state_pipe = Ret 0 (final (sys_pipe state_pipe)))
    by (apply (returns_final (sys_pipe state_pipe) 0); vm_compute; reflexivity).
  split; [exact H1 |]. split; [vm_compute; reflexivity |].
  split; [vm_compute; reflexivity |].
  exact (sys_pipe_success_installs_both_ends state_pipe (final (sys_pipe state_pipe)) H1).
Defined.

Lemma word_at_user a v :
  mapped a world_user = true -> le32_decode (kload a 4 world_user) = v ->
  0 <= v < 2 ^ 32 ->
  forall w, u_toy w = world_user -> @word_at Toy2.kernel Toy2.kernel2 w a v.
Proof.
  intros Hm Hv Hr w Hw. exists 0, v. split; [| split; [lia |]].
  - change (toy2_ext2 _ (Fetchint a) w = (w, (0, v))).
    unfold toy2_ext2. rewrite Hw, Hm, Hv. reflexivity.
  - unfold wrap32. apply Z.mod_small. exact Hr.
Qed.

Lemma string_at_user a :
  mapped a world_user = true ->
  forall w, u_toy w = world_user -> @string_at Toy2.kernel Toy2.kernel2 w a.
Proof.
  intros Hm w Hw. exists (Z.of_nat (length (mem_find a (t_mem world_user)))). split.
  - change (toy2_ext2 _ (Fetchstr a) w =
            (w, Z.of_nat (length (mem_find a (t_mem world_user))))).
    unfold toy2_ext2. rewrite Hw, Hm. reflexivity.
  - lia.
Qed.

Ltac user_word :=
  apply word_at_user;
  [vm_compute; reflexivity | vm_compute; reflexivity | lia | reflexivity].

Ltac user_string := apply string_at_user; [vm_compute; reflexivity | reflexivity].

Lemma strings_at_exec :
  strings_at (kworld state_exec) (wrap32 0x2000) [0x3000; 0x3010].
Proof.
  intros k p Hk. destruct k as [|[|k]]; cbn in Hk; [| | discriminate].
  - injection Hk as <-. split; [lia |]. split; [user_word | user_string].
  - injection Hk as <-. split; [lia |]. split; [user_word | user_string].
Qed.

Lemma sys_exec_passes_pointers_before_null_witness :
  ext (Argstr 0) (kworld state_exec) = (kworld state_exec, (2, "sh"%string)) /\
  0 <= 2 /\
  ext (Argint 1) (kworld state_exec) = (kworld state_exec, (0, 0x2000)) /\
  0 <= 0 /\
  Z.of_nat (length [0x3000; 0x3010]) < MAXARG /\
  strings_at (kworld state_exec) (wrap32 0x2000) [0x3000; 0x3010] /\
  word_at (kworld state_exec)
    (wrap32 (wrap32 0x2000 + 4 * Z.of_nat (length [0x3000; 0x3010]))) 0 /\
  ending_of (sys_exec state_exec) = Returns 2 /\
  sys_exec state_exec =
  Ret (ext2 (Exec "sh" [0x3000; 0x3010]) (kworld state_exec)).2
      (KState (kproc state_exec)
         (ext2 (Exec "sh" [0x3000; 0x3010]) (kworld state_exec)).1
         (trace state_exec ++ [Ev (Argstr 0) (2, "sh"%string); Ev (Argint 1) (0, 0x2000)])).
Proof.
  assert (H1 : ext (Argstr 0) (kworld state_exec) = (kworld state_exec, (2, "sh"%string)))
    by (apply (argstr_at 0 (kworld state_exec) (2, "sh"%string)); vm_compute; reflexivity).
  assert (H2 : ext (Argint 1) (kworld state_exec) = (kworld state_exec, (0, 0x2000)))
    by (apply (argint_at 1 (kworld state_exec) (0, 0x2000)); vm_compute; reflexivity).
  assert (H3 : Z.of_nat (length [0x3000; 0x3010]) < @MAXARG Toy2.kernel Toy2.kernel2)
    by (vm_compute; reflexivity).
  assert (H4 : word_at (kworld state_exec)
                 (wrap32 (wrap32 0x2000 + 4 * Z.of_nat (length [0x3000; 0x3010]))) 0)
    by user_word.
  split; [exact H1 |]. split; [lia |]. split; [exact H2 |]. split; [lia |].
  split; [exact H3 |]. split; [exact strings_at_exec |]. split; [exact H4 |].
  split; [vm_compute; reflexivity |].
  exact (sys_exec_passes_pointers_before_null state_exec (kworld state_exec) 2 "sh"
           (kworld state_exec) 0 0x2000 [0x3000; 0x3010]
           H1 ltac:(lia) H2 ltac:(lia) H3 strings_at_exec H4).
Defined.

Lemma strings_at_exec_long :
  strings_at (kworld state_exec_long) (wrap32 0x4000) (replicate 32 0x3000).
Proof.
  intros k p Hk.
  do 32 (destruct k as [|k];
         [ injection Hk as <-; split; [lia |]; split; [user_word | user_string] |]).
  cbn in Hk. discriminate.
Qed.

Lemma sys_exec_refuses_unterminated_array_witness :
  ext (Argstr 0) (kworld state_exec_long) = (kworld state_exec_long, (2, "sh"%string)) /\
  0 <= 2 /\
  ext (Argint 1) (kworld state_exec_long) = (kworld state_exec_long, (0, 0x4000)) /\
  0 <= 0 /\
  Z.of_nat (length (replicate 32 0x3000)) = MAXARG /\
  strings_at (kworld state_exec_long) (wrap32 0x4000) (replicate 32 0x3000) /\
  sys_exec state_exec_long =
  Ret (-1) (KState (kproc state_exec_long) (kworld state_exec_long)
              (trace state_exec_long ++
               [Ev (Argstr 0) (2, "sh"%string); Ev (Argint 1) (0, 0x4000)])).
Proof.
  assert (H1 : ext (Argstr 0) (kworld state_exec_long) =
               (kworld state_exec_long, (2, "sh"%string)))
    by (apply (argstr_at 0 (kworld state_exec_long) (2, "sh"%string));
        vm_compute; reflexivity).
  assert (H2 : ext (Argint 1) (kworld state_exec_long) =
               (kworld state_exec_long, (0, 0x4000)))
    by (apply (argint_at 1 (kworld state_exec_long) (0, 0x4000)); vm_compute; reflexivity).
  assert (H3 : Z.of_nat (length (replicate 32 0x3000)) = @MAXARG Toy2.kernel Toy2.kernel2)
    by (vm_compute; reflexivity).
  split; [exact H1 |]. split; [lia |]. split; [exact H2 |]. split; [lia |].
  split; [exact H3 |]. split; [exact strings_at_exec_long |].
  exact (sys_exec_refuses_unterminated_array state_exec_long (kworld state_exec_long) 2 "sh"
           (kworld state_exec_long) 0 0x4000 (replicate 32 0x3000)
           H1 ltac:(lia) H2 ltac:(lia) H3 strings_at_exec_long).
Defined.

Lemma readi_at ip off n (w : utoy) r :
  readi ip off n (u_toy w) = r -> @ext2 Toy2.kernel Toy2.kernel2 _ (Readi ip off n) w = (w, r).
Proof. intros <-. reflexivity. Qed.

Lemma isize_at ip (w : utoy) r :
  isize ip (u_toy w) = r -> @ext2 Toy2.kernel Toy2.kernel2 _ (Isize ip) w = (w, r).
Proof. intros <-. reflexivity. Qed.

Lemma entries_at_sub : entries_at (kworld state_sub) 3 (2 * sizeof_dirent) [0; 7].
Proof.
  intros k inum Hk. destruct k as [|[|k]]; cbn in Hk; [| | discriminate].
  - injection Hk as <-. exists (dirent 0 "").
    split; [apply readi_at; vm_compute; reflexivity | vm_compute; reflexivity].
  - injection Hk as <-. exists (dirent 7 "a").
    split; [apply readi_at; vm_compute; reflexivity | vm_compute; reflexivity].
Qed.

Lemma isdirempty_checks_entries_past_the_dots_witness :
  0 < sizeof_dirent /\
  64 + sizeof_dirent <= 2 ^ 32 /\
  ext2 (Isize 3) (kworld state_sub) = (kworld state_sub, 64) /\
  entries_at (kworld state_sub) 3 (2 * sizeof_dirent) [0; 7] /\
  (forall k : nat, (k < length [0; 7])%nat ->
     2 * sizeof_dirent + sizeof_dirent * Z.of_nat k < 64) /\
  64 <= 2 * sizeof_dirent + sizeof_dirent * Z.of_nat (length [0; 7]) /\
  (length [0; 7] < 3)%nat /\
  isdirempty 3 3 state_sub = Ret 0 state_sub.
Proof.
  assert (H1 : 0 < @sizeof_dirent Toy2.kernel Toy2.kernel2) by (vm_compute; reflexivity).
  assert (H2 : 64 + @sizeof_dirent Toy2.kernel Toy2.kernel2 <= 2 ^ 32)
    by (vm_compute; discriminate).
  assert (H3 : ext2 (Isize 3) (kworld state_sub) = (kworld state_sub, 64))
    by (apply isize_at; vm_compute; reflexivity).
  assert (H4 : forall k : nat, (k < length [0; 7])%nat ->
                 2 * @sizeof_dirent Toy2.kernel Toy2.kernel2
                 + @sizeof_dirent Toy2.kernel Toy2.kernel2 * Z.of_nat k < 64)
    by (intros k Hk; cbn in Hk |- *; lia).
  assert (H5 : 64 <= 2 * @sizeof_dirent Toy2.kernel Toy2.kernel2
                     + @sizeof_dirent Toy2.kernel Toy2.kernel2 * Z.of_nat (length [0; 7]))
    by (vm_compute; discriminate).
  assert (H6 : (length [0; 7] < 3)%nat) by (cbn; lia).
  split; [exact H1 |]. split; [exact H2 |]. split; [exact H3 |].
  split; [exact entries_at_sub |]. split; [exact H4 |]. split; [exact H5 |].
  split; [exact H6 |].
  exact (isdirempty_checks_entries_past_the_dots 3 64 [0; 7] 3 state_sub
           H1 H2 H3 entries_at_sub H4 H5 H6).
Defined.

Lemma sys_unlink_refuses_dot_names_witness :
  ext (Argstr 0) (kworld state_unlink_dot) = (kworld state_unlink_dot, (1, "."%string)) /\
  0 <= 1 /\
  ext Begin_op (kworld state_unlink_dot) = (kworld state_unlink_dot, tt) /\
  ext (Nameiparent ".") (kworld state_unlink_dot) =
    (kworld state_unlink_dot, (1, "."%string)) /\
  1 <> 0 /\
  (namecmp "." "." = 0 \/ namecmp "." ".." = 0) /\
  exists s', sys_unlink 0 state_unlink_dot = Ret (-1) s' /\
             continues (unlink_refused 1 "." 1 ".") state_unlink_dot s'.
Proof.
  assert (H1 : ext (Argstr 0) (kworld state_unlink_dot) =
               (kworld state_unlink_dot, (1, "."%string)))
    by (apply (argstr_at 0 (kworld state_unlink_dot) (1, "."%string));
        vm_compute; reflexivity).
  assert (H2 : ext Begin_op (kworld state_unlink_dot) = (kworld state_unlink_dot, tt))
    by (vm_compute; reflexivity).
  assert (H3 : ext (Nameiparent ".") (kworld state_unlink_dot) =
               (kworld state_unlink_dot, (1, "."%string))) by (vm_compute; reflexivity).
  assert (H4 : @namecmp Toy2.kernel Toy2.kernel2 "." "." = 0 \/
               @namecmp Toy2.kernel Toy2.kernel2 "." ".." = 0)
    by (left; vm_compute; reflexivity).
  split; [exact H1 |]. split; [lia |]. split; [exact H2 |]. split; [exact H3 |].
  split; [lia |]. split; [exact H4 |].
  exact (sys_unlink_refuses_dot_names 0 state_unlink_dot (kworld state_unlink_dot) 1 "."
           (kworld state_unlink_dot) (kworld state_unlink_dot) 1 "."
           H1 ltac:(lia) H2 H3 ltac:(lia) H4).
Defined.


End MoreRuns.
